(** * A shallow embedding of the language catalog

    The development follows [src/language_catalog.py] and
    [language_service.py]: the domain utilities, the [LanguageCatalog]
    class (its store, setters, resolver, listing operations and loaders)
    and the module-level singleton of the language service.

    Modelling choices.
    - Python [str] values are Rocq [string]s.  The texts handled by the
      catalog are taken to be ASCII: [upper] maps [a-z] to [A-Z] and leaves
      every other character alone, and [strip] removes the ASCII characters
      for which [str.isspace] holds.
    - [Optional[str]] is [option string]; Python truthiness of such a value
      ([if lang], [domain or ctx]) is [truthy].
    - The three-level dictionary [_data] is a [gmap] of [gmap]s: the code
      only ever iterates over it to build a set that is then sorted, so
      insertion order is not observable.  Parsed JSON objects on the other
      hand are iterated in order while the store is mutated, so they are
      association lists.
    - A method that mutates the catalog and may raise is a function from the
      catalog to the catalog it leaves behind and a result; an exception
      keeps whatever was mutated before it was raised. *)

From Stdlib Require Import String Ascii.
From stdpp Require Import gmap strings list fin_maps sorting.

Local Open Scope string_scope.
Local Set Warnings "-register-all".

(** ** Python strings *)

Module PyStr.

Definition is_lower (c : ascii) : bool :=
  let n := nat_of_ascii c in (97 <=? n)%nat && (n <=? 122)%nat.

Definition upper_ascii (c : ascii) : ascii :=
  if is_lower c then ascii_of_nat (nat_of_ascii c - 32) else c.

(** [str.upper] *)
Fixpoint upper (s : string) : string :=
  match s with
  | EmptyString => EmptyString
  | String c r => String (upper_ascii c) (upper r)
  end.

(** [str.isspace] on one ASCII character: tab, line feed, vertical tab,
    form feed, carriage return, the four separators 28-31 and space. *)
Definition isspace (c : ascii) : bool :=
  let n := nat_of_ascii c in
  ((9 <=? n)%nat && (n <=? 13)%nat) || ((28 <=? n)%nat && (n <=? 32)%nat).

Fixpoint lstrip (s : string) : string :=
  match s with
  | EmptyString => EmptyString
  | String c r => if isspace c then lstrip r else s
  end.

Fixpoint rstrip (s : string) : string :=
  match s with
  | EmptyString => EmptyString
  | String c r =>
      match rstrip r with
      | EmptyString => if isspace c then EmptyString else String c EmptyString
      | r' => String c r'
      end
  end.

(** [str.strip()] *)
Definition strip (s : string) : string := rstrip (lstrip s).

(** [s.split(sep)] for a one-character separator: never empty. *)
Fixpoint split (sep : ascii) (s : string) : list string :=
  match s with
  | EmptyString => [EmptyString]
  | String c r =>
      if decide (c = sep) then EmptyString :: split sep r
      else match split sep r with
           | [] => [String c EmptyString]
           | h :: t => String c h :: t
           end
  end.

(** [sep.join(parts)] *)
Fixpoint join (sep : string) (parts : list string) : string :=
  match parts with
  | [] => EmptyString
  | [p] => p
  | p :: rest => p +:+ sep +:+ join sep rest
  end.

(** [s.startswith(prefix)] *)
Fixpoint startswith (prefix s : string) : bool :=
  match prefix, s with
  | EmptyString, _ => true
  | String a p, String b r => bool_decide (a = b) && startswith p r
  | String _ _, EmptyString => false
  end.

(** Truthiness of a string: non-empty. *)
Definition nonempty (s : string) : bool :=
  match s with EmptyString => false | _ => true end.

(** Number of occurrences of a character. *)
Fixpoint count (c : ascii) (s : string) : nat :=
  match s with
  | EmptyString => 0
  | String a r => (if decide (a = c) then 1 else 0) + count c r
  end.

End PyStr.

(** Truthiness of an [Optional[str]]: neither [None] nor empty. *)
Definition truthy (o : option string) : bool :=
  match o with Some s => PyStr.nonempty s | None => false end.

(** [a or b] where [a : Optional[str]] and [b : str]. *)
Definition py_or (a : option string) (b : string) : string :=
  match a with
  | Some s => if PyStr.nonempty s then s else b
  | None => b
  end.

(** ** Domain utilities *)

Definition ROOT_DOMAIN : string := "GLOBAL".

Definition _normalize_domain (domain : option string) : string :=
  if truthy domain then
    let d := PyStr.strip (default EmptyString domain) in
    if PyStr.nonempty d then d else ROOT_DOMAIN
  else ROOT_DOMAIN.

(** [range(n, 0, -1)] *)
Definition range_down (n : nat) : list nat := reverse (seq 1 n).

(** The list comprehension [[".".join(parts[:i]) for i in range(len(parts), 0, -1)]]. *)
Definition prefixes_down (parts : list string) : list string :=
  (fun i => PyStr.join "." (take i parts)) <$> range_down (length parts).

(** [split] never returns an empty list, so [out[-1]] is always defined;
    [last out] is [None] only in that impossible case. *)
Definition _domain_chain (domain : string) : list string :=
  let domain := _normalize_domain (Some domain) in
  if decide (domain = ROOT_DOMAIN) then [ROOT_DOMAIN]
  else
    let parts := PyStr.split "." domain in
    let out := prefixes_down parts in
    if decide (last out = Some ROOT_DOMAIN) then out else out ++ [ROOT_DOMAIN].

(** Number of dot-separated segments of a domain string. *)
Definition segments (d : string) : nat := length (PyStr.split "." d).

(** ** Exceptions and results *)

(** The exceptions the catalog and the service raise, one constructor per
    [raise] site (or family of sites); the payload is what the message is
    formatted from. *)
Inductive exn : Type :=
  | KeyError_MissingLabel
      (* get_text: KeyError("Missing label") *)
  | KeyError_TextNotFound (label : string) (chain : list string)
      (* get_text: KeyError(f"Text not found for label=... in domain chain ...") *)
  | ValueError_Label
      (* set_text: "label must be a non-empty string." *)
  | ValueError_Text
      (* set_text: "text must be a string." *)
  | ValueError_Lang
      (* _normalize_lang: "lang must be a non-empty string." *)
  | ValueError_LangNotAllowed (code : string) (allowed : list string)
      (* _normalize_lang: f"lang ... not in allowed set ..." *)
  | ValueError_Format (msg : string)
      (* the loaders' shape checks *)
  | ValueError_InvalidEntry (label : string)
      (* load_from_file: f"Invalid entry for label {label!r}: expected object of languages." *)
  | FileNotFoundError (path : string)
  | JSONDecodeError (path : string)
  | RuntimeError_NotInitialized.

Inductive result (A : Type) : Type :=
  | Ok (a : A)
  | Raise (e : exn).
Arguments Ok {A} a.
Arguments Raise {A} e.

Definition result_bind {A B} (r : result A) (k : A -> result B) : result B :=
  match r with Ok a => k a | Raise e => Raise e end.

Definition raises {A} (r : result A) : bool :=
  match r with Ok _ => false | Raise _ => true end.

(** ** The catalog object *)

(** [sorted(...)] on strings: Python compares strings code point by code
    point, which on ASCII texts is [String.le]. *)
Definition py_sorted (l : list string) : list string := merge_sort String.le l.

Record LanguageCatalog : Type := mkCatalog {
  _data : gmap string (gmap string (gmap string string));
  _default_lang : string;
  _allowed : option (gset string);
  _context_domain : string
}.

Definition with_data (cat : LanguageCatalog)
    (d : gmap string (gmap string (gmap string string))) : LanguageCatalog :=
  mkCatalog d (_default_lang cat) (_allowed cat) (_context_domain cat).

(** [LanguageCatalog.__init__]; an empty or missing [allowed_langs] leaves
    the catalog without allow-list. *)
Definition new_catalog (default_lang : string) (allowed_langs : option (list string))
    : LanguageCatalog :=
  {| _data := ∅;
     _default_lang := if PyStr.nonempty default_lang then PyStr.upper default_lang else "EN";
     _allowed := match allowed_langs with
                 | Some (x :: l) => Some (list_to_set (PyStr.upper <$> (x :: l)))
                 | _ => None
                 end;
     _context_domain := ROOT_DOMAIN |}.

Definition _normalize_lang (cat : LanguageCatalog) (lang : string) : result string :=
  if negb (PyStr.nonempty lang) then Raise ValueError_Lang
  else
    let code := PyStr.upper lang in
    match _allowed cat with
    | Some allowed =>
        if decide (code ∈ allowed) then Ok code
        else Raise (ValueError_LangNotAllowed code (py_sorted (elements allowed)))
    | None => Ok code
    end.

Definition set_default_lang (cat : LanguageCatalog) (lang : string) : result LanguageCatalog :=
  result_bind (_normalize_lang cat lang) (fun code =>
  Ok (mkCatalog (_data cat) code (_allowed cat) (_context_domain cat))).

Definition set_context (cat : LanguageCatalog) (domain : option string) : LanguageCatalog :=
  mkCatalog (_data cat) (_default_lang cat) (_allowed cat) (_normalize_domain domain).

(** ** Parsed JSON *)

(** What [json.load] returns.  An object is the list of its items in
    iteration order (its keys are pairwise distinct, as in a [dict]); a
    number keeps its literal, the catalog never looks inside. *)
Inductive json : Type :=
  | JNull
  | JBool (b : bool)
  | JNumber (literal : string)
  | JString (s : string)
  | JArray (elems : list json)
  | JObject (items : list (string * json)).

(** [rec.get(key)] on a parsed object: [None] when the key is absent. *)
Fixpoint dict_get (key : string) (items : list (string * json)) : option json :=
  match items with
  | [] => None
  | (k, v) :: rest => if decide (k = key) then Some v else dict_get key rest
  end.

(** ** Setter *)

(** [set_text]: every [raise] precedes the first mutation, so a raised
    exception leaves the catalog as it was and the function returns either
    the mutated catalog or the exception.  [text] is whatever the caller
    passes; the loaders hand over JSON values unchecked. *)
Definition set_text (cat : LanguageCatalog) (label lang : string) (text : json)
    (overwrite : bool) (domain : option string) : result LanguageCatalog :=
  if negb (PyStr.nonempty label) then Raise ValueError_Label
  else
    result_bind (_normalize_lang cat lang) (fun code =>
    match text with
    | JString text =>
        let dom := _normalize_domain (Some (py_or domain (_context_domain cat))) in
        (* bucket_labels = self._data.setdefault(dom, {}) *)
        let bucket_labels := default ∅ (_data cat !! dom) in
        (* bucket_langs = bucket_labels.setdefault(label, {}) *)
        let bucket_langs := default ∅ (bucket_labels !! label) in
        if negb overwrite && bool_decide (is_Some (bucket_langs !! code)) then
          Ok (with_data cat (<[dom := <[label := bucket_langs]> bucket_labels]> (_data cat)))
        else
          Ok (with_data cat
                (<[dom := <[label := <[code := text]> bucket_langs]> bucket_labels]> (_data cat)))
    | _ => Raise ValueError_Text
    end).

(** ** Resolver *)

(** [labels = self._data.get(d); if not labels: continue;
     langs = labels.get(label); if not langs: continue]:
    the language bucket of [label] in domain [d], when there is a non-empty
    one. *)
Definition bucket_of (data : gmap string (gmap string (gmap string string)))
    (d label : string) : option (gmap string string) :=
  match data !! d with
  | None => None
  | Some labels =>
      if decide (labels = ∅) then None
      else match labels !! label with
           | None => None
           | Some langs => if decide (langs = ∅) then None else Some langs
           end
  end.

(** The three language tiers tried inside one domain, with the [tried] set
    of the loop body. *)
Definition try_tiers (langs : gmap string string)
    (primary_lang : string) (fallback_code : option string) (default_lang : string)
    : option string :=
  let tried : gset string := {[ primary_lang ]} in
  match langs !! primary_lang with
  | Some text => Some text
  | None =>
      let step2 :=
        if truthy fallback_code then
          let fc := default EmptyString fallback_code in
          (tried ∪ {[ fc ]}, langs !! fc)
        else (tried, None) in
      match step2.2 with
      | Some text => Some text
      | None =>
          if decide (default_lang ∉ step2.1) then langs !! default_lang else None
      end
  end.

(** The [for d in chain] loop of [get_text]: [Some text] when a [return]
    inside the loop is reached. *)
Fixpoint get_text_loop (data : gmap string (gmap string (gmap string string)))
    (label primary_lang : string) (fallback_code : option string) (default_lang : string)
    (chain : list string) : option string :=
  match chain with
  | [] => None
  | d :: rest =>
      match bucket_of data d label with
      | None => get_text_loop data label primary_lang fallback_code default_lang rest
      | Some langs =>
          match try_tiers langs primary_lang fallback_code default_lang with
          | Some text => Some text
          | None => get_text_loop data label primary_lang fallback_code default_lang rest
          end
      end
  end.

(** [primary_lang = self._normalize_lang(lang) if lang else self._default_lang] *)
Definition primary_lang_of (cat : LanguageCatalog) (lang : option string) : result string :=
  if truthy lang then _normalize_lang cat (default EmptyString lang)
  else Ok (_default_lang cat).

(** [fallback_code = self._normalize_lang(fallback_lang) if fallback_lang else None] *)
Definition fallback_code_of (cat : LanguageCatalog) (fallback_lang : option string)
    : result (option string) :=
  if truthy fallback_lang then
    result_bind (_normalize_lang cat (default EmptyString fallback_lang)) (fun c => Ok (Some c))
  else Ok None.

Definition get_text (cat : LanguageCatalog) (label : string) (lang fallback_lang : option string)
    (default : option string) (domain : option string) : result string :=
  if negb (PyStr.nonempty label) then
    match default with
    | Some d => Ok d
    | None => Raise KeyError_MissingLabel
    end
  else
    let dom := _normalize_domain (Some (py_or domain (_context_domain cat))) in
    let chain := _domain_chain dom in
    result_bind (primary_lang_of cat lang) (fun primary_lang =>
    result_bind (fallback_code_of cat fallback_lang) (fun fallback_code =>
    match get_text_loop (_data cat) label primary_lang fallback_code (_default_lang cat) chain with
    | Some text => Ok text
    | None =>
        match default with
        | Some d => Ok d
        | None => Raise (KeyError_TextNotFound label chain)
        end
    end)).

(** ** Formatting *)

Section Fmt.
(** [str.format] applied to the keyword arguments is the interpreter's:
    [None] stands for any exception it raises.  [kwargs] is the dictionary
    of the keyword arguments left once Python has bound [fmt]'s own
    parameters, whatever the type of its values. *)
Variable kwargs_t : Type.
Variable str_format : string -> kwargs_t -> option string.

Definition fmt (cat : LanguageCatalog) (label : string) (lang fallback_lang : option string)
    (default : option string) (domain : option string) (kwargs : kwargs_t)
    : result string :=
  result_bind (get_text cat label lang fallback_lang default domain) (fun template =>
  match str_format template kwargs with
  | Some s => Ok s
  | None => Ok template
  end).
End Fmt.

(** ** Listing *)

(** [set(d.keys())] *)
Definition keys_of {V} (m : gmap string V) : gset string := dom m.

Definition list_labels (cat : LanguageCatalog) (domain : option string) (recursive : bool)
    : list string :=
  match domain with
  | None =>
      py_sorted (elements
        (map_fold (fun _ labels_map (labels : gset string) => labels ∪ keys_of labels_map)
                  ∅ (_data cat)))
  | Some _ =>
      let dom := _normalize_domain domain in
      if negb recursive then
        py_sorted (elements (keys_of (default ∅ (_data cat !! dom))))
      else
        let labels := keys_of (default ∅ (_data cat !! dom)) in
        let prefix := dom +:+ "." in
        py_sorted (elements
          (map_fold (fun d labels_map (labels : gset string) =>
                       if PyStr.startswith prefix d then labels ∪ keys_of labels_map
                       else labels)
                    labels (_data cat)))
  end.

(** ** Loaders *)

(** What [_load_json] finds at a path: no file, a file [json.load]
    rejects, or a file it parses. *)
Inductive file_state : Type :=
  | Missing
  | Malformed
  | Parsed (v : json).

Definition filesystem : Type := string -> file_state.

Definition _load_json (fs : filesystem) (file_path : string) : result json :=
  match fs file_path with
  | Missing => Raise (FileNotFoundError file_path)
  | Malformed => Raise (JSONDecodeError file_path)
  | Parsed v => Ok v
  end.

(** A [for] loop over [items] whose body mutates the catalog, updates the
    local [count] and may raise: an exception leaves the loop with the
    catalog as mutated so far. *)
Fixpoint for_each {A} (body : A -> nat -> LanguageCatalog -> LanguageCatalog * result nat)
    (items : list A) (count : nat) (cat : LanguageCatalog) : LanguageCatalog * result nat :=
  match items with
  | [] => (cat, Ok count)
  | x :: rest =>
      match body x count cat with
      | (cat', Ok count') => for_each body rest count' cat'
      | (cat', Raise e) => (cat', Raise e)
      end
  end.

(** [self.set_text(...); count += 1] *)
Definition set_and_count (label lang : string) (text : json) (overwrite : bool)
    (domain : string) (count : nat) (cat : LanguageCatalog) : LanguageCatalog * result nat :=
  match set_text cat label lang text overwrite (Some domain) with
  | Ok cat' => (cat', Ok (count + 1))
  | Raise e => (cat, Raise e)
  end.

Definition is_str (v : option json) : option string :=
  match v with Some (JString s) => Some s | _ => None end.

Definition load_from_file (fs : filesystem) (file_path : string) (overwrite : bool)
    (cat : LanguageCatalog) : LanguageCatalog * result nat :=
  match _load_json fs file_path with
  | Raise e => (cat, Raise e)
  | Ok (JObject data) =>
      for_each (fun '(label, mapping) count cat =>
        match mapping with
        | JObject mapping =>
            for_each (fun '(lang, text) => set_and_count label lang text overwrite ROOT_DOMAIN)
                     mapping count cat
        | _ => (cat, Raise (ValueError_InvalidEntry label))
        end) data 0 cat
  | Ok (JArray data) =>
      for_each (fun rec count cat =>
        match rec with
        | JObject rec =>
            match is_str (dict_get "label" rec), is_str (dict_get "lang" rec),
                  is_str (dict_get "text" rec) with
            | Some label, Some lang, Some text =>
                set_and_count label lang (JString text) overwrite ROOT_DOMAIN count cat
            | _, _, _ =>
                (cat, Raise (ValueError_Format
                               "Each record must have string fields: label, lang, text."))
            end
        | _ => (cat, Raise (ValueError_Format
                              "List form expects objects with keys: label, lang, text."))
        end) data 0 cat
  | Ok _ => (cat, Raise (ValueError_Format "JSON must be an object or a list."))
  end.

(** [add_file]: the legacy loader, not overwriting unless asked to. *)
Definition add_file (fs : filesystem) (file_path : string) (overwrite : bool)
    (cat : LanguageCatalog) : LanguageCatalog * result nat :=
  load_from_file fs file_path overwrite cat.

Definition load_domains_from_file (fs : filesystem) (file_path : string) (overwrite : bool)
    (cat : LanguageCatalog) : LanguageCatalog * result nat :=
  match _load_json fs file_path with
  | Raise e => (cat, Raise e)
  | Ok (JObject data) =>
      for_each (fun '(dom, labels) count cat =>
        match labels with
        | JObject labels =>
            let dom_norm := _normalize_domain (Some dom) in
            for_each (fun '(label, lang_map) count cat =>
              match lang_map with
              | JObject lang_map =>
                  for_each (fun '(lang, text) count cat =>
                    match text with
                    | JString _ => set_and_count label lang text overwrite dom_norm count cat
                    | _ => (cat, Raise (ValueError_Format "Languages must map to string texts."))
                    end) lang_map count cat
              | _ => (cat, Raise (ValueError_Format
                                    "Each label must map to an object of languages."))
              end) labels count cat
        | _ => (cat, Raise (ValueError_Format
                              "Each domain key must map to an object of labels."))
        end) data 0 cat
  | Ok _ => (cat, Raise (ValueError_Format "Domain-aware JSON must be a top-level object."))
  end.

Definition load_language_only_from_file (fs : filesystem) (lang file_path : string)
    (overwrite : bool) (domain : option string) (cat : LanguageCatalog)
    : LanguageCatalog * result nat :=
  match _normalize_lang cat lang with
  | Raise e => (cat, Raise e)
  | Ok code =>
      let tgt_domain := _normalize_domain domain in
      match _load_json fs file_path with
      | Raise e => (cat, Raise e)
      | Ok (JObject data) =>
          for_each (fun '(label, text) count cat =>
            match text with
            | JString _ => set_and_count label code text overwrite tgt_domain count cat
            | _ => (cat, Raise (ValueError_Format
                                  "Single-language JSON must map str labels to str texts."))
            end) data 0 cat
      | Ok (JArray data) =>
          for_each (fun rec count cat =>
            match rec with
            | JObject rec =>
                match is_str (dict_get "label" rec), is_str (dict_get "text" rec) with
                | Some label, Some text =>
                    set_and_count label code (JString text) overwrite tgt_domain count cat
                | _, _ =>
                    (cat, Raise (ValueError_Format
                                   "Each record must have string fields: label, text."))
                end
            | _ => (cat, Raise (ValueError_Format
                                  "List form expects objects with keys: label, text."))
            end) data 0 cat
      | Ok _ => (cat, Raise (ValueError_Format "JSON must be an object or a list."))
      end
  end.

(** [self._data.clear()] followed by the legacy loader. *)
Definition reload_from_file (fs : filesystem) (file_path : string) (cat : LanguageCatalog)
    : LanguageCatalog * result nat :=
  load_from_file fs file_path true (with_data cat ∅).

(** ** The process-wide service *)

(** The module-level [_lang_catalog]: [None] until [init_language] has
    succeeded once. *)
Definition service : Type := option LanguageCatalog.

Definition init_language (fs : filesystem) (messages_path : string) (default_lang : string)
    (allowed_langs : option (list string)) (overwrite : bool) (context : option string)
    (domain_aware : bool) (_lang_catalog : service) : service * result unit :=
  let cat := new_catalog default_lang allowed_langs in
  let loaded :=
    if domain_aware then load_domains_from_file fs messages_path overwrite cat
    else load_from_file fs messages_path overwrite cat in
  match loaded with
  | (_, Raise e) => (_lang_catalog, Raise e)
  | (cat, Ok _) =>
      let cat := match context with
                 | Some _ => set_context cat context
                 | None => cat
                 end in
      (Some cat, Ok tt)
  end.

Definition get_language (_lang_catalog : service) : result LanguageCatalog :=
  match _lang_catalog with
  | None => Raise RuntimeError_NotInitialized
  | Some cat => Ok cat
  end.

(** ** Predicates used in the statements *)

(** A string that does not begin with white space. *)
Definition starts_nonspace (s : string) : Prop :=
  match s with
  | EmptyString => True
  | String c _ => PyStr.isspace c = false
  end.

(** A normalized domain: trimmed and not empty. *)
Definition normalized (d : string) : Prop := PyStr.strip d = d /\ d <> EmptyString.

#[local] Instance normalized_dec d : Decision (normalized d).
Proof. unfold normalized. apply _. Defined.

(** The first dot-separated segment of a domain. *)
Definition first_segment (d : string) : option string := head (PyStr.split "." d).

(** A language key as the store may hold it: upper case and, when the
    catalog has an allow-list, a member of it. *)
Definition lang_key_ok (allowed : option (gset string)) (code : string) : Prop :=
  PyStr.upper code = code /\
  match allowed with Some a => code ∈ a | None => True end.

#[local] Instance lang_key_ok_dec allowed code : Decision (lang_key_ok allowed code).
Proof. unfold lang_key_ok. destruct allowed; apply _. Defined.

(** The invariant of the three-level store: every domain key is normalized
    and every language key is acceptable. *)
Definition store_invariant (allowed : option (gset string))
    (data : gmap string (gmap string (gmap string string))) : Prop :=
  map_Forall (fun d labels =>
    normalized d /\
    map_Forall (fun _ langs =>
      map_Forall (fun code (_ : string) => lang_key_ok allowed code) langs) labels) data.

Definition catalog_invariant (cat : LanguageCatalog) : Prop :=
  store_invariant (_allowed cat) (_data cat).

(** No label key and no language key of the store is the empty string. *)
Definition keys_nonempty (data : gmap string (gmap string (gmap string string))) : Prop :=
  map_Forall (fun _ labels =>
    map_Forall (fun label langs =>
      label <> EmptyString /\
      map_Forall (fun code (_ : string) => code <> EmptyString) langs) labels) data.

(** A catalog as the constructor and the mutating methods leave it. *)
Definition catalog_wf (cat : LanguageCatalog) : Prop :=
  catalog_invariant cat /\ keys_nonempty (_data cat).

(** The text stored for a (domain, label, language) triple. *)
Definition entry (cat : LanguageCatalog) (d label code : string) : option string :=
  _data cat !! d ≫= fun labels => labels !! label ≫= fun langs => langs !! code.

(** [evolves c0 cat]: [cat] differs from [c0] in its store only, and its
    store is as well-formed as that of [c0]. *)
Definition evolves (c0 cat : LanguageCatalog) : Prop :=
  _allowed cat = _allowed c0 /\ _default_lang cat = _default_lang c0 /\
  _context_domain cat = _context_domain c0 /\
  (catalog_invariant c0 -> catalog_invariant cat) /\
  (keys_nonempty (_data c0) -> keys_nonempty (_data cat)).

(** A mutating method keeps a property of the catalog, whether it returns
    or raises. *)
Definition keeps (I : LanguageCatalog -> Prop)
    (f : LanguageCatalog -> LanguageCatalog * result nat) : Prop :=
  forall cat, I cat -> I (f cat).1.

(** ** Sample files and catalogs *)

Module Sample.

(** A domain-aware file with [DATA_NOT_FOUND] at [GLOBAL] in [EN] only and
    at [GLOBAL.DATABASE.ORACLE] in [DE] only. *)
Definition messages : json :=
  JObject
    [ ("GLOBAL",
       JObject [ ("DATA_NOT_FOUND", JObject [ ("EN", JString "No data found.") ]);
                 ("USAGE_MESSAGE", JObject [ ("EN", JString "Usage: tool <file>");
                                             ("DE", JString "Aufruf: tool <datei>") ]) ]);
      ("GLOBAL.DATABASE.ORACLE",
       JObject [ ("DATA_NOT_FOUND", JObject [ ("DE", JString "ORA: keine Daten gefunden.") ]);
                 ("ORA_LOCKED", JObject [ ("EN", JString "Resource is locked.") ]) ]);
      ("GLOBALIZATION",
       JObject [ ("LOCALE_HINT", JObject [ ("EN", JString "Pick a locale.") ]) ]) ].

(** A legacy file that only repeats an entry of [messages]. *)
Definition legacy : json :=
  JObject [ ("DATA_NOT_FOUND", JObject [ ("EN", JString "Nothing here.") ]) ].

(** A single-language file that only repeats an entry of [messages]. *)
Definition english_only : json :=
  JObject [ ("DATA_NOT_FOUND", JString "Nothing here.") ].

(** A legacy file whose second entry is not an object of languages. *)
Definition half_valid : json :=
  JObject [ ("FIRST", JObject [ ("EN", JString "one") ]); ("SECOND", JNumber "2") ].

(** The file of the formatting scenario. *)
Definition greeting : json :=
  JObject [ ("GLOBAL", JObject [ ("GREETING", JObject [ ("EN", JString "Hello {name}") ]) ]) ].

Definition fs : filesystem := fun path =>
  if decide (path = "messages.json") then Parsed messages
  else if decide (path = "legacy.json") then Parsed legacy
  else if decide (path = "english.json") then Parsed english_only
  else if decide (path = "greeting.json") then Parsed greeting
  else if decide (path = "half_valid.json") then Parsed half_valid
  else if decide (path = "broken.json") then Malformed
  else if decide (path = "number.json") then Parsed (JNumber "42")
  else Missing.

(** [LanguageCatalog("EN", {"de", "en"})] after
    [load_domains_from_file("messages.json")]. *)
Definition catalog : LanguageCatalog :=
  (load_domains_from_file fs "messages.json" true
     (new_catalog "EN" (Some ["de"; "en"]))).1.

End Sample.

(** ** Resolution order, for the statements about [get_text] *)

(** The text of the first language of [codes] for which [texts] has one. *)
Fixpoint first_text (texts : string -> option string) (codes : list string) : option string :=
  match codes with
  | [] => None
  | c :: rest =>
      match texts c with
      | Some text => Some text
      | None => first_text texts rest
      end
  end.

(** The languages [get_text] tries inside a domain, in order: the primary
    language, the fallback code if there is one, the catalog default. *)
Definition tried_langs (primary_lang : string) (fallback_code : option string)
    (default_lang : string) : list string :=
  primary_lang :: option_list fallback_code ++ [default_lang].

(** What [get_text] does once its loop has found nothing. *)
Definition default_or_not_found (default : option string) (label : string)
    (chain : list string) : result string :=
  match default with
  | Some d => Ok d
  | None => Raise (KeyError_TextNotFound label chain)
  end.

(** The scenario of the fallback-precedence test: a label stored only at
    [GLOBAL] in [EN] and at [GLOBAL.DATABASE.ORACLE] in [DE]. *)
Definition scenario_entry (t_en t_de : string) (d c : string) : option string :=
  if decide (d = "GLOBAL" /\ c = "EN") then Some t_en
  else if decide (d = "GLOBAL.DATABASE.ORACLE" /\ c = "DE") then Some t_de
  else None.

(** [stored_only cat label t_en t_de]: the store holds [label] at [GLOBAL]
    in [EN], at [GLOBAL.DATABASE.ORACLE] in [DE], and nowhere else. *)
Definition stored_only (cat : LanguageCatalog) (label t_en t_de : string) : Prop :=
  entry cat "GLOBAL" label "EN" = Some t_en /\
  entry cat "GLOBAL.DATABASE.ORACLE" label "DE" = Some t_de /\
  map_Forall (fun d labels =>
    map_Forall (fun c (_ : string) =>
        (d = "GLOBAL" /\ c = "EN") \/ (d = "GLOBAL.DATABASE.ORACLE" /\ c = "DE"))
      (default ∅ (labels !! label))) (_data cat).

#[local] Instance stored_only_dec cat label t_en t_de :
  Decision (stored_only cat label t_en t_de).
Proof. unfold stored_only. apply _. Defined.

(** The sample file loaded as the demonstration program does, with [DE] as
    default language. *)
Definition sample_catalog_de : LanguageCatalog :=
  (load_domains_from_file Sample.fs "messages.json" true
     (new_catalog "DE" (Some ["DE"; "EN"]))).1.

(** ** A model of [str.format] for plain templates *)

(** [plain_format template kwargs] follows CPython's [str.format] called
    with string-valued keyword arguments only, on templates whose
    replacement fields are plain names: literal text is copied, doubled
    braces stand for one brace, [{name}] is replaced by the argument of
    that name.  [None] stands for the exception CPython raises: a key that
    is missing, an empty or numeric field (there are no positional
    arguments), a single closing brace, a field that is not closed.  Fields
    with a conversion, a format specification, an attribute or an index are
    outside this model, which answers [None] for them as well; it is used
    below on the scenario template only. *)

Definition is_digit (c : ascii) : bool :=
  let n := nat_of_ascii c in (48 <=? n)%nat && (n <=? 57)%nat.

Fixpoint all_digits (s : string) : bool :=
  match s with
  | EmptyString => true
  | String c r => is_digit c && all_digits r
  end.

Definition field_special (c : ascii) : bool :=
  bool_decide (c = "{"%char) || bool_decide (c = "!"%char) || bool_decide (c = ":"%char)
  || bool_decide (c = "."%char) || bool_decide (c = "["%char).

Fixpoint kwargs_get (key : string) (kwargs : list (string * string)) : option string :=
  match kwargs with
  | [] => None
  | (k, v) :: rest => if decide (k = key) then Some v else kwargs_get key rest
  end.

(** [field] is [Some name] while the scan is inside a replacement field,
    [name] being what has been read of it. *)
Fixpoint plain_format_go (kwargs : list (string * string)) (s : string)
    (field : option string) {struct s} : option string :=
  match s, field with
  | EmptyString, None => Some EmptyString
  | EmptyString, Some _ => None
  | String c r, None =>
      if decide (c = "{"%char) then
        match r with
        | String "{"%char r' => String "{"%char <$> plain_format_go kwargs r' None
        | _ => plain_format_go kwargs r (Some EmptyString)
        end
      else if decide (c = "}"%char) then
        match r with
        | String "}"%char r' => String "}"%char <$> plain_format_go kwargs r' None
        | _ => None
        end
      else String c <$> plain_format_go kwargs r None
  | String c r, Some name =>
      if decide (c = "}"%char) then
        if all_digits name then None
        else
          match kwargs_get name kwargs with
          | Some value => (fun rest => value +:+ rest) <$> plain_format_go kwargs r None
          | None => None
          end
      else if field_special c then None
      else plain_format_go kwargs r (Some (name +:+ String c EmptyString))
  end.

Definition plain_format (template : string) (kwargs : list (string * string))
    : option string :=
  plain_format_go kwargs template None.

(** ** Introspection *)

(** [code = self._normalize_lang(lang) if lang else None] *)
Definition lang_code_of (cat : LanguageCatalog) (lang : option string)
    : result (option string) :=
  if truthy lang then
    result_bind (_normalize_lang cat (default EmptyString lang)) (fun c => Ok (Some c))
  else Ok None.

(** The [for d in domains] loop of [has_text]: [true] when a [return True]
    is reached. *)
Fixpoint has_text_loop (data : gmap string (gmap string (gmap string string)))
    (label : string) (code : option string) (domains : list string) : bool :=
  match domains with
  | [] => false
  | d :: rest =>
      match bucket_of data d label with
      | None => has_text_loop data label code rest
      | Some lang_map =>
          if truthy code then
            if bool_decide (is_Some (lang_map !! default EmptyString code)) then true
            else has_text_loop data label code rest
          else
            if bool_decide (lang_map <> ∅) then true
            else has_text_loop data label code rest
      end
  end.

Definition has_text (cat : LanguageCatalog) (label : string) (lang domain : option string)
    (recursive : bool) : result bool :=
  if negb (PyStr.nonempty label) then Ok false
  else
    let dom := _normalize_domain (Some (py_or domain (_context_domain cat))) in
    let domains := if recursive then _domain_chain dom else [dom] in
    result_bind (lang_code_of cat lang) (fun code =>
    Ok (has_text_loop (_data cat) label code domains)).

(** [for lang_map in labels_map.values(): langs.update(lang_map.keys())] *)
Definition langs_of_labels (labels_map : gmap string (gmap string string))
    (langs : gset string) : gset string :=
  map_fold (fun _ lang_map (langs : gset string) => langs ∪ keys_of lang_map) langs labels_map.

(** [if label in labels_map: langs.update(labels_map[label].keys())] *)
Definition langs_of_label (label : string) (labels_map : gmap string (gmap string string))
    (langs : gset string) : gset string :=
  match labels_map !! label with
  | Some lang_map => langs ∪ keys_of lang_map
  | None => langs
  end.

Definition list_languages (cat : LanguageCatalog) (label domain : option string)
    (recursive : bool) : list string :=
  match label, domain with
  | None, None =>
      py_sorted (elements
        (map_fold (fun _ labels_map langs => langs_of_labels labels_map langs) ∅ (_data cat)))
  | None, Some _ =>
      let dom := _normalize_domain domain in
      if negb recursive then
        py_sorted (elements (langs_of_labels (default ∅ (_data cat !! dom)) ∅))
      else
        let prefix := dom +:+ "." in
        py_sorted (elements
          (map_fold (fun d labels_map langs =>
                       if bool_decide (d = dom) || PyStr.startswith prefix d
                       then langs_of_labels labels_map langs else langs)
                    ∅ (_data cat)))
  | Some label, None =>
      py_sorted (elements
        (map_fold (fun _ labels_map langs => langs_of_label label labels_map langs)
                  ∅ (_data cat)))
  | Some label, Some _ =>
      let dom := _normalize_domain domain in
      if negb recursive then
        py_sorted (elements
          (keys_of (default ∅ (default ∅ (_data cat !! dom) !! label))))
      else
        let prefix := dom +:+ "." in
        py_sorted (elements
          (map_fold (fun d labels_map langs =>
                       if bool_decide (d = dom) || PyStr.startswith prefix d
                       then langs_of_label label labels_map langs else langs)
                    ∅ (_data cat)))
  end.

(** [_has_label] of [csv_reporter.py]: [get_text(label, None, default=None)]
    under [try], [False] on any exception. *)
Definition _has_label (lang_catalog : LanguageCatalog) (label : string) : bool :=
  negb (raises (get_text lang_catalog label None None None None)).

(** ** The service's accessors *)

Module Service.

(** A call on [get_language()]: it raises when the service is not
    initialized, and otherwise runs the method on the instance, which stays
    the instance whatever the method does to it. *)
Definition on_instance {A} (m : LanguageCatalog -> LanguageCatalog * result A)
    (_lang_catalog : service) : service * result A :=
  match get_language _lang_catalog with
  | Raise e => (_lang_catalog, Raise e)
  | Ok cat => let '(cat', r) := m cat in (Some cat', r)
  end.

Definition set_language_context (domain : option string) : service -> service * result unit :=
  on_instance (fun cat => (set_context cat domain, Ok tt)).

Definition set_default_language (lang : string) : service -> service * result unit :=
  on_instance (fun cat =>
    match set_default_lang cat lang with
    | Ok cat' => (cat', Ok tt)
    | Raise e => (cat, Raise e)
    end).

Definition add_language_file (fs : filesystem) (file_path : string) (overwrite : bool)
    : service -> service * result nat :=
  on_instance (add_file fs file_path overwrite).

Definition add_domain_file (fs : filesystem) (file_path : string) (overwrite : bool)
    : service -> service * result nat :=
  on_instance (load_domains_from_file fs file_path overwrite).

Definition add_single_language_file (fs : filesystem) (lang file_path : string)
    (overwrite : bool) (domain : option string) : service -> service * result nat :=
  on_instance (load_language_only_from_file fs lang file_path overwrite domain).

Definition text (label : string) (lang domain default fallback_lang : option string)
    (_lang_catalog : service) : result string :=
  result_bind (get_language _lang_catalog) (fun cat =>
  get_text cat label lang fallback_lang default domain).

Section ServiceFmt.
Variable kwargs_t : Type.
Variable str_format : string -> kwargs_t -> option string.

(** The service's [fmt]: [get_language().fmt(label, lang, ..., **kwargs)]. *)
Definition fmt (label : string) (lang domain default fallback_lang : option string)
    (kwargs : kwargs_t) (_lang_catalog : service) : result string :=
  result_bind (get_language _lang_catalog) (fun cat =>
  fmt kwargs_t str_format cat label lang fallback_lang default domain kwargs).
End ServiceFmt.

End Service.

(** The value of a result that is known not to be an exception. *)
Definition ok_or {A} (d : A) (r : result A) : A :=
  match r with Ok a => a | Raise _ => d end.

(** The sample catalog after
    [set_text("DATA_NOT_FOUND", "de", "Keine Daten.")] in the root context. *)
Definition sample_after_set : LanguageCatalog :=
  ok_or Sample.catalog
    (set_text Sample.catalog "DATA_NOT_FOUND" "de" (JString "Keine Daten.") true None).

(** The domains a listing with the given [domain] and [recursive] arguments
    covers: all of them without [domain], else the normalized domain and,
    when [recursive], the domains that start with it followed by a dot. *)
Definition in_scope (domain : option string) (recursive : bool) (d : string) : Prop :=
  match domain with
  | None => True
  | Some _ =>
      d = _normalize_domain domain \/
      (recursive = true /\ PyStr.startswith (_normalize_domain domain +:+ ".") d = true)
  end.

(** ** Sizes of the files the loaders read *)

(** Number of (label, language) pairs of a legacy file: the lengths of the
    language objects, or the number of records. *)
Definition legacy_size (v : json) : nat :=
  match v with
  | JObject data =>
      sum_list ((fun '(_, mapping) =>
                   match mapping with JObject m => length m | _ => 0 end) <$> data)
  | JArray records => length records
  | _ => 0
  end.

(** Number of (domain, label, language) triples of a domain-aware file. *)
Definition domains_size (v : json) : nat :=
  match v with
  | JObject data =>
      sum_list ((fun '(_, labels) => legacy_size labels) <$> data)
  | _ => 0
  end.

(** Number of labels, or of records, of a single-language file. *)
Definition single_size (v : json) : nat :=
  match v with
  | JObject data => length data
  | JArray records => length records
  | _ => 0
  end.

(** [entries_kept c0 overwrite scope cat]: going from [c0] to [cat] no
    triple lost its entry, none changed its text if [overwrite] is off, and
    the triples outside [scope] are as they were. *)
Definition entries_kept (c0 : LanguageCatalog) (overwrite : bool)
    (scope : string -> string -> string -> Prop) (cat : LanguageCatalog) : Prop :=
  forall d l c,
    (is_Some (entry c0 d l c) -> is_Some (entry cat d l c)) /\
    (overwrite = false -> forall t, entry c0 d l c = Some t -> entry cat d l c = Some t) /\
    (~ scope d l c -> entry cat d l c = entry c0 d l c).

(** ** Loading as a sequence of writes *)

(** The store after [bucket_langs[code] = text] in domain [d], label [l]:
    what [set_text] does when it does not skip. *)
Definition write (w : string * string * string * string)
    (data : gmap string (gmap string (gmap string string)))
    : gmap string (gmap string (gmap string string)) :=
  let '(d, l, c, t) := w in
  <[d := <[l := <[c := t]> (default ∅ (default ∅ (data !! d) !! l))]>
           (default ∅ (data !! d))]> data.

Definition write_key (w : string * string * string * string) : string * string * string :=
  let '(d, l, c, _) := w in (d, l, c).

Definition apply_writes (ws : list (string * string * string * string))
    (data : gmap string (gmap string (gmap string string)))
    : gmap string (gmap string (gmap string string)) :=
  foldl (fun acc w => write w acc) data ws.

(** A loop body, or a loader, whose effect on a catalog with the settings
    of [cat] is a fixed sequence of writes followed by a fixed outcome,
    whatever the store holds. *)
Definition oblivious (cat : LanguageCatalog)
    (f : nat -> LanguageCatalog -> LanguageCatalog * result nat) : Prop :=
  exists ws (o : option exn),
    forall count data,
      f count (with_data cat data) =
      (with_data cat (apply_writes ws data),
       match o with None => Ok (count + length ws) | Some e => Raise e end).

(** ** The configuration store of [csv_reporter_config.py] *)

Module Config.

(** The exceptions of the configuration store: its own, with the message
    it resolved through the language service, or whatever the language
    service raised while the message was being resolved. *)
Inductive cfg_exn : Type :=
  | CfgValueError (msg : string)
  | CfgKeyError (msg : string)
  | CfgFileNotFoundError (msg : string)
  | CfgJSONDecodeError (path : string)
  | CfgTypeError
      (* "unhashable type": a list or an object tested for membership in a set *)
  | LanguageError (e : exn).

Inductive cres (A : Type) : Type :=
  | Done (a : A)
  | Fail (e : cfg_exn).
Arguments Done {A} a.
Arguments Fail {A} e.

Record CsvReporterConfig : Type := mkConfig {
  _queries : gmap string string;
  _csv_configs : gmap string (gmap string json)
}.

(** [CsvReporterConfig()] *)
Definition empty : CsvReporterConfig := mkConfig ∅ ∅.

(** [type(v).__name__] of a parsed JSON value; a number is a [float] when
    its literal has a fraction or an exponent or is one of the constants
    [json] accepts. *)
Definition is_float_literal (lit : string) : bool :=
  negb (Nat.eqb (PyStr.count "." lit + PyStr.count "e" lit + PyStr.count "E" lit
                 + PyStr.count "N" lit + PyStr.count "I" lit) 0).

Definition type_name (v : json) : string :=
  match v with
  | JNull => "NoneType"
  | JBool _ => "bool"
  | JNumber lit => if is_float_literal lit then "float" else "int"
  | JString _ => "str"
  | JArray _ => "list"
  | JObject _ => "dict"
  end.

(** [dict(cfg)] of a parsed object: later items replace earlier ones. *)
Definition dict_of (items : list (string * json)) : gmap string json :=
  foldl (fun m '(k, v) => <[k := v]> m) ∅ items.

(** [out.setdefault(k, v)] *)
Definition setdefault (k : string) (v : json) (out : gmap string json) : gmap string json :=
  match out !! k with
  | Some _ => out
  | None => <[k := v]> out
  end.

Section WithService.
(** The interpreter's [str.format] and [str(Path(p))], and the language
    service as the configuration store finds it. *)
Variable str_format : string -> list (string * string) -> option string.
Variable path_str : string -> string.
Variable svc : service.

(** [get_language().get_text(label)] *)
Definition lang_text (label : string) : cres string :=
  match get_language svc with
  | Raise e => Fail (LanguageError e)
  | Ok cat =>
      match get_text cat label None None None None with
      | Ok msg => Done msg
      | Raise e => Fail (LanguageError e)
      end
  end.

(** [get_language().fmt(label, **kwargs)] *)
Definition lang_fmt (label : string) (kwargs : list (string * string)) : cres string :=
  match get_language svc with
  | Raise e => Fail (LanguageError e)
  | Ok cat =>
      match fmt _ str_format cat label None None None None kwargs with
      | Ok msg => Done msg
      | Raise e => Fail (LanguageError e)
      end
  end.

(** [raise E(msg)] where resolving [msg] may itself raise. *)
Definition raise_with {A} (E : string -> cfg_exn) (msg : cres string) : cres A :=
  match msg with
  | Done m => Fail (E m)
  | Fail e => Fail e
  end.

(** [if not isinstance(out[k], str) or len(out[k]) != 1] *)
Definition one_char (out : gmap string json) (k : string) : bool :=
  match out !! k with
  | Some (JString s) => Nat.eqb (String.length s) 1
  | _ => false
  end.

(** [out[k] not in {...}]: [None] when the value is unhashable. *)
Definition member_of (out : gmap string json) (k : string) (allowed : list string)
    : option bool :=
  match out !! k with
  | Some (JString s) => Some (bool_decide (s ∈ allowed))
  | Some (JArray _) | Some (JObject _) => None
  | _ => Some false
  end.

(** The one-character string made of a double quote. *)
Definition dquote : string := String (ascii_of_nat 34) EmptyString.

Definition with_defaults (cfg : gmap string json) : gmap string json :=
  setdefault "geometry_format" (JString "WKT")
    (setdefault "missing" (JString "")
      (setdefault "header" (JBool true)
        (setdefault "encoding" (JString "utf-8")
          (setdefault "decimal" (JString ".")
            (setdefault "quoting" (JString "QUOTE_MINIMAL")
              (setdefault "quotechar" (JString dquote)
                (setdefault "delimiter" (JString ";") cfg))))))).

Definition quoting_names : list string :=
  ["QUOTE_MINIMAL"; "QUOTE_ALL"; "QUOTE_NONNUMERIC"; "QUOTE_NONE"].

Definition _normalize_csv_config (cfg : gmap string json) : cres (gmap string json) :=
  let out := with_defaults cfg in
  if negb (one_char out "delimiter") then
    raise_with CfgValueError (lang_text "ERR_DELIMITER_INVALID")
  else if negb (one_char out "quotechar") then
    raise_with CfgValueError (lang_text "ERR_QUOTECHAR_INVALID")
  else
    match member_of out "quoting" quoting_names with
    | None => Fail CfgTypeError
    | Some false => raise_with CfgValueError (lang_text "ERR_QUOTING_INVALID")
    | Some true =>
        match member_of out "decimal" ["."; ","] with
        | None => Fail CfgTypeError
        | Some false => raise_with CfgValueError (lang_text "ERR_DECIMAL_INVALID")
        | Some true => Done out
        end
    end.

Definition set_query (cfg : CsvReporterConfig) (label : string) (sql : json)
    (overwrite : bool) : cres CsvReporterConfig :=
  match sql with
  | JString s =>
      if negb (PyStr.nonempty (PyStr.strip s)) then
        raise_with CfgValueError (lang_text "ERR_SQL_EMPTY")
      else if negb overwrite && bool_decide (is_Some (_queries cfg !! label)) then Done cfg
      else Done (mkConfig (<[label := s]> (_queries cfg)) (_csv_configs cfg))
  | _ => raise_with CfgValueError (lang_text "ERR_SQL_EMPTY")
  end.

Definition get_query (cfg : CsvReporterConfig) (label : string) : cres string :=
  match _queries cfg !! label with
  | Some sql => Done sql
  | None => raise_with CfgKeyError (lang_fmt "ERR_UNKNOWN_QUERY_LABEL" [("q_label", label)])
  end.

Definition list_query_labels (cfg : CsvReporterConfig) : list string :=
  py_sorted (elements (dom (_queries cfg))).

Definition set_csv_config (cfg : CsvReporterConfig) (label : string) (c : json)
    (overwrite : bool) : cres CsvReporterConfig :=
  match c with
  | JObject items =>
      if negb overwrite && bool_decide (is_Some (_csv_configs cfg !! label)) then Done cfg
      else
        match _normalize_csv_config (dict_of items) with
        | Done out => Done (mkConfig (_queries cfg) (<[label := out]> (_csv_configs cfg)))
        | Fail e => Fail e
        end
  | _ => raise_with CfgValueError (lang_text "ERR_CSV_CONFIG_TYPE")
  end.

Definition get_csv_config (cfg : CsvReporterConfig) (label : string)
    : cres (gmap string json) :=
  match _csv_configs cfg !! label with
  | Some c => Done c
  | None =>
      raise_with CfgKeyError (lang_fmt "ERR_UNKNOWN_CSV_CONFIG_LABEL" [("c_label", label)])
  end.

Definition list_csv_config_labels (cfg : CsvReporterConfig) : list string :=
  py_sorted (elements (dom (_csv_configs cfg))).

Definition _load_json_dict (fs : filesystem) (file_path : string)
    : cres (list (string * json)) :=
  match fs file_path with
  | Missing =>
      raise_with CfgFileNotFoundError
        (lang_fmt "ERR_FILE_NOT_FOUND" [("path", path_str file_path)])
  | Malformed => Fail (CfgJSONDecodeError file_path)
  | Parsed (JObject data) => Done data
  | Parsed _ => raise_with CfgValueError (lang_text "ERR_JSON_MUST_BE_OBJECT")
  end.

(** The [for k, v in data.items()] loops of the two file loaders. *)
Fixpoint load_queries_loop (overwrite : bool) (items : list (string * json)) (count : nat)
    (cfg : CsvReporterConfig) : CsvReporterConfig * cres nat :=
  match items with
  | [] => (cfg, Done count)
  | (k, v) :: rest =>
      match v with
      | JString sql =>
          let existed := bool_decide (is_Some (_queries cfg !! k)) in
          if negb existed || overwrite then
            load_queries_loop overwrite rest (count + 1)
              (mkConfig (<[k := sql]> (_queries cfg)) (_csv_configs cfg))
          else load_queries_loop overwrite rest count cfg
      | _ =>
          (cfg, raise_with CfgValueError
                  (lang_fmt "ERR_INVALID_QUERY_ENTRY"
                     [("key_type", "str"); ("value_type", type_name v)]))
      end
  end.

Definition load_queries_from_file (fs : filesystem) (file_path : string) (overwrite : bool)
    (cfg : CsvReporterConfig) : CsvReporterConfig * cres nat :=
  match _load_json_dict fs file_path with
  | Fail e => (cfg, Fail e)
  | Done data => load_queries_loop overwrite data 0 cfg
  end.

Fixpoint load_csv_configs_loop (overwrite : bool) (items : list (string * json)) (count : nat)
    (cfg : CsvReporterConfig) : CsvReporterConfig * cres nat :=
  match items with
  | [] => (cfg, Done count)
  | (k, v) :: rest =>
      match v with
      | JObject c =>
          let existed := bool_decide (is_Some (_csv_configs cfg !! k)) in
          if negb existed || overwrite then
            match _normalize_csv_config (dict_of c) with
            | Done out =>
                load_csv_configs_loop overwrite rest (count + 1)
                  (mkConfig (_queries cfg) (<[k := out]> (_csv_configs cfg)))
            | Fail e => (cfg, Fail e)
            end
          else load_csv_configs_loop overwrite rest count cfg
      | _ =>
          (cfg, raise_with CfgValueError
                  (lang_fmt "ERR_INVALID_CSV_ENTRY"
                     [("key_type", "str"); ("value_type", type_name v)]))
      end
  end.

Definition load_csv_configs_from_file (fs : filesystem) (file_path : string)
    (overwrite : bool) (cfg : CsvReporterConfig) : CsvReporterConfig * cres nat :=
  match _load_json_dict fs file_path with
  | Fail e => (cfg, Fail e)
  | Done data => load_csv_configs_loop overwrite data 0 cfg
  end.

(** [from_files]: the instance is returned only when both loads returned. *)
Definition from_files (fs : filesystem) (queries_path csv_configs_path : string)
    (overwrite : bool) : cres CsvReporterConfig :=
  match load_queries_from_file fs queries_path overwrite empty with
  | (_, Fail e) => Fail e
  | (inst, Done _) =>
      match load_csv_configs_from_file fs csv_configs_path overwrite inst with
      | (_, Fail e) => Fail e
      | (inst, Done _) => Done inst
      end
  end.

End WithService.
End Config.

(** The keys [_normalize_csv_config] gives a default to. *)
Definition csv_default_keys : list string :=
  ["delimiter"; "quotechar"; "quoting"; "decimal"; "encoding"; "header"; "missing";
   "geometry_format"].

(** A CSV configuration as the writer expects it: the standard keys are
    there, delimiter and quote character are one-character strings, quoting
    and decimal separator are among the accepted values. *)
Definition csv_valid (c : gmap string json) : Prop :=
  Forall (fun k => is_Some (c !! k)) csv_default_keys /\
  Config.one_char c "delimiter" = true /\
  Config.one_char c "quotechar" = true /\
  Config.member_of c "quoting" Config.quoting_names = Some true /\
  Config.member_of c "decimal" ["."; ","] = Some true.

Definition csv_store_valid (cfg : Config.CsvReporterConfig) : Prop :=
  map_Forall (fun _ c => csv_valid c) (Config._csv_configs cfg).

(** Sample files of the configuration store. *)
Module ConfigSample.

Definition queries : json :=
  JObject [("Q1", JString "SELECT 1 FROM DUAL"); ("Q2", JString "SELECT 2 FROM DUAL")].

Definition csv_configs : json :=
  JObject [("default", JObject []);
           ("comma", JObject [("delimiter", JString ","); ("decimal", JString ",")])].

Definition fs : filesystem := fun path =>
  if decide (path = "queries.json") then Parsed queries
  else if decide (path = "csv_configs.json") then Parsed csv_configs
  else Missing.

(** A store that already holds a query under [Q1]. *)
Definition one_query : Config.CsvReporterConfig :=
  Config.mkConfig (<["Q1" := "SELECT 0 FROM DUAL"]> ∅) ∅.

End ConfigSample.

(** ** A label overridden in a parent domain *)

(** The sample catalog after
    [set_text("ORA_LOCKED", "en", "Locked.", domain="GLOBAL.DATABASE")]: the
    label is stored under [GLOBAL.DATABASE.ORACLE] and under
    [GLOBAL.DATABASE]. *)
Definition sample_with_override : LanguageCatalog :=
  ok_or Sample.catalog
    (set_text Sample.catalog "ORA_LOCKED" "en" (JString "Locked.") true
       (Some "GLOBAL.DATABASE")).

(** ** The entries of a legacy file *)




(** An entry the catalog accepts: a non-empty label, a language that passes
    validation, a string as text. *)
Definition entry_accepted (cat : LanguageCatalog) (e : string * string * json) : Prop :=
  let '(label, lang, text) := e in
  label <> EmptyString /\ (exists code, _normalize_lang cat lang = Ok code) /\
  exists s, text = JString s.

(** The text a run of entries gives to a label in a language code: the text
    of the last entry for that label whose language upper-cases to the
    code. *)
Definition entries_text (es : list (string * string * json)) (label code : string)
    : option string :=
  last (omap (fun '(l, g, t) =>
                if decide (l = label /\ PyStr.upper g = code) then is_str (Some t) else None)
             es).

(** No domain without label and no label without text. *)
Definition full_buckets (data : gmap string (gmap string (gmap string string))) : Prop :=
  forall d labels,
    data !! d = Some labels ->
    labels <> ∅ /\ forall l langs, labels !! l = Some langs -> langs <> ∅.

(** A catalog whose store holds exactly the entries [es], all of them under
    [GLOBAL]. *)
Definition holds_exactly (cat : LanguageCatalog) (es : list (string * string * json))
    : Prop :=
  full_buckets (_data cat) /\
  forall d l c,
    entry cat d l c = if decide (d = ROOT_DOMAIN) then entries_text es l c else None.

(** [loaded cat0 pre es count out]: a loop over the entries [es], started
    with [count] on a store holding [pre], came out as [out]: it stored the
    first [k] entries, all accepted, and if it returned it stored them all
    and counted them. *)
Definition loaded (cat0 : LanguageCatalog) (pre es : list (string * string * json))
    (count : nat) (out : LanguageCatalog * result nat) : Prop :=
  _allowed out.1 = _allowed cat0 /\
  exists k, k <= length es /\ Forall (entry_accepted cat0) (take k es) /\
            holds_exactly out.1 (pre ++ take k es) /\
            forall n, out.2 = Ok n -> k = length es /\ n = count + k.

(** * Properties *)

(** ** Strings *)

Section StringFacts.

Lemma upper_ascii_idemp c : PyStr.upper_ascii (PyStr.upper_ascii c) = PyStr.upper_ascii c.
Proof. by destruct c as [[] [] [] [] [] [] [] []]. Qed.

Lemma upper_idemp s : PyStr.upper (PyStr.upper s) = PyStr.upper s.
Proof. induction s as [|c s IH]; simpl; [done|]. by rewrite upper_ascii_idemp, IH. Qed.

Lemma upper_nonempty s : PyStr.nonempty (PyStr.upper s) = PyStr.nonempty s.
Proof. by destruct s. Qed.

Lemma lstrip_starts s : starts_nonspace (PyStr.lstrip s).
Proof.
  induction s as [|c s IH]; simpl; [done|].
  destruct (PyStr.isspace c) eqn:Hc; [done|]. by simpl.
Qed.

Lemma lstrip_id s : starts_nonspace s -> PyStr.lstrip s = s.
Proof. destruct s as [|c s]; simpl; [done|]. by intros ->. Qed.

Lemma rstrip_starts s : starts_nonspace s -> starts_nonspace (PyStr.rstrip s).
Proof.
  destruct s as [|c s]; simpl; [done|]. intros Hc.
  destruct (PyStr.rstrip s); by rewrite ?Hc.
Qed.

Lemma rstrip_idemp s : PyStr.rstrip (PyStr.rstrip s) = PyStr.rstrip s.
Proof.
  induction s as [|c s IH]; simpl; [done|].
  destruct (PyStr.rstrip s) as [|a r] eqn:Hr.
  - destruct (PyStr.isspace c) eqn:Hc; simpl; [done|]. by rewrite Hc.
  - change (PyStr.rstrip (String c (String a r))) with
      (match PyStr.rstrip (String a r) with
       | EmptyString => if PyStr.isspace c then EmptyString else String c EmptyString
       | r' => String c r'
       end).
    by rewrite IH.
Qed.

Lemma strip_idemp s : PyStr.strip (PyStr.strip s) = PyStr.strip s.
Proof.
  unfold PyStr.strip.
  rewrite (lstrip_id (PyStr.rstrip (PyStr.lstrip s))).
  - apply rstrip_idemp.
  - apply rstrip_starts, lstrip_starts.
Qed.

Lemma split_length sep s : length (PyStr.split sep s) = S (PyStr.count sep s).
Proof.
  induction s as [|c s IH]; simpl; [done|].
  destruct (decide (c = sep)); simpl; [by rewrite IH|].
  destruct (PyStr.split sep s); simpl in *; [done|]. by rewrite IH.
Qed.

Lemma count_lstrip c s :
  PyStr.isspace c = false -> PyStr.count c (PyStr.lstrip s) = PyStr.count c s.
Proof.
  intros Hc. induction s as [|a s IH]; simpl; [done|].
  destruct (PyStr.isspace a) eqn:Ha; [|done].
  rewrite IH. destruct (decide (a = c)) as [->|]; [congruence|done].
Qed.

Lemma count_rstrip c s :
  PyStr.isspace c = false -> PyStr.count c (PyStr.rstrip s) = PyStr.count c s.
Proof.
  intros Hc. induction s as [|a s IH]; simpl; [done|].
  destruct (PyStr.rstrip s) as [|b r] eqn:Hr.
  - simpl in IH. rewrite <- IH.
    destruct (PyStr.isspace a) eqn:Ha; simpl.
    + destruct (decide (a = c)) as [->|]; [congruence|done].
    + lia.
  - rewrite <- IH. done.
Qed.

Lemma count_strip c s :
  PyStr.isspace c = false -> PyStr.count c (PyStr.strip s) = PyStr.count c s.
Proof. intros Hc. unfold PyStr.strip. by rewrite count_rstrip, count_lstrip. Qed.

Lemma count_app c s1 s2 :
  PyStr.count c (s1 +:+ s2) = PyStr.count c s1 + PyStr.count c s2.
Proof.
  induction s1 as [|a s1 IH]; [done|].
  change (String a s1 +:+ s2) with (String a (s1 +:+ s2)). simpl. rewrite IH. lia.
Qed.

End StringFacts.

(** ** Domains *)

Lemma nonempty_true s : PyStr.nonempty s = true <-> s <> EmptyString.
Proof. destruct s; simpl; split; congruence. Qed.

Lemma normalize_domain_normalized o : normalized (_normalize_domain o).
Proof.
  unfold _normalize_domain.
  destruct (truthy o); [|by split].
  destruct (PyStr.nonempty (PyStr.strip (default EmptyString o))) eqn:Hne; [|by split].
  split; [apply strip_idemp|by apply nonempty_true].
Qed.

Lemma normalize_domain_id d : normalized d -> _normalize_domain (Some d) = d.
Proof.
  intros [Hs Hne]. unfold _normalize_domain. simpl.
  apply nonempty_true in Hne as Hne'. rewrite Hne'. rewrite Hs. by rewrite Hne'.
Qed.

Lemma normalize_domain_idemp o :
  _normalize_domain (Some (_normalize_domain o)) = _normalize_domain o.
Proof. apply normalize_domain_id, normalize_domain_normalized. Qed.

Lemma segments_normalize d : segments (_normalize_domain (Some d)) = segments d.
Proof.
  unfold segments, _normalize_domain. simpl. rewrite !split_length.
  destruct (PyStr.nonempty d) eqn:Hd.
  - destruct (PyStr.nonempty (PyStr.strip d)) eqn:Hs.
    + by rewrite count_strip.
    + rewrite <- (count_strip "." d) by done.
      destruct (PyStr.strip d); [done|discriminate].
  - destruct d; [done|discriminate].
Qed.

Lemma split_nonempty sep s : PyStr.split sep s <> [].
Proof. intros H. apply (f_equal length) in H. by rewrite split_length in H. Qed.

Lemma prefixes_down_cons p rest :
  prefixes_down (p :: rest) =
  (((fun i => PyStr.join "." (take i (p :: rest))) <$> reverse (seq 2 (length rest))) ++ [p])%list.
Proof.
  unfold prefixes_down, range_down. simpl length.
  change (seq 1 (S (length rest))) with (1 :: seq 2 (length rest)).
  by rewrite reverse_cons, fmap_app.
Qed.

(** A prefix of two segments or more contains a dot, so it is not the root. *)
Lemma longer_prefix_not_root p rest i :
  i ∈ reverse (seq 2 (length rest)) ->
  PyStr.join "." (take i (p :: rest)) <> ROOT_DOMAIN.
Proof.
  rewrite elem_of_reverse, elem_of_seq. intros [Hlo Hhi].
  destruct i as [|[|j]]; [lia..|].
  destruct rest as [|q rest]; simpl in Hhi; [lia|].
  intros Heq. apply (f_equal (PyStr.count ".")) in Heq.
  change (PyStr.join "." (take (S (S j)) (p :: q :: rest)))
    with (p +:+ "." +:+ PyStr.join "." (q :: take j rest)) in Heq.
  rewrite !count_app in Heq. simpl in Heq. lia.
Qed.

Lemma filter_root_prefixes p rest :
  filter (fun x => x = ROOT_DOMAIN)
    ((fun i => PyStr.join "." (take i (p :: rest))) <$> reverse (seq 2 (length rest))) = [].
Proof.
  pose proof (longer_prefix_not_root p rest) as Hne.
  induction (reverse (seq 2 (length rest))) as [|i l IH]; [done|].
  rewrite fmap_cons, filter_cons_False.
  - apply IH. intros j Hj. apply Hne. by right.
  - apply Hne. by left.
Qed.

(** C4 (as amended).  For every domain string [d] the chain ends with the
    root domain [GLOBAL], the root occurs in it exactly once (also when
    the root name is one of the path segments), and its length is the number
    of dot-separated segments of [d] when the first segment of the
    normalized domain is [GLOBAL] (1 for the root itself) and that number
    plus one otherwise, the root being appended. *)
Theorem domain_chain_shape (d : string) :
  last (_domain_chain d) = Some ROOT_DOMAIN /\
  length (filter (fun x => x = ROOT_DOMAIN) (_domain_chain d)) = 1 /\
  length (_domain_chain d) =
    if decide (first_segment (_normalize_domain (Some d)) = Some ROOT_DOMAIN)
    then segments d else S (segments d).
Proof.
  rewrite <- (segments_normalize d). unfold _domain_chain, first_segment, segments.
  generalize (_normalize_domain (Some d)) as dom. intros dom.
  destruct (decide (dom = ROOT_DOMAIN)) as [->|Hroot]; [done|].
  pose proof (split_nonempty "." dom) as Hparts.
  destruct (PyStr.split "." dom) as [|p rest]; [done|]. clear Hparts.
  rewrite prefixes_down_cons, last_snoc.
  change (head (p :: rest)) with (Some p).
  destruct (decide (Some p = Some ROOT_DOMAIN)) as [Hp|Hp].
  - injection Hp as ->. split; [apply last_snoc|].
    rewrite filter_app, filter_root_prefixes, !length_app, length_fmap,
      length_reverse, length_seq.
    split; [done|]. simpl. lia.
  - split; [apply last_snoc|].
    rewrite !filter_app, filter_root_prefixes, !length_app, length_fmap,
      length_reverse, length_seq.
    rewrite filter_singleton_False by congruence.
    split; [done|]. simpl. lia.
Qed.

(** C4, counterexample.  ["DATABASE.ORACLE"] is a normalized domain of two
    segments whose chain has three elements. *)
Lemma domain_chain_length_counterexample :
  normalized "DATABASE.ORACLE" /\
  _domain_chain "DATABASE.ORACLE" = ["DATABASE.ORACLE"; "DATABASE"; "GLOBAL"] /\
  length (_domain_chain "DATABASE.ORACLE") <> segments "DATABASE.ORACLE".
Proof. split; [by split|]. split; [done|]. vm_compute. lia. Qed.

(** ** The store and its invariant *)

Lemma normalize_lang_ok cat lang code :
  _normalize_lang cat lang = Ok code ->
  code = PyStr.upper lang /\ lang <> EmptyString /\ code <> EmptyString /\
  lang_key_ok (_allowed cat) code.
Proof.
  unfold _normalize_lang, lang_key_ok.
  destruct (PyStr.nonempty lang) eqn:Hne; simpl; [|done].
  assert (PyStr.upper lang <> EmptyString) as Hup.
  { apply nonempty_true. by rewrite upper_nonempty. }
  apply nonempty_true in Hne.
  destruct (_allowed cat) as [a|].
  - destruct (decide (PyStr.upper lang ∈ a)); [|done].
    intros [= <-]. by rewrite upper_idemp.
  - intros [= <-]. by rewrite upper_idemp.
Qed.

Lemma normalize_lang_accepts cat code :
  code <> EmptyString -> lang_key_ok (_allowed cat) code ->
  _normalize_lang cat code = Ok code.
Proof.
  intros Hne [Hup Hal]. unfold _normalize_lang.
  apply nonempty_true in Hne. rewrite Hne. simpl. rewrite Hup.
  destruct (_allowed cat); [|done]. by rewrite decide_True.
Qed.

Section StoreFacts.
Context (allowed : option (gset string)).
Implicit Types data : gmap string (gmap string (gmap string string)).

Lemma store_invariant_labels data d :
  store_invariant allowed data ->
  map_Forall (fun _ langs =>
    map_Forall (fun code (_ : string) => lang_key_ok allowed code) langs)
    (default ∅ (data !! d)).
Proof.
  intros Hinv. destruct (data !! d) as [labels|] eqn:Hd; simpl.
  - by destruct (Hinv d labels Hd).
  - apply map_Forall_empty.
Qed.

Lemma store_invariant_langs data d label :
  store_invariant allowed data ->
  map_Forall (fun code (_ : string) => lang_key_ok allowed code)
    (default ∅ (default ∅ (data !! d) !! label)).
Proof.
  intros Hinv. pose proof (store_invariant_labels data d Hinv) as Hl.
  destruct (default ∅ (data !! d) !! label) as [langs|] eqn:Hlab; simpl.
  - by apply (Hl label).
  - apply map_Forall_empty.
Qed.

(** The two writes of [set_text], after its [setdefault] calls. *)
Lemma store_invariant_write data d label langs :
  store_invariant allowed data -> normalized d ->
  map_Forall (fun code (_ : string) => lang_key_ok allowed code) langs ->
  store_invariant allowed (<[d := <[label := langs]> (default ∅ (data !! d))]> data).
Proof.
  intros Hinv Hd Hlangs. apply map_Forall_insert_2; [|done].
  split; [done|]. apply map_Forall_insert_2; [done|].
  by apply store_invariant_labels.
Qed.

Lemma keys_nonempty_write data d label langs :
  keys_nonempty data -> label <> EmptyString ->
  map_Forall (fun code (_ : string) => code <> EmptyString) langs ->
  keys_nonempty (<[d := <[label := langs]> (default ∅ (data !! d))]> data).
Proof.
  intros Hinv Hl Hlangs. apply map_Forall_insert_2; [|done].
  apply map_Forall_insert_2; [done|].
  destruct (data !! d) as [labels|] eqn:Hd; simpl.
  - by apply (Hinv d).
  - apply map_Forall_empty.
Qed.

Lemma keys_nonempty_langs data d label :
  keys_nonempty data ->
  map_Forall (fun code (_ : string) => code <> EmptyString)
    (default ∅ (default ∅ (data !! d) !! label)).
Proof.
  intros Hinv. destruct (data !! d) as [labels|] eqn:Hd; simpl.
  - destruct (labels !! label) as [langs|] eqn:Hlab; simpl.
    + by destruct (Hinv d labels Hd label langs Hlab).
    + apply map_Forall_empty.
  - rewrite lookup_empty. apply map_Forall_empty.
Qed.
End StoreFacts.

(** [set_text] keeps the invariant, the well-formedness and every field but
    the store. *)
Lemma set_text_spec cat label lang text overwrite domain cat' :
  set_text cat label lang text overwrite domain = Ok cat' ->
  _allowed cat' = _allowed cat /\ _default_lang cat' = _default_lang cat /\
  _context_domain cat' = _context_domain cat /\
  (catalog_invariant cat -> catalog_invariant cat') /\
  (keys_nonempty (_data cat) -> keys_nonempty (_data cat')).
Proof.
  unfold set_text.
  destruct (PyStr.nonempty label) eqn:Hlabel; simpl; [|done].
  apply nonempty_true in Hlabel.
  destruct (_normalize_lang cat lang) as [code|] eqn:Hcode; simpl; [|done].
  apply normalize_lang_ok in Hcode as (_ & _ & Hne & Hok).
  destruct text as [| | |text| |]; try done.
  pose proof (normalize_domain_normalized (Some (py_or domain (_context_domain cat)))) as Hd.
  set (dom := _normalize_domain _) in *.
  unfold catalog_invariant.
  destruct (negb overwrite && _); intros [= <-]; simpl;
    (split; [done|]); (split; [done|]); (split; [done|]); split; intros Hinv.
  - apply store_invariant_write; [done..|]. by apply store_invariant_langs.
  - apply keys_nonempty_write; [done..|]. by apply keys_nonempty_langs.
  - apply store_invariant_write; [done..|].
    apply map_Forall_insert_2; [done|]. by apply store_invariant_langs.
  - apply keys_nonempty_write; [done..|].
    apply map_Forall_insert_2; [done|]. by apply keys_nonempty_langs.
Qed.

Lemma evolves_refl cat : evolves cat cat.
Proof. do 3 (split; [done|]). by split. Qed.

Lemma evolves_trans c0 c1 c2 : evolves c0 c1 -> evolves c1 c2 -> evolves c0 c2.
Proof.
  intros (Ha & Hd & Hc & Hi & Hk) (Ha' & Hd' & Hc' & Hi' & Hk').
  do 3 (split; [congruence|]). split; tauto.
Qed.

Lemma set_text_evolves cat label lang text overwrite domain cat' :
  set_text cat label lang text overwrite domain = Ok cat' -> evolves cat cat'.
Proof. intros H. by apply set_text_spec in H. Qed.

(** ** Loaders *)

Lemma for_each_keeps {A} I (body : A -> nat -> LanguageCatalog -> LanguageCatalog * result nat)
    items :
  (forall x count, keeps I (body x count)) ->
  forall count, keeps I (for_each body items count).
Proof.
  intros Hbody. induction items as [|x rest IH]; intros count cat Hcat; [done|].
  simpl. specialize (Hbody x count cat Hcat).
  destruct (body x count cat) as [cat' [count'|e]]; [|done].
  by apply IH.
Qed.

Lemma set_and_count_keeps c0 label lang text overwrite domain count :
  keeps (evolves c0) (set_and_count label lang text overwrite domain count).
Proof.
  intros cat Hcat. unfold set_and_count.
  destruct (set_text cat label lang text overwrite (Some domain)) as [cat'|e] eqn:Hset;
    [|done].
  simpl. eapply evolves_trans; [done|]. by eapply set_text_evolves.
Qed.

Lemma load_from_file_keeps c0 fs file_path overwrite :
  keeps (evolves c0) (load_from_file fs file_path overwrite).
Proof.
  unfold load_from_file.
  destruct (_load_json fs file_path) as [[]|]; try (by intros ? ?).
  - apply for_each_keeps. intros rec count cat Hcat.
    destruct rec as [| | | | |rec]; try done.
    destruct (is_str (dict_get "label" rec)); [|done].
    destruct (is_str (dict_get "lang" rec)); [|done].
    destruct (is_str (dict_get "text" rec)); [|done].
    by apply set_and_count_keeps.
  - apply for_each_keeps. intros [label mapping] count cat Hcat.
    destruct mapping as [| | | | |mapping]; try done.
    revert cat Hcat. apply for_each_keeps. intros [lang text] count'.
    apply set_and_count_keeps.
Qed.

Lemma load_domains_from_file_keeps c0 fs file_path overwrite :
  keeps (evolves c0) (load_domains_from_file fs file_path overwrite).
Proof.
  unfold load_domains_from_file.
  destruct (_load_json fs file_path) as [[]|]; try (by intros ? ?).
  apply for_each_keeps. intros [dom labels] count cat Hcat.
  destruct labels as [| | | | |labels]; try done.
  revert cat Hcat. apply for_each_keeps. intros [label lang_map] count' cat Hcat.
  destruct lang_map as [| | | | |lang_map]; try done.
  revert cat Hcat. apply for_each_keeps. intros [lang text] count'' cat Hcat.
  destruct text; try done. by apply set_and_count_keeps.
Qed.

Lemma load_language_only_from_file_keeps c0 fs lang file_path overwrite domain :
  keeps (evolves c0) (load_language_only_from_file fs lang file_path overwrite domain).
Proof.
  intros cat Hcat. unfold load_language_only_from_file.
  destruct (_normalize_lang cat lang) as [code|]; [|done].
  destruct (_load_json fs file_path) as [[]|]; try done; revert cat Hcat.
  - apply for_each_keeps. intros rec count cat Hcat.
    destruct rec as [| | | | |rec]; try done.
    destruct (is_str (dict_get "label" rec)); [|done].
    destruct (is_str (dict_get "text" rec)); [|done].
    by apply set_and_count_keeps.
  - apply for_each_keeps. intros [label text] count cat Hcat.
    destruct text; try done. by apply set_and_count_keeps.
Qed.

Lemma new_catalog_wf default_lang allowed_langs :
  catalog_wf (new_catalog default_lang allowed_langs).
Proof. split; apply map_Forall_empty. Qed.

Lemma cleared_wf cat : catalog_wf (with_data cat ∅).
Proof. split; apply map_Forall_empty. Qed.

(** C8.  The store invariant, every domain key normalized (trimmed and
    not empty) and every language key upper case and in the allow-list when
    the catalog has one, holds of a new catalog and is kept by [set_text],
    by the three loaders and by [reload_from_file], whether they return or
    raise; none of them changes the allow-list. *)
Theorem store_invariant_preserved (cat : LanguageCatalog) :
  catalog_invariant cat ->
  (forall label lang text overwrite domain cat',
     set_text cat label lang text overwrite domain = Ok cat' ->
     catalog_invariant cat' /\ _allowed cat' = _allowed cat) /\
  (forall fs file_path overwrite,
     let cat' := (load_from_file fs file_path overwrite cat).1 in
     catalog_invariant cat' /\ _allowed cat' = _allowed cat) /\
  (forall fs file_path overwrite,
     let cat' := (load_domains_from_file fs file_path overwrite cat).1 in
     catalog_invariant cat' /\ _allowed cat' = _allowed cat) /\
  (forall fs lang file_path overwrite domain,
     let cat' := (load_language_only_from_file fs lang file_path overwrite domain cat).1 in
     catalog_invariant cat' /\ _allowed cat' = _allowed cat) /\
  (forall fs file_path,
     let cat' := (reload_from_file fs file_path cat).1 in
     catalog_invariant cat' /\ _allowed cat' = _allowed cat) /\
  (forall default_lang allowed_langs,
     catalog_invariant (new_catalog default_lang allowed_langs)).
Proof.
  intros Hinv. repeat apply conj.
  - intros label lang text overwrite domain cat' Hset.
    apply set_text_spec in Hset as (Ha & _ & _ & Hi & _). auto.
  - intros fs file_path overwrite.
    destruct (load_from_file_keeps cat fs file_path overwrite cat (evolves_refl cat))
      as (Ha & _ & _ & Hi & _). auto.
  - intros fs file_path overwrite.
    destruct (load_domains_from_file_keeps cat fs file_path overwrite cat (evolves_refl cat))
      as (Ha & _ & _ & Hi & _). auto.
  - intros fs lang file_path overwrite domain.
    destruct (load_language_only_from_file_keeps cat fs lang file_path overwrite domain cat
                (evolves_refl cat)) as (Ha & _ & _ & Hi & _). auto.
  - intros fs file_path. unfold reload_from_file.
    destruct (load_from_file_keeps (with_data cat ∅) fs file_path true (with_data cat ∅)
                (evolves_refl _)) as (Ha & _ & _ & Hi & _).
    split; [|done]. apply Hi, cleared_wf.
  - intros default_lang allowed_langs. apply new_catalog_wf.
Qed.

Lemma with_data_id cat : with_data cat (_data cat) = cat.
Proof. by destruct cat. Qed.

Lemma entry_lookup cat d label code text :
  entry cat d label code = Some text ->
  exists labels langs,
    _data cat !! d = Some labels /\ labels !! label = Some langs /\ langs !! code = Some text.
Proof.
  unfold entry. intros H.
  destruct (_data cat !! d) as [labels|]; simpl in H; [|done].
  destruct (labels !! label) as [langs|] eqn:Hl; simpl in H; [|done].
  by exists labels, langs.
Qed.

(** C9.  On a well-formed catalog, [set_text] with [overwrite=False] on a
    (domain, label, language) triple that already has an entry raises
    nothing and returns the catalog unchanged, store included: the entry
    keeps its text, and calling it again changes nothing either. *)
Theorem set_text_keep_existing (cat : LanguageCatalog) (label lang text : string)
    (domain : option string) (old : string) :
  catalog_wf cat ->
  entry cat (_normalize_domain (Some (py_or domain (_context_domain cat))))
        label (PyStr.upper lang) = Some old ->
  set_text cat label lang (JString text) false domain = Ok cat /\
  result_bind (set_text cat label lang (JString text) false domain)
    (fun cat' => set_text cat' label lang (JString text) false domain) = Ok cat.
Proof.
  intros [Hinv Hkeys] Hentry.
  assert (set_text cat label lang (JString text) false domain = Ok cat) as Hset.
  { apply entry_lookup in Hentry as (labels & langs & Hd & Hl & Hc).
    destruct (Hinv _ _ Hd) as [_ Hlabels].
    pose proof (Hlabels _ _ Hl _ _ Hc) as Hok.
    destruct (Hkeys _ _ Hd _ _ Hl) as [Hlabel Hcodes].
    pose proof (Hcodes _ _ Hc) as Hcode.
    assert (PyStr.nonempty lang = true) as Hlang.
    { rewrite <- upper_nonempty. by apply nonempty_true. }
    unfold set_text. apply nonempty_true in Hlabel as ->. simpl.
    assert (_normalize_lang cat lang = Ok (PyStr.upper lang)) as ->.
    { unfold _normalize_lang. rewrite Hlang. simpl. destruct Hok as [_ Hal].
      destruct (_allowed cat); [|done]. by rewrite decide_True. }
    simpl. rewrite Hd. simpl. rewrite Hl. simpl. rewrite Hc.
    rewrite bool_decide_true by eauto.
    rewrite (insert_id labels) by done. rewrite insert_id by done.
    by rewrite with_data_id. }
  by rewrite Hset.
Qed.


(** C5, the code at the failing input.  The sample catalog already holds
    [DATA_NOT_FOUND] at [GLOBAL] in [EN].  Loading, with [overwrite=False],
    a file whose only entry is that triple leaves the store as it was, so
    nothing was inserted or updated, yet each of the three loaders returns
    1: [count] is incremented after every [set_text] call, skipped or not. *)
Theorem loaders_count_skipped_entries :
  entry Sample.catalog "GLOBAL" "DATA_NOT_FOUND" "EN" = Some "No data found." /\
  add_file Sample.fs "legacy.json" false Sample.catalog = (Sample.catalog, Ok 1) /\
  load_domains_from_file
    (fun _ => Parsed (JObject [("GLOBAL", Sample.legacy)])) "domains.json" false Sample.catalog
    = (Sample.catalog, Ok 1) /\
  load_language_only_from_file Sample.fs "en" "english.json" false None Sample.catalog
    = (Sample.catalog, Ok 1).
Proof. split; [by vm_compute|]. split; [|split]; by vm_compute. Qed.

(** ** The service *)

(** C10.  When the load of the source file raises, [init_language] raises
    the same exception and leaves the module-level reference as it was: a
    catalog installed by an earlier call is still what [get_language]
    returns, unchanged.  When the load returns, the new catalog (with the
    context set, if one was given) replaces the reference. *)
Theorem init_language_atomic (fs : filesystem) (messages_path default_lang : string)
    (allowed_langs : option (list string)) (overwrite : bool) (context : option string)
    (domain_aware : bool) (_lang_catalog : service) :
  let loaded :=
    if domain_aware
    then load_domains_from_file fs messages_path overwrite (new_catalog default_lang allowed_langs)
    else load_from_file fs messages_path overwrite (new_catalog default_lang allowed_langs) in
  let after := init_language fs messages_path default_lang allowed_langs overwrite context
                             domain_aware _lang_catalog in
  (forall e, loaded.2 = Raise e ->
     after = (_lang_catalog, Raise e) /\
     get_language after.1 = get_language _lang_catalog /\
     forall old, _lang_catalog = Some old -> get_language after.1 = Ok old) /\
  (forall n, loaded.2 = Ok n ->
     after.2 = Ok tt /\
     get_language after.1 =
       Ok (match context with Some _ => set_context loaded.1 context | None => loaded.1 end)).
Proof.
  intros loaded after. unfold after, init_language. fold loaded.
  destruct loaded as [cat [n|e]]; simpl; split.
  - intros e [=].
  - intros n' _. by destruct context.
  - intros e' [= <-]. split; [done|]. split; [done|]. by intros old ->.
  - intros n [=].
Qed.

(** [_load_json] is the first thing either loader does: a missing or
    malformed file makes it raise. *)
Lemma init_language_atomic_witness :
  let st := Some Sample.catalog in
  (load_from_file Sample.fs "nowhere.json" true (new_catalog "DE" None)).2
    = Raise (FileNotFoundError "nowhere.json") /\
  init_language Sample.fs "nowhere.json" "DE" None true (Some "GLOBAL.CSV") false st
    = (st, Raise (FileNotFoundError "nowhere.json")) /\
  get_language
    (init_language Sample.fs "nowhere.json" "DE" None true (Some "GLOBAL.CSV") false st).1
    = Ok Sample.catalog.
Proof.
  intros st. split; [reflexivity|].
  destruct (init_language_atomic Sample.fs "nowhere.json" "DE" None true (Some "GLOBAL.CSV")
              false st) as [Hfail _].
  destruct (Hfail (FileNotFoundError "nowhere.json") eq_refl) as (Hst & _ & Hold).
  split; [exact Hst|]. exact (Hold Sample.catalog eq_refl).
Defined.

Lemma sample_catalog_wf : catalog_wf Sample.catalog.
Proof.
  destruct (load_domains_from_file_keeps (new_catalog "EN" (Some ["de"; "en"]))
              Sample.fs "messages.json" true _ (evolves_refl _)) as (_ & _ & _ & Hi & Hk).
  split; [apply Hi|apply Hk]; apply new_catalog_wf.
Defined.

Lemma store_invariant_preserved_witness :
  catalog_invariant Sample.catalog /\
  catalog_invariant (load_from_file Sample.fs "legacy.json" true Sample.catalog).1 /\
  catalog_invariant
    (load_language_only_from_file Sample.fs "de" "english.json" true (Some " GLOBAL.CSV ")
       Sample.catalog).1.
Proof.
  pose proof (proj1 sample_catalog_wf) as Hinv.
  destruct (store_invariant_preserved Sample.catalog Hinv) as (_ & Hlegacy & _ & Hsingle & _).
  split; [exact Hinv|]. split.
  - exact (proj1 (Hlegacy Sample.fs "legacy.json" true)).
  - exact (proj1 (Hsingle Sample.fs "de" "english.json" true (Some " GLOBAL.CSV "))).
Defined.

Lemma set_text_keep_existing_witness :
  catalog_wf Sample.catalog /\
  entry Sample.catalog "GLOBAL" "DATA_NOT_FOUND" "EN" = Some "No data found." /\
  set_text Sample.catalog "DATA_NOT_FOUND" "en" (JString "Nothing here.") false (Some " GLOBAL ")
    = Ok Sample.catalog.
Proof.
  split; [exact sample_catalog_wf|]. split; [reflexivity|].
  exact (proj1 (set_text_keep_existing Sample.catalog "DATA_NOT_FOUND" "en" "Nothing here."
                  (Some " GLOBAL ") "No data found." sample_catalog_wf eq_refl)).
Defined.

(** ** Resolution *)

Lemma first_text_None texts codes :
  first_text texts codes = None <-> forall c, c ∈ codes -> texts c = None.
Proof.
  induction codes as [|c rest IH]; simpl.
  - split; [|done]. intros _ c Hc. by apply elem_of_nil in Hc.
  - destruct (texts c) as [t|] eqn:Hc.
    + split; [done|]. intros H. specialize (H c). rewrite Hc in H.
      apply H. by left.
    + rewrite IH. split.
      * intros H c' [->|Hin]%elem_of_cons; auto.
      * intros H c' Hin. apply H. by right.
Qed.

Lemma fallback_code_ok cat fallback_lang fc :
  fallback_code_of cat fallback_lang = Ok fc ->
  truthy fc = match fc with Some _ => true | None => false end.
Proof.
  unfold fallback_code_of. destruct (truthy fallback_lang); [|by intros [= <-]].
  destruct (_normalize_lang cat _) as [code|] eqn:Hcode; simpl; [|done].
  intros [= <-]. apply normalize_lang_ok in Hcode as (_ & _ & Hne & _).
  simpl. by apply nonempty_true.
Qed.

(** The three tiers, with their [tried] set, pick the first present
    language of [tried_langs]. *)
Lemma try_tiers_first_text langs primary_lang fallback_code default_lang :
  truthy fallback_code = match fallback_code with Some _ => true | None => false end ->
  try_tiers langs primary_lang fallback_code default_lang =
  first_text (fun c => langs !! c) (tried_langs primary_lang fallback_code default_lang).
Proof.
  intros Hfc. unfold try_tiers, tried_langs. simpl.
  destruct (langs !! primary_lang) as [t|] eqn:Hp; [done|].
  rewrite Hfc. destruct fallback_code as [fc|]; simpl.
  - destruct (langs !! fc) as [t|] eqn:Hf; [done|].
    destruct (decide (default_lang ∉ ({[primary_lang]} ∪ {[fc]} : gset string)))
      as [_|Hin]; [by destruct (langs !! default_lang)|].
    apply dec_stable in Hin.
    assert (langs !! default_lang = None) as ->; [|done].
    apply elem_of_union in Hin as [->%elem_of_singleton| ->%elem_of_singleton]; done.
  - destruct (decide (default_lang ∉ ({[primary_lang]} : gset string)))
      as [_|Hin]; [by destruct (langs !! default_lang)|].
    apply dec_stable in Hin. apply elem_of_singleton in Hin as ->. by rewrite Hp.
Qed.

Lemma bucket_of_entry cat d label :
  match bucket_of (_data cat) d label with
  | Some langs => forall c, entry cat d label c = langs !! c
  | None => forall c, entry cat d label c = None
  end.
Proof.
  unfold bucket_of, entry.
  destruct (_data cat !! d) as [labels|]; simpl; [|done].
  destruct (decide (labels = ∅)) as [->|_]; [by intros c; rewrite lookup_empty|].
  destruct (labels !! label) as [langs|]; simpl; [|done].
  destruct (decide (langs = ∅)) as [->|_]; [by intros c; rewrite lookup_empty|done].
Qed.

Section Loop.
Context (cat : LanguageCatalog) (label primary_lang : string)
        (fallback_code : option string).
Hypothesis fallback_ok :
  truthy fallback_code = match fallback_code with Some _ => true | None => false end.

Let codes := tried_langs primary_lang fallback_code (_default_lang cat).
Let loop := get_text_loop (_data cat) label primary_lang fallback_code (_default_lang cat).

(** One iteration of the loop body. *)
Lemma loop_cons d rest :
  loop (d :: rest) =
  match first_text (entry cat d label) codes with
  | Some text => Some text
  | None => loop rest
  end.
Proof.
  unfold loop. cbn [get_text_loop]. pose proof (bucket_of_entry cat d label) as Hb.
  destruct (bucket_of (_data cat) d label) as [langs|].
  - rewrite try_tiers_first_text by done. fold codes.
    assert (first_text (entry cat d label) codes =
            first_text (fun c => langs !! c) codes) as ->; [|done].
    clear -Hb. induction codes as [|c l IH]; simpl; [done|]. by rewrite Hb, IH.
  - assert (first_text (entry cat d label) codes = None) as ->; [|done].
    apply first_text_None. auto.
Qed.

Lemma loop_found pre d post text :
  (forall d' c, d' ∈ pre -> c ∈ codes -> entry cat d' label c = None) ->
  first_text (entry cat d label) codes = Some text ->
  loop (pre ++ d :: post) = Some text.
Proof.
  intros Hpre Hd. induction pre as [|d' pre IH].
  - simpl app. by rewrite loop_cons, Hd.
  - change ((d' :: pre) ++ d :: post)%list with (d' :: (pre ++ d :: post))%list.
    rewrite loop_cons.
    assert (first_text (entry cat d' label) codes = None) as ->.
    { apply first_text_None. intros c Hc. apply Hpre; [by left|done]. }
    apply IH. intros d'' c Hd'' Hc. apply Hpre; [by right|done].
Qed.

Lemma loop_none chain :
  loop chain = None <->
  forall d c, d ∈ chain -> c ∈ codes -> entry cat d label c = None.
Proof.
  induction chain as [|d rest IH].
  - split; [|done]. intros _ d c Hd. by apply elem_of_nil in Hd.
  - rewrite loop_cons.
    destruct (first_text (entry cat d label) codes) as [t|] eqn:Hd.
    + split; [done|]. intros H.
      assert (first_text (entry cat d label) codes = None) as Hn; [|congruence].
      apply first_text_None. intros c Hc. apply H; [by left|done].
    + rewrite IH. split.
      * intros H d' c [->|Hin]%elem_of_cons Hc; [|by apply H].
        by apply (proj1 (first_text_None _ _) Hd).
      * intros H d' c Hin Hc. apply H; [by right|done].
Qed.

Lemma loop_some chain text :
  loop chain = Some text ->
  exists pre d post,
    chain = (pre ++ d :: post)%list /\
    (forall d' c, d' ∈ pre -> c ∈ codes -> entry cat d' label c = None) /\
    first_text (entry cat d label) codes = Some text.
Proof.
  induction chain as [|d rest IH]; [done|].
  rewrite loop_cons.
  destruct (first_text (entry cat d label) codes) as [t|] eqn:Hd.
  - intros [= ->]. exists [], d, rest. split; [done|]. split; [|done].
    intros d' c Hd'. by apply elem_of_nil in Hd'.
  - intros (pre & d0 & post & -> & Hpre & Hd0)%IH.
    exists (d :: pre), d0, post. split; [done|]. split; [|done].
    intros d' c [->|Hin]%elem_of_cons Hc; [|by apply Hpre].
    by apply (proj1 (first_text_None _ _) Hd).
Qed.
End Loop.

Lemma get_text_nonempty cat label lang fallback_lang default domain primary_lang fallback_code :
  label <> EmptyString ->
  primary_lang_of cat lang = Ok primary_lang ->
  fallback_code_of cat fallback_lang = Ok fallback_code ->
  get_text cat label lang fallback_lang default domain =
  let chain := _domain_chain (_normalize_domain (Some (py_or domain (_context_domain cat)))) in
  match get_text_loop (_data cat) label primary_lang fallback_code (_default_lang cat) chain with
  | Some text => Ok text
  | None => default_or_not_found default label chain
  end.
Proof.
  intros Hl%nonempty_true Hp Hf. unfold get_text. rewrite Hl, Hp, Hf. done.
Qed.

(** C1 (as amended).  With a non-empty label and language arguments that
    pass validation, [get_text] returns the text of the most specific
    domain of the chain that holds the label in one of the tried languages
    (primary language, explicit fallback, catalog default), and inside that
    domain the text of the first of these languages that is present; every
    text it finds in the store is found that way.  With a label stored only
    at [GLOBAL] in [EN] and at [GLOBAL.DATABASE.ORACLE] in [DE], resolving in
    the Oracle domain with [lang=DE] gives the Oracle text, and with
    [lang=EN] the [GLOBAL] text unless the catalog default language is
    [DE], in which case the Oracle domain answers with its [DE] text. *)
Theorem get_text_resolution_order :
  (forall cat label lang fallback_lang default domain primary_lang fallback_code,
     label <> EmptyString ->
     primary_lang_of cat lang = Ok primary_lang ->
     fallback_code_of cat fallback_lang = Ok fallback_code ->
     let chain := _domain_chain (_normalize_domain (Some (py_or domain (_context_domain cat)))) in
     let codes := tried_langs primary_lang fallback_code (_default_lang cat) in
     (forall pre d post text,
        chain = (pre ++ d :: post)%list ->
        (forall d' c, d' ∈ pre -> c ∈ codes -> entry cat d' label c = None) ->
        first_text (entry cat d label) codes = Some text ->
        get_text cat label lang fallback_lang default domain = Ok text) /\
     (forall text,
        get_text cat label lang fallback_lang None domain = Ok text ->
        exists pre d post,
          chain = (pre ++ d :: post)%list /\
          (forall d' c, d' ∈ pre -> c ∈ codes -> entry cat d' label c = None) /\
          first_text (entry cat d label) codes = Some text)) /\
  (forall cat label t_en t_de,
     label <> EmptyString ->
     primary_lang_of cat (Some "DE") = Ok "DE" ->
     primary_lang_of cat (Some "EN") = Ok "EN" ->
     (forall d c, entry cat d label c = scenario_entry t_en t_de d c) ->
     get_text cat label (Some "DE") None None (Some "GLOBAL.DATABASE.ORACLE") = Ok t_de /\
     get_text cat label (Some "EN") None None (Some "GLOBAL.DATABASE.ORACLE") =
       Ok (if decide (_default_lang cat = "DE") then t_de else t_en)).
Proof.
  split.
  - intros cat label lang fallback_lang default domain primary_lang fallback_code
      Hlabel Hp Hf chain codes.
    pose proof (fallback_code_ok _ _ _ Hf) as Hok. split.
    + intros pre d post text Hchain Hpre Hd.
      rewrite (get_text_nonempty _ _ _ _ _ _ _ _ Hlabel Hp Hf). simpl. fold chain.
      rewrite Hchain. by rewrite (loop_found cat label primary_lang fallback_code Hok pre d post text).
    + intros text. rewrite (get_text_nonempty _ _ _ _ _ _ _ _ Hlabel Hp Hf). simpl.
      fold chain.
      destruct (get_text_loop _ _ _ _ _ chain) as [t|] eqn:Hloop; [|done].
      intros [= ->]. by apply (loop_some cat label primary_lang fallback_code Hok).
  - intros cat label t_en t_de Hlabel Hde Hen Hstore.
    assert (forall lang code, primary_lang_of cat (Some lang) = Ok code ->
              get_text cat label (Some lang) None None (Some "GLOBAL.DATABASE.ORACLE") =
              match first_text (entry cat "GLOBAL.DATABASE.ORACLE" label)
                      [code; _default_lang cat] with
              | Some t => Ok t
              | None =>
                  match first_text (entry cat "GLOBAL.DATABASE" label)
                          [code; _default_lang cat] with
                  | Some t => Ok t
                  | None =>
                      match first_text (entry cat "GLOBAL" label) [code; _default_lang cat] with
                      | Some t => Ok t
                      | None => Raise (KeyError_TextNotFound label
                                  ["GLOBAL.DATABASE.ORACLE"; "GLOBAL.DATABASE"; "GLOBAL"])
                      end
                  end
              end) as Hget.
    { intros lang code Hp.
      rewrite (get_text_nonempty cat label (Some lang) None None
                 (Some "GLOBAL.DATABASE.ORACLE") code None Hlabel Hp eq_refl).
      change (_domain_chain _) with ["GLOBAL.DATABASE.ORACLE"; "GLOBAL.DATABASE"; "GLOBAL"].
      cbv zeta. rewrite !(loop_cons cat label code None eq_refl).
      by repeat destruct (first_text _ _). }
    rewrite (Hget _ _ Hde), (Hget _ _ Hen). simpl. rewrite !Hstore.
    unfold scenario_entry. split; [done|].
    simpl. destruct (decide (_default_lang cat = "DE")) as [->|Hne]; [done|].
    by destruct (decide _) as [[_ Heq]|_].
Qed.

Lemma entry_outside_dom cat d label c :
  d ∉ dom (_data cat) -> entry cat d label c = None.
Proof. intros Hd%not_elem_of_dom. unfold entry. by rewrite Hd. Qed.

Lemma stored_only_entries cat label t_en t_de :
  stored_only cat label t_en t_de ->
  forall d c, entry cat d label c = scenario_entry t_en t_de d c.
Proof.
  intros (Hen & Hde & Honly) d c. unfold scenario_entry.
  destruct (decide (d = "GLOBAL" /\ c = "EN")) as [[-> ->]|Hn1]; [done|].
  destruct (decide (d = "GLOBAL.DATABASE.ORACLE" /\ c = "DE")) as [[-> ->]|Hn2]; [done|].
  destruct (entry cat d label c) as [t|] eqn:He; [|done].
  apply entry_lookup in He as (labels & langs & Hd & Hl & Hc).
  specialize (Honly d labels Hd). simpl in Honly. rewrite Hl in Honly.
  destruct (Honly c t Hc); tauto.
Qed.

Lemma sample_stored_only :
  stored_only Sample.catalog "DATA_NOT_FOUND" "No data found." "ORA: keine Daten gefunden.".
Proof. apply (@bool_decide_unpack _ (stored_only_dec _ _ _ _)). by vm_compute. Qed.

Lemma sample_de_stored_only :
  stored_only sample_catalog_de "DATA_NOT_FOUND" "No data found." "ORA: keine Daten gefunden.".
Proof. apply (@bool_decide_unpack _ (stored_only_dec _ _ _ _)). by vm_compute. Qed.

(** C1, counterexample.  The sample store holds [DATA_NOT_FOUND] only at
    [GLOBAL] in [EN] and at [GLOBAL.DATABASE.ORACLE] in [DE]; in a catalog
    whose default language is [DE], resolving it in the Oracle domain with
    [lang=EN] returns the Oracle [DE] text, not the [GLOBAL] [EN] text. *)
Lemma get_text_scenario_counterexample :
  (forall d c, entry sample_catalog_de d "DATA_NOT_FOUND" c =
               scenario_entry "No data found." "ORA: keine Daten gefunden." d c) /\
  _default_lang sample_catalog_de = "DE" /\
  get_text sample_catalog_de "DATA_NOT_FOUND" (Some "EN") None None
    (Some "GLOBAL.DATABASE.ORACLE") = Ok "ORA: keine Daten gefunden." /\
  get_text sample_catalog_de "DATA_NOT_FOUND" (Some "EN") None None
    (Some "GLOBAL.DATABASE.ORACLE") <> Ok "No data found.".
Proof.
  split; [apply stored_only_entries, sample_de_stored_only|].
  split; [reflexivity|]. split; [by vm_compute|]. by vm_compute.
Qed.

Lemma get_text_resolution_order_witness :
  (forall d c, entry Sample.catalog d "DATA_NOT_FOUND" c =
               scenario_entry "No data found." "ORA: keine Daten gefunden." d c) /\
  get_text Sample.catalog "DATA_NOT_FOUND" (Some "DE") None None
    (Some "GLOBAL.DATABASE.ORACLE") = Ok "ORA: keine Daten gefunden." /\
  get_text Sample.catalog "DATA_NOT_FOUND" (Some "EN") None None
    (Some "GLOBAL.DATABASE.ORACLE") = Ok "No data found." /\
  get_text Sample.catalog "DATA_NOT_FOUND" (Some "de") (Some "en") (Some "n/a")
    (Some "GLOBAL.DATABASE") = Ok "No data found.".
Proof.
  destruct get_text_resolution_order as [Hgeneral Hscenario].
  pose proof (stored_only_entries _ _ _ _ sample_stored_only) as Hstore.
  split; [exact Hstore|].
  destruct (Hscenario Sample.catalog "DATA_NOT_FOUND" "No data found."
              "ORA: keine Daten gefunden." ltac:(discriminate) eq_refl eq_refl Hstore)
    as [Hde Hen].
  split; [exact Hde|]. split; [exact Hen|].
  destruct (Hgeneral Sample.catalog "DATA_NOT_FOUND" (Some "de") (Some "en") (Some "n/a")
              (Some "GLOBAL.DATABASE") "DE" (Some "EN") ltac:(discriminate) eq_refl eq_refl)
    as [Hfound _].
  apply (Hfound ["GLOBAL.DATABASE"] "GLOBAL" [] "No data found." eq_refl); [|reflexivity].
  intros d' c Hd' _. apply list_elem_of_singleton in Hd' as ->.
  by rewrite Hstore.
Defined.

Lemma entry_absent cat label :
  map_Forall (fun _ labels => labels !! label = None) (_data cat) ->
  forall d c, entry cat d label c = None.
Proof.
  intros Habs d c. unfold entry.
  destruct (_data cat !! d) as [labels|] eqn:Hd; simpl; [|done].
  by rewrite (Habs d labels Hd).
Qed.

(** When [lang] or [fallback_lang] is given, the only way its validation
    fails is the allow-list check. *)
Lemma primary_lang_of_raise cat lang e :
  primary_lang_of cat lang = Raise e ->
  exists l allowed, lang = Some l /\ _allowed cat = Some allowed /\
    (PyStr.upper l ∉ allowed) /\
    e = ValueError_LangNotAllowed (PyStr.upper l) (py_sorted (elements allowed)).
Proof.
  unfold primary_lang_of. destruct lang as [l|]; simpl; [|done].
  destruct (PyStr.nonempty l) eqn:Hl; [|done].
  unfold _normalize_lang. rewrite Hl. simpl.
  destruct (_allowed cat) as [allowed|]; [|done].
  destruct (decide (PyStr.upper l ∈ allowed)); [done|].
  intros [= <-]. by exists l, allowed.
Qed.

Lemma fallback_code_of_raise cat fallback_lang e :
  fallback_code_of cat fallback_lang = Raise e ->
  exists l allowed, fallback_lang = Some l /\ _allowed cat = Some allowed /\
    (PyStr.upper l ∉ allowed) /\
    e = ValueError_LangNotAllowed (PyStr.upper l) (py_sorted (elements allowed)).
Proof.
  unfold fallback_code_of. destruct fallback_lang as [l|]; simpl; [|done].
  destruct (PyStr.nonempty l) eqn:Hl; [|done].
  unfold _normalize_lang. rewrite Hl. simpl.
  destruct (_allowed cat) as [allowed|]; [|done].
  destruct (decide (PyStr.upper l ∈ allowed)); [done|].
  intros [= <-]. by exists l, allowed.
Qed.

(** C3 (as amended).  With an empty label [get_text] returns the default
    at once, and raises [KeyError("Missing label")] when there is none.
    With a non-empty label and language arguments that pass validation, a
    chain exhausted without match gives the default, and without default a
    [KeyError] that carries the label and the whole chain searched; with a
    default it then never raises.  The one way it raises although a default
    is supplied is a [lang] or [fallback_lang] that the allow-list rejects:
    the [ValueError] of [_normalize_lang]. *)
Theorem get_text_default_and_errors (cat : LanguageCatalog) (label : string)
    (lang fallback_lang default domain : option string) :
  let chain := _domain_chain (_normalize_domain (Some (py_or domain (_context_domain cat)))) in
  (label = EmptyString ->
     get_text cat label lang fallback_lang default domain =
     match default with Some d => Ok d | None => Raise KeyError_MissingLabel end) /\
  (label <> EmptyString ->
   forall primary_lang fallback_code,
     primary_lang_of cat lang = Ok primary_lang ->
     fallback_code_of cat fallback_lang = Ok fallback_code ->
     ((forall d c, d ∈ chain ->
                   c ∈ tried_langs primary_lang fallback_code (_default_lang cat) ->
                   entry cat d label c = None) ->
      get_text cat label lang fallback_lang default domain =
      match default with
      | Some d => Ok d
      | None => Raise (KeyError_TextNotFound label chain)
      end) /\
     (forall d, default = Some d ->
        raises (get_text cat label lang fallback_lang default domain) = false)) /\
  (forall d e,
     get_text cat label lang fallback_lang (Some d) domain = Raise e ->
     label <> EmptyString /\
     exists l allowed,
       (lang = Some l \/ fallback_lang = Some l) /\ _allowed cat = Some allowed /\
       (PyStr.upper l ∉ allowed) /\
       e = ValueError_LangNotAllowed (PyStr.upper l) (py_sorted (elements allowed))).
Proof.
  intros chain. repeat apply conj.
  - intros ->. done.
  - intros Hlabel primary_lang fallback_code Hp Hf.
    rewrite (get_text_nonempty _ _ _ _ _ _ _ _ Hlabel Hp Hf). simpl. fold chain.
    pose proof (fallback_code_ok _ _ _ Hf) as Hok. split.
    + intros Hnone.
      by rewrite (proj2 (loop_none cat label primary_lang fallback_code Hok chain) Hnone).
    + intros d ->. by destruct (get_text_loop _ _ _ _ _ chain).
  - intros d e. unfold get_text.
    destruct (PyStr.nonempty label) eqn:Hlabel; simpl; [|done].
    apply nonempty_true in Hlabel. intros Hraise. split; [done|].
    destruct (primary_lang_of cat lang) as [p|e'] eqn:Hp; simpl in Hraise.
    + destruct (fallback_code_of cat fallback_lang) as [fc|e''] eqn:Hf; simpl in Hraise.
      * by destruct (get_text_loop _ _ _ _ _ _).
      * injection Hraise as <-.
        apply fallback_code_of_raise in Hf as (l & allowed & -> & Ha & Hn & ->).
        exists l, allowed. auto.
    + injection Hraise as <-.
      apply primary_lang_of_raise in Hp as (l & allowed & -> & Ha & Hn & ->).
      exists l, allowed. auto.
Qed.

(** C3, counterexample.  The sample catalog allows [DE] and [EN] only:
    asking for [FR] raises although a default is supplied, for a label the
    store holds and for one it does not. *)
Lemma get_text_default_counterexample :
  get_text Sample.catalog "DATA_NOT_FOUND" (Some "fr") None (Some "n/a") None =
    Raise (ValueError_LangNotAllowed "FR" ["DE"; "EN"]) /\
  get_text Sample.catalog "NO_SUCH_LABEL" None (Some "FR") (Some "x") None =
    Raise (ValueError_LangNotAllowed "FR" ["DE"; "EN"]).
Proof. split; by vm_compute. Qed.

Lemma get_text_default_and_errors_witness :
  get_text Sample.catalog "" (Some "FR") None (Some "x") None = Ok "x" /\
  get_text Sample.catalog "" None None None None = Raise KeyError_MissingLabel /\
  get_text Sample.catalog "NO_SUCH_LABEL" None None (Some "x") None = Ok "x" /\
  get_text Sample.catalog "NO_SUCH_LABEL" None None None (Some "GLOBAL.DATABASE.ORACLE") =
    Raise (KeyError_TextNotFound "NO_SUCH_LABEL"
             ["GLOBAL.DATABASE.ORACLE"; "GLOBAL.DATABASE"; "GLOBAL"]).
Proof.
  split; [|split; [|split]].
  - exact (proj1 (get_text_default_and_errors Sample.catalog "" (Some "FR") None (Some "x") None)
             eq_refl).
  - exact (proj1 (get_text_default_and_errors Sample.catalog "" None None None None) eq_refl).
  - destruct (get_text_default_and_errors Sample.catalog "NO_SUCH_LABEL" None None (Some "x")
                None) as (_ & Hnone & _).
    destruct (Hnone ltac:(discriminate) "EN" None eq_refl eq_refl) as [H _].
    apply H. intros d c _ _. apply entry_absent.
    refine (bool_decide_unpack _ _). by vm_compute.
  - destruct (get_text_default_and_errors Sample.catalog "NO_SUCH_LABEL" None None None
                (Some "GLOBAL.DATABASE.ORACLE")) as (_ & Hnone & _).
    destruct (Hnone ltac:(discriminate) "EN" None eq_refl eq_refl) as [H _].
    apply H. intros d c _ _. apply entry_absent.
    refine (bool_decide_unpack _ _). by vm_compute.
Defined.

(** ** Listing *)

Lemma startswith_spec prefix s :
  PyStr.startswith prefix s = true <-> exists rest, s = prefix +:+ rest.
Proof.
  revert s. induction prefix as [|a p IH]; intros s; simpl.
  - split; [|done]. intros _. by exists s.
  - destruct s as [|b r].
    + split; [done|]. by intros [rest Hrest].
    + rewrite andb_true_iff, bool_decide_eq_true, IH. split.
      * intros [-> [rest ->]]. by exists rest.
      * intros [rest Hrest].
        change (String a p +:+ rest) with (String a (p +:+ rest)) in Hrest.
        injection Hrest as -> ->. split; [done|]. by exists rest.
Qed.

Lemma string_length_app s1 s2 :
  String.length (s1 +:+ s2) = String.length s1 + String.length s2.
Proof.
  induction s1 as [|a s1 IH]; [done|].
  change (String a s1 +:+ s2) with (String a (s1 +:+ s2)). simpl. by rewrite IH.
Qed.

(** A domain below [d] is a different domain: the match on ["d."] is a
    match on a strictly longer string. *)
Lemma startswith_dot_strict d d' :
  PyStr.startswith (d +:+ ".") d' = true -> d' <> d.
Proof.
  intros [rest ->]%startswith_spec Heq.
  apply (f_equal String.length) in Heq.
  rewrite !string_length_app in Heq. simpl in Heq. lia.
Qed.

Lemma py_sorted_spec (s : gset string) :
  Sorted String.le (py_sorted (elements s)) /\
  NoDup (py_sorted (elements s)) /\
  forall l, l ∈ py_sorted (elements s) <-> l ∈ s.
Proof.
  unfold py_sorted. split; [apply Sorted_merge_sort, _|]. split.
  - rewrite merge_sort_Permutation. apply NoDup_elements.
  - intros l. rewrite merge_sort_Permutation. apply elem_of_elements.
Qed.

(** The set built by the loop of the recursive listing. *)
Lemma fold_labels_elem prefix (init : gset string)
    (data : gmap string (gmap string (gmap string string))) l :
  l ∈ map_fold (fun d labels_map (labels : gset string) =>
                  if PyStr.startswith prefix d then labels ∪ keys_of labels_map else labels)
               init data <->
  l ∈ init \/
  exists d labels_map,
    data !! d = Some labels_map /\ PyStr.startswith prefix d = true /\ l ∈ dom labels_map.
Proof.
  revert l. apply (map_fold_weak_ind (fun (r : gset string) m =>
    forall l, l ∈ r <-> l ∈ init \/
      exists d labels_map,
        m !! d = Some labels_map /\ PyStr.startswith prefix d = true /\ l ∈ dom labels_map)).
  - intros l. split; [by left|]. intros [?|(d & lm & Hd & _)]; [done|].
    by rewrite lookup_empty in Hd.
  - intros i x m r Hi IH l.
    assert (l ∈ (if PyStr.startswith prefix i then r ∪ keys_of x else r) <->
            l ∈ r \/ (PyStr.startswith prefix i = true /\ l ∈ dom x)) as ->.
    { unfold keys_of. destruct (PyStr.startswith prefix i).
      - rewrite elem_of_union. split; [intros [?|?]; auto|intros [?|[_ ?]]; auto].
      - split; [by left|]. by intros [?|[? _]]. }
    rewrite IH. split.
    + intros [[?|(d & lm & Hd & Hs & Hl)]|[Hs Hl]]; [by left|right..].
      * exists d, lm. rewrite lookup_insert_ne by congruence. done.
      * exists i, x. by rewrite lookup_insert_eq.
    + intros [?|(d & lm & Hd & Hs & Hl)]; [by left; left|].
      destruct (decide (i = d)) as [->|Hne].
      * rewrite lookup_insert_eq in Hd. injection Hd as ->. by right.
      * rewrite lookup_insert_ne in Hd by done. left. right. by exists d, lm.
Qed.

(** C7 (as amended).  For a given domain [d], normalized to [dn], the recursive
    listing is the sorted, duplicate-free list of the labels stored under [dn] or
    under a domain that starts with ["dn."], which is never [dn] itself and
    which [GLOBALIZATION] is not for [GLOBAL]; the non-recursive listing is
    the sorted, duplicate-free list of the labels stored under [dn].  So a
    label stored under [GLOBAL.DATABASE.ORACLE] is in the recursive listing
    of [GLOBAL.DATABASE], and in its non-recursive listing only if it is
    stored under [GLOBAL.DATABASE] too. *)
Theorem list_labels_spec :
  (forall (cat : LanguageCatalog) (d : string),
     let dn := _normalize_domain (Some d) in
     let recursive := list_labels cat (Some d) true in
     let direct := list_labels cat (Some d) false in
     Sorted String.le recursive /\ NoDup recursive /\
     (forall l, l ∈ recursive <->
        exists d' labels_map,
          (d' = dn \/ PyStr.startswith (dn +:+ ".") d' = true) /\
          _data cat !! d' = Some labels_map /\ l ∈ dom labels_map) /\
     Sorted String.le direct /\ NoDup direct /\
     (forall l, l ∈ direct <->
        exists labels_map, _data cat !! dn = Some labels_map /\ l ∈ dom labels_map)) /\
  (forall d d', PyStr.startswith (d +:+ ".") d' = true ->
                d' <> d /\ exists rest, d' = d +:+ "." +:+ rest) /\
  PyStr.startswith ("GLOBAL" +:+ ".") "GLOBALIZATION" = false /\
  (forall (cat : LanguageCatalog) l labels_map,
     _data cat !! "GLOBAL.DATABASE.ORACLE" = Some labels_map -> l ∈ dom labels_map ->
     l ∈ list_labels cat (Some "GLOBAL.DATABASE") true /\
     (l ∈ list_labels cat (Some "GLOBAL.DATABASE") false <->
      exists direct_map,
        _data cat !! "GLOBAL.DATABASE" = Some direct_map /\ l ∈ dom direct_map)).
Proof.
  assert (forall (cat : LanguageCatalog) (d : string),
     let dn := _normalize_domain (Some d) in
     let recursive := list_labels cat (Some d) true in
     let direct := list_labels cat (Some d) false in
     Sorted String.le recursive /\ NoDup recursive /\
     (forall l, l ∈ recursive <->
        exists d' labels_map,
          (d' = dn \/ PyStr.startswith (dn +:+ ".") d' = true) /\
          _data cat !! d' = Some labels_map /\ l ∈ dom labels_map) /\
     Sorted String.le direct /\ NoDup direct /\
     (forall l, l ∈ direct <->
        exists labels_map, _data cat !! dn = Some labels_map /\ l ∈ dom labels_map))
    as Hgeneral.
  { intros cat d dn recursive direct.
    assert (forall l, l ∈ keys_of (default ∅ (_data cat !! dn)) <->
              exists labels_map, _data cat !! dn = Some labels_map /\ l ∈ dom labels_map)
      as Hdirect.
    { intros l. unfold keys_of. destruct (_data cat !! dn) as [lm|]; simpl.
      - split; [by exists lm|]. by intros (lm' & [= <-] & Hl).
      - rewrite dom_empty_L. split; [set_solver|]. by intros (lm' & [=] & _). }
    unfold recursive, direct, list_labels. simpl negb. cbv iota. fold dn.
    destruct (py_sorted_spec (keys_of (default ∅ (_data cat !! dn)))) as (Hs & Hn & He).
    match goal with
    | |- Sorted _ (py_sorted (elements ?s)) /\ _ =>
        destruct (py_sorted_spec s) as (Hs' & Hn' & He')
    end.
    split; [done|]. split; [done|]. split; [|split; [done|]; split; [done|]].
    - intros l. rewrite He', fold_labels_elem, Hdirect. split.
      + intros [(lm & Hd & Hl)|(d' & lm & Hd & Hsw & Hl)].
        * exists dn, lm. auto.
        * exists d', lm. auto.
      + intros (d' & lm & [->|Hsw] & Hd & Hl).
        * left. by exists lm.
        * right. by exists d', lm.
    - intros l. by rewrite He, Hdirect. }
  split; [exact Hgeneral|]. split; [|split; [done|]].
  - intros d d' Hsw. split; [by apply startswith_dot_strict|].
    apply startswith_spec in Hsw as [rest ->]. exists rest.
    clear. induction d as [|a d IH]; [done|].
    change (String a d +:+ "." +:+ rest) with (String a (d +:+ "." +:+ rest)).
    change ((String a d +:+ ".") +:+ rest) with (String a ((d +:+ ".") +:+ rest)).
    by rewrite IH.
  - intros cat l labels_map Hora Hl.
    destruct (Hgeneral cat "GLOBAL.DATABASE") as (_ & _ & Hrec & _ & _ & Hdir).
    split; [|apply Hdir].
    apply Hrec. exists "GLOBAL.DATABASE.ORACLE", labels_map. split; [by right|done].
Qed.

Lemma list_labels_spec_witness :
  list_labels Sample.catalog (Some "GLOBAL.DATABASE") true = ["DATA_NOT_FOUND"; "ORA_LOCKED"] /\
  list_labels Sample.catalog (Some "GLOBAL.DATABASE") false = [] /\
  list_labels Sample.catalog (Some " GLOBAL ") true =
    ["DATA_NOT_FOUND"; "ORA_LOCKED"; "USAGE_MESSAGE"] /\
  "ORA_LOCKED" ∈ list_labels Sample.catalog (Some "GLOBAL.DATABASE") true /\
  PyStr.startswith "GLOBAL." "GLOBALIZATION" = false.
Proof.
  split; [by vm_compute|]. split; [by vm_compute|]. split; [by vm_compute|].
  destruct list_labels_spec as (_ & _ & Hboundary & Hora). split; [|exact Hboundary].
  set (labels_map := default ∅ (_data Sample.catalog !! "GLOBAL.DATABASE.ORACLE")).
  assert (_data Sample.catalog !! "GLOBAL.DATABASE.ORACLE" = Some labels_map) as Hl.
  { assert (is_Some (_data Sample.catalog !! "GLOBAL.DATABASE.ORACLE")) as [x Hx]
      by (refine (bool_decide_unpack _ _); by vm_compute).
    unfold labels_map. by rewrite Hx. }
  assert ("ORA_LOCKED" ∈ dom labels_map) as Hin
    by (refine (bool_decide_unpack _ _); by vm_compute).
  exact (proj1 (Hora Sample.catalog "ORA_LOCKED" labels_map Hl Hin)).
Defined.

(** C7, counterexample.  A label stored under [GLOBAL.DATABASE.ORACLE] is
    in the non-recursive listing of [GLOBAL.DATABASE] when that domain
    overrides it: the sample catalog holds [ORA_LOCKED] under the Oracle
    domain, and once a text for it is set under [GLOBAL.DATABASE] as well,
    the non-recursive listing of [GLOBAL.DATABASE] is that label. *)
Lemma list_labels_direct_counterexample :
  (exists labels_map,
     _data sample_with_override !! "GLOBAL.DATABASE.ORACLE" = Some labels_map /\
     "ORA_LOCKED" ∈ dom labels_map) /\
  list_labels sample_with_override (Some "GLOBAL.DATABASE") true
    = ["DATA_NOT_FOUND"; "ORA_LOCKED"] /\
  list_labels sample_with_override (Some "GLOBAL.DATABASE") false = ["ORA_LOCKED"] /\
  ~ (forall (cat : LanguageCatalog) (l : string) labels_map,
       _data cat !! "GLOBAL.DATABASE.ORACLE" = Some labels_map -> l ∈ dom labels_map ->
       l ∉ list_labels cat (Some "GLOBAL.DATABASE") false).
Proof.
  set (labels_map := default ∅ (_data sample_with_override !! "GLOBAL.DATABASE.ORACLE")).
  assert (_data sample_with_override !! "GLOBAL.DATABASE.ORACLE" = Some labels_map) as Hm.
  { assert (is_Some (_data sample_with_override !! "GLOBAL.DATABASE.ORACLE")) as [x Hx]
      by (refine (bool_decide_unpack _ _); by vm_compute).
    unfold labels_map. by rewrite Hx. }
  assert ("ORA_LOCKED" ∈ dom labels_map) as Hin
    by (refine (bool_decide_unpack _ _); by vm_compute).
  assert (list_labels sample_with_override (Some "GLOBAL.DATABASE") false = ["ORA_LOCKED"])
    as Hl by (by vm_compute).
  split; [exists labels_map; split; [exact Hm|exact Hin]|].
  split; [vm_compute; reflexivity|]. split; [exact Hl|].
  intros Hclaim. apply (Hclaim sample_with_override "ORA_LOCKED" labels_map Hm Hin).
  rewrite Hl. apply list_elem_of_singleton. reflexivity.
Qed.

(** ** Formatting *)

(** C6.  Whatever [str.format] does, [fmt] raises only what [get_text]
    raises: once the label resolves to a template, it returns the
    substituted text when the substitution succeeds and the template itself,
    unchanged, when the substitution raises.  In the scenario, after loading
    [{"GLOBAL": {"GREETING": {"EN": "Hello {name}"}}}], arguments with which
    [str.format] turns ["Hello {name}"] into ["Hello Ann"] give
    ["Hello Ann"], and arguments with which it raises (the empty map) give
    the literal ["Hello {name}"]. *)
Theorem fmt_lenient (kwargs_t : Type) (str_format : string -> kwargs_t -> option string) :
  (forall cat label lang fallback_lang default domain kwargs template,
     get_text cat label lang fallback_lang default domain = Ok template ->
     (str_format template kwargs = None ->
      fmt kwargs_t str_format cat label lang fallback_lang default domain kwargs = Ok template) /\
     (forall text, str_format template kwargs = Some text ->
      fmt kwargs_t str_format cat label lang fallback_lang default domain kwargs = Ok text) /\
     raises (fmt kwargs_t str_format cat label lang fallback_lang default domain kwargs)
       = false) /\
  (forall (fs : filesystem) path with_name without_name,
     fs path = Parsed Sample.greeting ->
     str_format "Hello {name}" with_name = Some "Hello Ann" ->
     str_format "Hello {name}" without_name = None ->
     let cat := (load_domains_from_file fs path true (new_catalog "EN" None)).1 in
     fmt kwargs_t str_format cat "GREETING" (Some "EN") None None None with_name
       = Ok "Hello Ann" /\
     fmt kwargs_t str_format cat "GREETING" (Some "EN") None None None without_name
       = Ok "Hello {name}").
Proof.
  split.
  - intros cat label lang fallback_lang default domain kwargs template Hget.
    unfold fmt. rewrite Hget. simpl. split; [by intros ->|]. split.
    + by intros text ->.
    + by destruct (str_format template kwargs).
  - intros fs path with_name without_name Hfile Hann Hempty cat.
    assert (get_text cat "GREETING" (Some "EN") None None None = Ok "Hello {name}") as Hget.
    { unfold cat, load_domains_from_file, _load_json. rewrite Hfile. by vm_compute. }
    unfold fmt. rewrite Hget. simpl. by rewrite Hann, Hempty.
Qed.

Lemma fmt_lenient_witness :
  plain_format "Hello {name}" [("name", "Ann")] = Some "Hello Ann" /\
  plain_format "Hello {name}" [] = None /\
  let cat := (load_domains_from_file Sample.fs "greeting.json" true
                (new_catalog "EN" None)).1 in
  fmt _ plain_format cat "GREETING" (Some "EN") None None None [("name", "Ann")]
    = Ok "Hello Ann" /\
  fmt _ plain_format cat "GREETING" (Some "EN") None None None [] = Ok "Hello {name}" /\
  fmt _ plain_format cat "GREETING" (Some "EN") None None None [("user", "Ann")]
    = Ok "Hello {name}".
Proof.
  split; [reflexivity|]. split; [reflexivity|]. intros cat.
  destruct (fmt_lenient _ plain_format) as [Hgeneral Hscenario].
  destruct (Hscenario Sample.fs "greeting.json" [("name", "Ann")] [] eq_refl eq_refl eq_refl)
    as [Hann Hempty].
  split; [exact Hann|]. split; [exact Hempty|].
  assert (get_text cat "GREETING" (Some "EN") None None None = Ok "Hello {name}") as Hget
    by (by vm_compute).
  exact (proj1 (Hgeneral cat "GREETING" (Some "EN") None None None [("user", "Ann")]
                  "Hello {name}" Hget) eq_refl).
Defined.

(** * Further properties of the catalog *)

(** ** The chain *)

Lemma join_split sep s : PyStr.join (String sep EmptyString) (PyStr.split sep s) = s.
Proof.
  induction s as [|c s IH]; [done|]. simpl PyStr.split.
  pose proof (split_nonempty sep s) as Hne.
  destruct (decide (c = sep)) as [->|Hc].
  - destruct (PyStr.split sep s) as [|h t]; [done|].
    change (PyStr.join (String sep EmptyString) (EmptyString :: h :: t))
      with (EmptyString +:+ String sep EmptyString +:+ PyStr.join (String sep EmptyString) (h :: t)).
    by rewrite IH.
  - destruct (PyStr.split sep s) as [|h t]; [done|].
    destruct t as [|h' t].
    + simpl in *. by rewrite IH.
    + change (PyStr.join (String sep EmptyString) (String c h :: h' :: t))
        with (String c (h +:+ String sep EmptyString
                          +:+ PyStr.join (String sep EmptyString) (h' :: t))).
      change (PyStr.join (String sep EmptyString) (h :: h' :: t))
        with (h +:+ String sep EmptyString
                +:+ PyStr.join (String sep EmptyString) (h' :: t)) in IH.
      by rewrite IH.
Qed.

Lemma range_down_S n : range_down (S n) = S n :: range_down n.
Proof. unfold range_down. by rewrite seq_S, reverse_app. Qed.

Lemma prefixes_down_head parts :
  parts <> [] -> exists rest, prefixes_down parts = PyStr.join "." parts :: rest.
Proof.
  intros Hne. unfold prefixes_down.
  destruct parts as [|p parts]; [done|]. simpl length. rewrite range_down_S, fmap_cons.
  eexists. f_equal. by rewrite (take_ge (p :: parts)) by (simpl; lia).
Qed.

(** The search starts in the domain itself. *)
Lemma domain_chain_head d :
  exists rest, _domain_chain d = _normalize_domain (Some d) :: rest.
Proof.
  unfold _domain_chain.
  destruct (decide (_normalize_domain (Some d) = ROOT_DOMAIN)) as [->|Hne]; [by exists []|].
  destruct (prefixes_down_head (PyStr.split "." (_normalize_domain (Some d))))
    as [rest Hrest]; [apply split_nonempty|].
  rewrite Hrest. change "."%string with (String "."%char EmptyString). rewrite join_split.
  destruct (decide _); eauto.
Qed.

(** ** Reading back what [set_text] wrote *)

Lemma entry_write cat d label langs d' l' c' :
  entry (with_data cat (<[d := <[label := langs]> (default ∅ (_data cat !! d))]> (_data cat)))
        d' l' c' =
  if decide (d' = d /\ l' = label) then langs !! c' else entry cat d' l' c'.
Proof.
  unfold entry. simpl.
  destruct (decide (d' = d)) as [->|Hd].
  - rewrite lookup_insert_eq. simpl.
    destruct (decide (l' = label)) as [->|Hl].
    + rewrite lookup_insert_eq. simpl. by rewrite decide_True.
    + rewrite lookup_insert_ne by done. rewrite decide_False by (by intros [_ ?]).
      by destruct (_data cat !! d).
  - rewrite lookup_insert_ne by done. by rewrite decide_False by (by intros [? _]).
Qed.

Lemma entry_bucket cat d label c :
  default ∅ (default ∅ (_data cat !! d) !! label) !! c = entry cat d label c.
Proof.
  unfold entry. destruct (_data cat !! d) as [labels|]; simpl; [|done].
  by destruct (labels !! label).
Qed.

Lemma set_text_entry_after (cat cat' : LanguageCatalog) (label lang text : string)
    (overwrite : bool) (domain : option string) :
  set_text cat label lang (JString text) overwrite domain = Ok cat' ->
  let dn := _normalize_domain (Some (py_or domain (_context_domain cat))) in
  forall d l c,
    entry cat' d l c =
    if decide (d = dn /\ l = label /\ c = PyStr.upper lang) then
      Some (if overwrite then text else default text (entry cat dn label (PyStr.upper lang)))
    else entry cat d l c.
Proof.
  intros Hset dn d l c. unfold set_text in Hset.
  destruct (PyStr.nonempty label); simpl in Hset; [|done].
  destruct (_normalize_lang cat lang) as [code|] eqn:Hcode; simpl in Hset; [|done].
  apply normalize_lang_ok in Hcode as (-> & _). fold dn in Hset.
  pose proof (entry_bucket cat dn label (PyStr.upper lang)) as Hold.
  destruct (negb overwrite && _) eqn:Hskip; injection Hset as <-; rewrite entry_write.
  - apply andb_true_iff in Hskip as [Hov Hin%bool_decide_eq_true].
    destruct overwrite; [done|]. destruct Hin as [old Hin].
    rewrite Hin in Hold. rewrite <- Hold. simpl.
    destruct (decide (d = dn /\ l = label)) as [[-> ->]|Hn].
    + destruct (decide (c = PyStr.upper lang)) as [->|Hc].
      * rewrite decide_True by done. by rewrite entry_bucket, <- Hold.
      * rewrite decide_False by (by intros (_ & _ & ?)). apply entry_bucket.
    + by rewrite decide_False by (intros (? & ? & _); by apply Hn).
  - destruct (decide (d = dn /\ l = label)) as [[-> ->]|Hn].
    + destruct (decide (c = PyStr.upper lang)) as [->|Hc].
      * rewrite decide_True by done. rewrite lookup_insert_eq. f_equal.
        destruct overwrite; [done|]. simpl in Hskip.
        apply bool_decide_eq_false in Hskip. rewrite Hold in Hskip.
        by destruct (entry cat dn label (PyStr.upper lang)); [destruct Hskip; eauto|].
      * rewrite decide_False by (by intros (_ & _ & ?)).
        rewrite lookup_insert_ne by done. apply entry_bucket.
    + by rewrite decide_False by (intros (? & ? & _); by apply Hn).
Qed.

(** X1.  After a successful [set_text] every (domain, label, language)
    triple but the written one has the entry it had; the written triple has
    the new text, or, with [overwrite=False], the text it already had if it
    had one. *)
Theorem set_text_entries (cat cat' : LanguageCatalog) (label lang text : string)
    (overwrite : bool) (domain : option string) :
  set_text cat label lang (JString text) overwrite domain = Ok cat' ->
  let dn := _normalize_domain (Some (py_or domain (_context_domain cat))) in
  forall d l c,
    entry cat' d l c =
    if decide (d = dn /\ l = label /\ c = PyStr.upper lang) then
      Some (if overwrite then text else default text (entry cat dn label (PyStr.upper lang)))
    else entry cat d l c.
Proof. intros Hset. exact (set_text_entry_after cat cat' label lang text overwrite domain Hset). Qed.

Lemma sample_after_set_ok :
  set_text Sample.catalog "DATA_NOT_FOUND" "de" (JString "Keine Daten.") true None
  = Ok sample_after_set.
Proof. by vm_compute. Qed.

Lemma set_text_entries_witness :
  set_text Sample.catalog "DATA_NOT_FOUND" "de" (JString "Keine Daten.") true None
    = Ok sample_after_set /\
  entry sample_after_set "GLOBAL" "DATA_NOT_FOUND" "DE" = Some "Keine Daten." /\
  entry sample_after_set "GLOBAL" "DATA_NOT_FOUND" "EN" =
    entry Sample.catalog "GLOBAL" "DATA_NOT_FOUND" "EN".
Proof.
  pose proof (set_text_entries Sample.catalog sample_after_set "DATA_NOT_FOUND" "de"
                "Keine Daten." true None sample_after_set_ok) as Hentries.
  split; [exact sample_after_set_ok|]. split.
  - exact (Hentries "GLOBAL" "DATA_NOT_FOUND" "DE").
  - exact (Hentries "GLOBAL" "DATA_NOT_FOUND" "EN").
Defined.

(** X2.  What [set_text] stored is what [get_text] returns for the same
    label, language and domain arguments: the new text, or with
    [overwrite=False] the text that was already there; neither the default
    nor a parent domain is consulted. *)
Theorem set_text_then_get_text (cat cat' : LanguageCatalog) (label lang text : string)
    (overwrite : bool) (domain dflt : option string) :
  set_text cat label lang (JString text) overwrite domain = Ok cat' ->
  get_text cat' label (Some lang) None dflt domain =
  Ok (if overwrite then text
      else default text
             (entry cat (_normalize_domain (Some (py_or domain (_context_domain cat))))
                    label (PyStr.upper lang))).
Proof.
  intros Hset.
  pose proof (set_text_entry_after _ _ _ _ _ _ _ Hset) as Hentries.
  pose proof (set_text_spec _ _ _ _ _ _ _ Hset) as (Ha & Hd & Hc & _ & _).
  unfold set_text in Hset.
  destruct (PyStr.nonempty label) eqn:Hlabel; simpl in Hset; [|done].
  destruct (_normalize_lang cat lang) as [code|] eqn:Hcode; simpl in Hset; [|done].
  clear Hset. apply normalize_lang_ok in Hcode as Hok. destruct Hok as (-> & Hlang & _ & Hkey).
  assert (primary_lang_of cat' (Some lang) = Ok (PyStr.upper lang)) as Hp.
  { unfold primary_lang_of. simpl. apply nonempty_true in Hlang as ->.
    unfold _normalize_lang in *. by rewrite Ha. }
  apply nonempty_true in Hlabel.
  rewrite (get_text_nonempty cat' label (Some lang) None dflt domain _ None Hlabel Hp eq_refl).
  cbv zeta. rewrite Hc.
  destruct (domain_chain_head
              (_normalize_domain (Some (py_or domain (_context_domain cat))))) as [rest ->].
  rewrite normalize_domain_idemp.
  rewrite (loop_cons cat' label (PyStr.upper lang) None eq_refl).
  unfold tried_langs. simpl. rewrite Hentries. by rewrite decide_True.
Qed.

Lemma set_text_then_get_text_witness :
  set_text Sample.catalog "DATA_NOT_FOUND" "de" (JString "Keine Daten.") true None
    = Ok sample_after_set /\
  get_text sample_after_set "DATA_NOT_FOUND" (Some "de") None None None = Ok "Keine Daten.".
Proof.
  split; [exact sample_after_set_ok|].
  exact (set_text_then_get_text Sample.catalog sample_after_set "DATA_NOT_FOUND" "de"
           "Keine Daten." true None None sample_after_set_ok).
Defined.

(** X3.  Resolving without a domain after [set_context(d)] is resolving
    with the normalized [d] as explicit domain, whatever the context was
    before; [set_context] touches neither the store nor the languages. *)
Theorem set_context_get_text (cat : LanguageCatalog) (d : option string) (label : string)
    (lang fallback_lang default : option string) :
  get_text (set_context cat d) label lang fallback_lang default None =
    get_text cat label lang fallback_lang default (Some (_normalize_domain d)) /\
  _context_domain (set_context cat d) = _normalize_domain d /\
  _data (set_context cat d) = _data cat /\
  _default_lang (set_context cat d) = _default_lang cat /\
  _allowed (set_context cat d) = _allowed cat.
Proof.
  split; [|done]. unfold get_text. simpl.
  pose proof (normalize_domain_normalized d) as [_ Hne%nonempty_true].
  by rewrite Hne.
Qed.

(** ** [has_text] *)

Lemma lang_code_ok cat lang code :
  lang_code_of cat lang = Ok code ->
  truthy code = match code with Some _ => true | None => false end.
Proof. apply fallback_code_ok. Qed.

Lemma has_text_loop_spec cat label code domains :
  truthy code = match code with Some _ => true | None => false end ->
  has_text_loop (_data cat) label code domains = true <->
  exists d, d ∈ domains /\
    match code with
    | Some c => is_Some (entry cat d label c)
    | None => exists c, is_Some (entry cat d label c)
    end.
Proof.
  intros Hcode. induction domains as [|d rest IH]; simpl.
  - split; [done|]. intros (d & Hd & _). by apply elem_of_nil in Hd.
  - assert (forall P : string -> Prop,
              (P d \/ exists d', d' ∈ rest /\ P d') <-> exists d', d' ∈ d :: rest /\ P d')
      as Hsplit.
    { intros P. split.
      - intros [?|(d' & ? & ?)]; [exists d|exists d']; split; auto; by constructor.
      - intros (d' & [->|?]%elem_of_cons & ?); [by left|right; eauto]. }
    rewrite <- Hsplit. rewrite <- IH. clear Hsplit IH.
    pose proof (bucket_of_entry cat d label) as Hb.
    destruct (bucket_of (_data cat) d label) as [lang_map|] eqn:Hbucket.
    + rewrite Hcode. destruct code as [c|]; simpl.
      * rewrite Hb. destruct (lang_map !! c) as [t|] eqn:Hc.
        -- rewrite bool_decide_true by eauto. split; [by left; eauto|done].
        -- rewrite bool_decide_false by (by intros [? ?]).
           split; [by right|]. by intros [[? ?]|?].
      * destruct (decide (lang_map = ∅)) as [->|Hne].
        -- rewrite bool_decide_false by (by intros ?). split; [by right|].
           intros [[c [t Hc]]|?]; [|done]. rewrite Hb, lookup_empty in Hc. done.
        -- rewrite bool_decide_true by done. split; [|done]. intros _. left.
           apply map_choose in Hne as (c & t & Hc). exists c, t. by rewrite Hb.
    + split; [by right|]. intros [H|?]; [|done].
      destruct code as [c|]; [|destruct H as [c H]]; rewrite Hb in H; by destruct H.
Qed.

Lemma has_text_true_iff (cat : LanguageCatalog) (label : string) (lang domain : option string)
    (recursive : bool) :
  let dn := _normalize_domain (Some (py_or domain (_context_domain cat))) in
  let domains := if recursive then _domain_chain dn else [dn] in
  (has_text cat label lang domain recursive = Ok true <->
   label <> EmptyString /\
   exists code, lang_code_of cat lang = Ok code /\
     exists d, d ∈ domains /\
       match code with
       | Some c => is_Some (entry cat d label c)
       | None => exists c, is_Some (entry cat d label c)
       end) /\
  (label = EmptyString -> has_text cat label lang domain recursive = Ok false).
Proof.
  intros dn domains. split; [|by intros ->].
  unfold has_text. fold dn. fold domains.
  destruct (PyStr.nonempty label) eqn:Hlabel; simpl.
  - apply nonempty_true in Hlabel.
    destruct (lang_code_of cat lang) as [code|e] eqn:Hcode; simpl.
    + pose proof (has_text_loop_spec cat label code domains (lang_code_ok _ _ _ Hcode)) as Hloop.
      split.
      * intros [= Htrue]. split; [done|]. exists code. split; [done|]. by apply Hloop.
      * intros (_ & code' & [= <-] & Hd). f_equal. by apply Hloop.
    + split; [done|]. by intros (_ & code & ? & _).
  - split; [done|]. intros [Hne _]. destruct label; [done|discriminate].
Qed.

(** X4.  [has_text] answers [True] exactly when the label is not empty, the
    language (if one is given) passes validation and one of the domains
    searched, the whole chain when [recursive] and the domain alone
    otherwise, holds the label in that language, or in any language when
    none is given.  An empty label gives [False] before the language is
    even looked at. *)
Theorem has_text_spec (cat : LanguageCatalog) (label : string) (lang domain : option string)
    (recursive : bool) :
  let dn := _normalize_domain (Some (py_or domain (_context_domain cat))) in
  let domains := if recursive then _domain_chain dn else [dn] in
  (has_text cat label lang domain recursive = Ok true <->
   label <> EmptyString /\
   exists code, lang_code_of cat lang = Ok code /\
     exists d, d ∈ domains /\
       match code with
       | Some c => is_Some (entry cat d label c)
       | None => exists c, is_Some (entry cat d label c)
       end) /\
  (label = EmptyString -> has_text cat label lang domain recursive = Ok false).
Proof. intros dn domains. exact (has_text_true_iff cat label lang domain recursive). Qed.

(** X5.  When [has_text] finds the label in a given language along the
    chain, [get_text] for that label, language and domain returns a text
    without needing a default. *)
Theorem has_text_get_text (cat : LanguageCatalog) (label : string) (lang domain : option string) :
  truthy lang = true ->
  has_text cat label lang domain true = Ok true ->
  exists text, get_text cat label lang None None domain = Ok text.
Proof.
  intros Hlang Hhas.
  apply (proj1 (has_text_true_iff cat label lang domain true)) in Hhas
    as (Hlabel & code & Hcode & d & Hd & Hentry).
  assert (exists c, code = Some c /\ primary_lang_of cat lang = Ok c) as (c & -> & Hp).
  { unfold lang_code_of, primary_lang_of in *. rewrite Hlang in *.
    destruct (_normalize_lang cat _) as [c|]; simpl in Hcode; [|done].
    injection Hcode as <-. by exists c. }
  rewrite (get_text_nonempty cat label lang None None domain c None Hlabel Hp eq_refl).
  cbv zeta.
  destruct (get_text_loop _ _ _ _ _ _) as [t|] eqn:Hloop; [by exists t|].
  pose proof (proj1 (loop_none cat label c None eq_refl _) Hloop d c Hd) as Hnone.
  rewrite Hnone in Hentry; [by destruct Hentry|]. by left.
Qed.

Lemma has_text_spec_witness :
  has_text Sample.catalog "" (Some "FR") None true = Ok false /\
  has_text Sample.catalog "DATA_NOT_FOUND" (Some "de") (Some "GLOBAL.DATABASE.ORACLE") false
    = Ok true.
Proof.
  split.
  - exact (proj2 (has_text_spec Sample.catalog "" (Some "FR") None true) eq_refl).
  - apply (proj1 (has_text_spec Sample.catalog "DATA_NOT_FOUND" (Some "de")
                    (Some "GLOBAL.DATABASE.ORACLE") false)).
    split; [discriminate|]. exists (Some "DE"). split; [reflexivity|].
    exists "GLOBAL.DATABASE.ORACLE". split; [by left|]. by vm_compute; eexists.
Defined.

Lemma has_text_get_text_witness :
  has_text Sample.catalog "DATA_NOT_FOUND" (Some "en") (Some "GLOBAL.DATABASE.ORACLE") true
    = Ok true /\
  exists text,
    get_text Sample.catalog "DATA_NOT_FOUND" (Some "en") None None
      (Some "GLOBAL.DATABASE.ORACLE") = Ok text.
Proof.
  assert (has_text Sample.catalog "DATA_NOT_FOUND" (Some "en")
            (Some "GLOBAL.DATABASE.ORACLE") true = Ok true) as Hhas by (by vm_compute).
  split; [exact Hhas|].
  exact (has_text_get_text Sample.catalog "DATA_NOT_FOUND" (Some "en")
           (Some "GLOBAL.DATABASE.ORACLE") eq_refl Hhas).
Defined.

(** ** Listings *)

(** A loop over a dictionary that only ever adds to a set. *)
Lemma fold_union_elem {V} (f : string -> V -> gset string -> gset string)
    (R : string -> V -> string -> Prop) (init : gset string) (data : gmap string V) c :
  (forall d v acc x, x ∈ f d v acc <-> x ∈ acc \/ R d v x) ->
  c ∈ map_fold f init data <->
  c ∈ init \/ exists d v, data !! d = Some v /\ R d v c.
Proof.
  intros Hf. revert c. apply (map_fold_weak_ind (fun (r : gset string) m =>
    forall c, c ∈ r <-> c ∈ init \/ exists d v, m !! d = Some v /\ R d v c)).
  - intros c. split; [by left|]. intros [?|(d & v & Hd & _)]; [done|].
    by rewrite lookup_empty in Hd.
  - intros i x m r Hi IH c. rewrite Hf, IH. split.
    + intros [[?|(d & v & Hd & HR)]|HR]; [by left|right..].
      * exists d, v. rewrite lookup_insert_ne by congruence. done.
      * exists i, x. by rewrite lookup_insert_eq.
    + intros [?|(d & v & Hd & HR)]; [by left; left|].
      destruct (decide (i = d)) as [->|Hne].
      * rewrite lookup_insert_eq in Hd. injection Hd as ->. by right.
      * rewrite lookup_insert_ne in Hd by done. left. right. by exists d, v.
Qed.

Lemma langs_of_labels_elem labels_map (langs : gset string) c :
  c ∈ langs_of_labels labels_map langs <->
  c ∈ langs \/ exists l lang_map, labels_map !! l = Some lang_map /\ c ∈ dom lang_map.
Proof.
  unfold langs_of_labels.
  apply (fold_union_elem _ (fun _ (lang_map : gmap string string) x => x ∈ dom lang_map)).
  intros d v acc x. unfold keys_of. by rewrite elem_of_union.
Qed.

Lemma langs_of_label_elem label labels_map (langs : gset string) c :
  c ∈ langs_of_label label labels_map langs <->
  c ∈ langs \/ exists lang_map, labels_map !! label = Some lang_map /\ c ∈ dom lang_map.
Proof.
  unfold langs_of_label, keys_of. destruct (labels_map !! label) as [lang_map|].
  - rewrite elem_of_union. split.
    + intros [?|?]; [by left|right; by exists lang_map].
    + intros [?|(lm & [= <-] & ?)]; [by left|by right].
  - split; [by left|]. by intros [?|(lm & [=] & _)].
Qed.

Lemma entry_is_Some cat d l c :
  is_Some (entry cat d l c) <->
  exists labels_map lang_map,
    _data cat !! d = Some labels_map /\ labels_map !! l = Some lang_map /\ c ∈ dom lang_map.
Proof.
  split.
  - intros [t (lm & langs & Hd & Hl & Hc)%entry_lookup].
    exists lm, langs. split; [done|]. split; [done|]. apply elem_of_dom. eauto.
  - intros (lm & langs & Hd & Hl & [t Hc]%elem_of_dom).
    exists t. unfold entry. rewrite Hd. simpl. rewrite Hl. done.
Qed.

Lemma in_scope_cond domain dm d :
  domain = Some dm ->
  in_scope domain true d <->
  bool_decide (d = _normalize_domain domain)
  || PyStr.startswith (_normalize_domain domain +:+ ".") d = true.
Proof.
  intros ->. unfold in_scope. rewrite orb_true_iff, bool_decide_eq_true. tauto.
Qed.

Lemma list_languages_sorted_elem (cat : LanguageCatalog) (label domain : option string)
    (recursive : bool) :
  Sorted String.le (list_languages cat label domain recursive) /\
  NoDup (list_languages cat label domain recursive) /\
  forall c,
    c ∈ list_languages cat label domain recursive <->
    exists d l,
      in_scope domain recursive d /\
      match label with Some l0 => l = l0 | None => True end /\
      is_Some (entry cat d l c).
Proof.
  assert (forall s : gset string, forall P : string -> Prop,
            (forall c, c ∈ s <-> P c) ->
            Sorted String.le (py_sorted (elements s)) /\
            NoDup (py_sorted (elements s)) /\
            forall c, c ∈ py_sorted (elements s) <-> P c) as Hsorted.
  { intros s P HP. destruct (py_sorted_spec s) as (? & ? & He).
    split; [done|]. split; [done|]. intros c. by rewrite He. }
  unfold list_languages.
  destruct label as [l0|], domain as [dm|].
  - (* label and domain *)
    destruct recursive; simpl negb; cbv iota; apply Hsorted; intros c.
    + rewrite (fold_union_elem _
        (fun d (lm : gmap string (gmap string string)) x =>
           (bool_decide (d = _normalize_domain (Some dm))
            || PyStr.startswith (_normalize_domain (Some dm) +:+ ".") d = true) /\
           exists lang_map, lm !! l0 = Some lang_map /\ x ∈ dom lang_map)).
      * split.
        -- intros [?|(d & lm & Hd & Hs & langs & Hl & Hc)]; [set_solver|].
           exists d, l0. split; [by eapply in_scope_cond|]. split; [done|].
           apply entry_is_Some. by exists lm, langs.
        -- intros (d & l & Hs & -> & (lm & langs & Hd & Hl & Hc)%entry_is_Some).
           right. exists d, lm. split; [done|]. split; [by eapply in_scope_cond|].
           by exists langs.
      * intros d lm acc x.
        destruct (bool_decide (d = _normalize_domain (Some dm))
                  || PyStr.startswith (_normalize_domain (Some dm) +:+ ".") d).
        -- rewrite langs_of_label_elem. tauto.
        -- split; [by left|]. by intros [?|[? _]].
    + unfold keys_of. rewrite elem_of_dom, entry_bucket. split.
      * intros Hc. exists (_normalize_domain (Some dm)), l0. split; [by left|]. done.
      * intros (d & l & [->|[? _]] & -> & Hc); done.
  - (* label, no domain *)
    apply Hsorted; intros c.
    rewrite (fold_union_elem _
      (fun d (lm : gmap string (gmap string string)) x =>
         exists lang_map, lm !! l0 = Some lang_map /\ x ∈ dom lang_map)).
    + split.
      * intros [?|(d & lm & Hd & langs & Hl & Hc)]; [set_solver|].
        exists d, l0. split; [done|]. split; [done|].
        apply entry_is_Some. by exists lm, langs.
      * intros (d & l & _ & -> & (lm & langs & Hd & Hl & Hc)%entry_is_Some).
        right. exists d, lm. split; [done|]. by exists langs.
    + intros d lm acc x. apply langs_of_label_elem.
  - (* domain, no label *)
    destruct recursive; simpl negb; cbv iota; apply Hsorted; intros c.
    + rewrite (fold_union_elem _
        (fun d (lm : gmap string (gmap string string)) x =>
           (bool_decide (d = _normalize_domain (Some dm))
            || PyStr.startswith (_normalize_domain (Some dm) +:+ ".") d = true) /\
           exists l lang_map, lm !! l = Some lang_map /\ x ∈ dom lang_map)).
      * split.
        -- intros [?|(d & lm & Hd & Hs & l & langs & Hl & Hc)]; [set_solver|].
           exists d, l. split; [by eapply in_scope_cond|]. split; [done|].
           apply entry_is_Some. by exists lm, langs.
        -- intros (d & l & Hs & _ & (lm & langs & Hd & Hl & Hc)%entry_is_Some).
           right. exists d, lm. split; [done|]. split; [by eapply in_scope_cond|].
           by exists l, langs.
      * intros d lm acc x.
        destruct (bool_decide (d = _normalize_domain (Some dm))
                  || PyStr.startswith (_normalize_domain (Some dm) +:+ ".") d).
        -- rewrite langs_of_labels_elem. tauto.
        -- split; [by left|]. by intros [?|[? _]].
    + rewrite langs_of_labels_elem. split.
      * intros [?|(l & langs & Hl & Hc)]; [set_solver|].
        exists (_normalize_domain (Some dm)), l. split; [by left|]. split; [done|].
        apply entry_is_Some.
        destruct (_data cat !! _normalize_domain (Some dm)) as [lm|] eqn:Hd;
          simpl in Hl; [|by rewrite lookup_empty in Hl].
        by exists lm, langs.
      * intros (d & l & [->|[? _]] & _ & (lm & langs & Hd & Hl & Hc)%entry_is_Some);
          [|done].
        right. exists l, langs. by rewrite Hd.
  - (* neither *)
    apply Hsorted; intros c.
    rewrite (fold_union_elem _
      (fun d (lm : gmap string (gmap string string)) x =>
         exists l lang_map, lm !! l = Some lang_map /\ x ∈ dom lang_map)).
    + split.
      * intros [?|(d & lm & Hd & l & langs & Hl & Hc)]; [set_solver|].
        exists d, l. split; [done|]. split; [done|].
        apply entry_is_Some. by exists lm, langs.
      * intros (d & l & _ & _ & (lm & langs & Hd & Hl & Hc)%entry_is_Some).
        right. exists d, lm. split; [done|]. by exists l, langs.
    + intros d lm acc x. apply langs_of_labels_elem.
Qed.

(** X6.  [list_languages] returns, sorted and without duplicates, the
    language codes of the entries whose label is the given one (any label
    when none is given) and whose domain is in scope: any domain when none
    is given, else the normalized domain and, when [recursive], the domains
    below it. *)
Theorem list_languages_spec (cat : LanguageCatalog) (label domain : option string)
    (recursive : bool) :
  Sorted String.le (list_languages cat label domain recursive) /\
  NoDup (list_languages cat label domain recursive) /\
  forall c,
    c ∈ list_languages cat label domain recursive <->
    exists d l,
      in_scope domain recursive d /\
      match label with Some l0 => l = l0 | None => True end /\
      is_Some (entry cat d l c).
Proof. exact (list_languages_sorted_elem cat label domain recursive). Qed.

(** X7.  In a well-formed catalog, every language that the non-recursive
    [list_languages] reports for a label and a (non-empty) domain is one for
    which [has_text], asked about that label, language and domain alone,
    answers [True]. *)
Theorem list_languages_has_text (cat : LanguageCatalog) (label d c : string) :
  catalog_wf cat ->
  d <> EmptyString ->
  c ∈ list_languages cat (Some label) (Some d) false ->
  has_text cat label (Some c) (Some d) false = Ok true.
Proof.
  intros [Hinv Hkeys] Hd Hc.
  apply (proj2 (proj2 (list_languages_sorted_elem cat (Some label) (Some d) false))) in Hc
    as (d' & l & Hscope & -> & Hentry).
  destruct Hscope as [->|[? _]]; [|done].
  destruct Hentry as [t Hentry].
  apply entry_lookup in Hentry as Hlookup. destruct Hlookup as (lm & langs & Hdm & Hl & Hcm).
  destruct (Hinv _ _ Hdm) as [_ Hlangs]. pose proof (Hlangs _ _ Hl _ _ Hcm) as Hok.
  destruct (Hkeys _ _ Hdm _ _ Hl) as [Hlabel Hcodes]. pose proof (Hcodes _ _ Hcm) as Hcode.
  apply (proj1 (has_text_true_iff cat label (Some c) (Some d) false)).
  split; [done|]. exists (Some c). split.
  - unfold lang_code_of. simpl. apply nonempty_true in Hcode as Hcode'. rewrite Hcode'.
    by rewrite normalize_lang_accepts.
  - exists (_normalize_domain (Some d)). split.
    + unfold py_or. apply nonempty_true in Hd as ->. by left.
    + by exists t.
Qed.

Lemma list_languages_has_text_witness :
  list_languages Sample.catalog (Some "USAGE_MESSAGE") (Some "GLOBAL") false = ["DE"; "EN"] /\
  has_text Sample.catalog "USAGE_MESSAGE" (Some "DE") (Some "GLOBAL") false = Ok true.
Proof.
  assert (list_languages Sample.catalog (Some "USAGE_MESSAGE") (Some "GLOBAL") false
          = ["DE"; "EN"]) as Hlist by (by vm_compute).
  split; [exact Hlist|].
  apply (list_languages_has_text Sample.catalog "USAGE_MESSAGE" "GLOBAL" "DE"
           sample_catalog_wf); [discriminate|].
  rewrite Hlist. by left.
Defined.

Lemma list_labels_elem cat d recursive l :
  l ∈ list_labels cat (Some d) recursive <->
  exists d' labels_map,
    in_scope (Some d) recursive d' /\ _data cat !! d' = Some labels_map /\ l ∈ dom labels_map.
Proof.
  assert (forall l, l ∈ keys_of (default ∅ (_data cat !! _normalize_domain (Some d))) <->
            exists labels_map,
              _data cat !! _normalize_domain (Some d) = Some labels_map /\ l ∈ dom labels_map)
    as Hdirect.
  { intros l'. unfold keys_of. destruct (_data cat !! _) as [lm|]; simpl.
    - split; [by exists lm|]. by intros (lm' & [= <-] & Hl).
    - rewrite dom_empty_L. split; [set_solver|]. by intros (lm' & [=] & _). }
  unfold list_labels, in_scope. destruct recursive; simpl negb; cbv iota.
  - rewrite (proj2 (proj2 (py_sorted_spec _))), fold_labels_elem, Hdirect. split.
    + intros [(lm & Hd & Hl)|(d' & lm & Hd & Hsw & Hl)].
      * exists (_normalize_domain (Some d)), lm. auto.
      * exists d', lm. auto.
    + intros (d' & lm & [->|[_ Hsw]] & Hd & Hl).
      * left. by exists lm.
      * right. by exists d', lm.
  - rewrite (proj2 (proj2 (py_sorted_spec _))), Hdirect. split.
    + intros (lm & Hd & Hl). exists (_normalize_domain (Some d)), lm. auto.
    + intros (d' & lm & [->|[? _]] & Hd & Hl); [|done]. by exists lm.
Qed.

(** X8.  Without a domain [list_labels] returns, sorted and without
    duplicates, the labels of all domains, whatever [recursive] is; the
    non-recursive listing of a domain is contained in its recursive listing,
    which is contained in the listing of all domains. *)
Theorem list_labels_all (cat : LanguageCatalog) (recursive : bool) :
  Sorted String.le (list_labels cat None recursive) /\
  NoDup (list_labels cat None recursive) /\
  (forall l, l ∈ list_labels cat None recursive <->
     exists d labels_map, _data cat !! d = Some labels_map /\ l ∈ dom labels_map) /\
  (forall d l, l ∈ list_labels cat (Some d) false -> l ∈ list_labels cat (Some d) true) /\
  (forall d l, l ∈ list_labels cat (Some d) true -> l ∈ list_labels cat None recursive).
Proof.
  assert (forall l, l ∈ list_labels cat None recursive <->
            exists d labels_map, _data cat !! d = Some labels_map /\ l ∈ dom labels_map)
    as Hall.
  { intros l. unfold list_labels. rewrite (proj2 (proj2 (py_sorted_spec _))).
    rewrite (fold_union_elem _
      (fun _ (lm : gmap string (gmap string string)) x => x ∈ dom lm)).
    - split; [intros [?|?]; [set_solver|done]|by right].
    - intros d v acc x. unfold keys_of. by rewrite elem_of_union. }
  unfold list_labels at 1 2.
  destruct (py_sorted_spec
              (map_fold (fun _ labels_map (labels : gset string) => labels ∪ keys_of labels_map)
                        ∅ (_data cat))) as (Hs & Hn & _).
  split; [done|]. split; [done|]. split; [exact Hall|]. split.
  - intros d l. rewrite !list_labels_elem.
    intros (d' & lm & [->|[? _]] & Hd & Hl); [|done].
    exists (_normalize_domain (Some d)), lm. split; [by left|done].
  - intros d l. rewrite list_labels_elem, Hall.
    intros (d' & lm & _ & Hd & Hl). by exists d', lm.
Qed.

Lemma list_labels_all_witness :
  "ORA_LOCKED" ∈ list_labels Sample.catalog (Some "GLOBAL.DATABASE") true /\
  "ORA_LOCKED" ∈ list_labels Sample.catalog None false /\
  list_labels Sample.catalog None true =
    ["DATA_NOT_FOUND"; "LOCALE_HINT"; "ORA_LOCKED"; "USAGE_MESSAGE"].
Proof.
  assert ("ORA_LOCKED" ∈ list_labels Sample.catalog (Some "GLOBAL.DATABASE") true) as Hrec.
  { assert (list_labels Sample.catalog (Some "GLOBAL.DATABASE") true
            = ["DATA_NOT_FOUND"; "ORA_LOCKED"]) as -> by (by vm_compute).
    right. by left. }
  split; [exact Hrec|]. split; [|by vm_compute].
  destruct (list_labels_all Sample.catalog false) as (_ & _ & _ & _ & Hincl).
  exact (Hincl "GLOBAL.DATABASE" "ORA_LOCKED" Hrec).
Defined.

(** ** More on the loaders *)

Section LoaderKeeps.
Context (I : LanguageCatalog -> Prop).

Lemma load_from_file_keeps_gen fs file_path overwrite :
  (forall label lang text count,
     keeps I (set_and_count label lang text overwrite ROOT_DOMAIN count)) ->
  keeps I (load_from_file fs file_path overwrite).
Proof.
  intros Hset. unfold load_from_file.
  destruct (_load_json fs file_path) as [[]|]; try (by intros ? ?).
  - apply for_each_keeps. intros rec count cat Hcat.
    destruct rec as [| | | | |rec]; try done.
    destruct (is_str (dict_get "label" rec)); [|done].
    destruct (is_str (dict_get "lang" rec)); [|done].
    destruct (is_str (dict_get "text" rec)); [|done].
    by apply Hset.
  - apply for_each_keeps. intros [label mapping] count cat Hcat.
    destruct mapping as [| | | | |mapping]; try done.
    revert cat Hcat. apply for_each_keeps. intros [lang text] count'. apply Hset.
Qed.

Lemma load_domains_from_file_keeps_gen fs file_path overwrite :
  (forall label lang text dom count,
     keeps I (set_and_count label lang text overwrite (_normalize_domain (Some dom)) count)) ->
  keeps I (load_domains_from_file fs file_path overwrite).
Proof.
  intros Hset. unfold load_domains_from_file.
  destruct (_load_json fs file_path) as [[]|]; try (by intros ? ?).
  apply for_each_keeps. intros [dom labels] count cat Hcat.
  destruct labels as [| | | | |labels]; try done.
  revert cat Hcat. apply for_each_keeps. intros [label lang_map] count' cat Hcat.
  destruct lang_map as [| | | | |lang_map]; try done.
  revert cat Hcat. apply for_each_keeps. intros [lang text] count'' cat Hcat.
  destruct text; try done. by apply Hset.
Qed.

Lemma load_language_only_from_file_keeps_gen fs lang file_path overwrite domain :
  (forall label text count,
     keeps I (set_and_count label (PyStr.upper lang) text overwrite
                (_normalize_domain domain) count)) ->
  keeps I (load_language_only_from_file fs lang file_path overwrite domain).
Proof.
  intros Hset cat Hcat. unfold load_language_only_from_file.
  destruct (_normalize_lang cat lang) as [code|] eqn:Hcode; [|done].
  apply normalize_lang_ok in Hcode as (-> & _).
  destruct (_load_json fs file_path) as [[]|]; try done; revert cat Hcat.
  - apply for_each_keeps. intros rec count cat Hcat.
    destruct rec as [| | | | |rec]; try done.
    destruct (is_str (dict_get "label" rec)); [|done].
    destruct (is_str (dict_get "text" rec)); [|done].
    by apply Hset.
  - apply for_each_keeps. intros [label text] count cat Hcat.
    destruct text; try done. by apply Hset.
Qed.
End LoaderKeeps.

(** What one [set_text] call of a loader does to the entries. *)
Lemma set_and_count_entries label lang text overwrite domain count cat :
  normalized domain ->
  let cat' := (set_and_count label lang text overwrite domain count cat).1 in
  _context_domain cat' = _context_domain cat /\
  forall d l c,
    (is_Some (entry cat d l c) -> is_Some (entry cat' d l c)) /\
    (overwrite = false -> forall t, entry cat d l c = Some t -> entry cat' d l c = Some t) /\
    (~ (d = domain /\ l = label /\ c = PyStr.upper lang) ->
     entry cat' d l c = entry cat d l c).
Proof.
  intros Hdom cat'. unfold cat', set_and_count.
  destruct (set_text cat label lang text overwrite (Some domain)) as [cat''|e] eqn:Hset;
    simpl; [|by split].
  pose proof (set_text_spec _ _ _ _ _ _ _ Hset) as (_ & _ & Hctx & _).
  split; [done|].
  assert (exists s, text = JString s) as [s ->].
  { unfold set_text in Hset. destruct (PyStr.nonempty label); [|done].
    destruct (_normalize_lang cat lang); [|done]. simpl in Hset.
    destruct text; try done. by eexists. }
  pose proof (set_text_entry_after _ _ _ _ _ _ _ Hset) as Hentries. cbv zeta in Hentries.
  assert (_normalize_domain (Some (py_or (Some domain) (_context_domain cat))) = domain)
    as Hdn.
  { destruct Hdom as [Hs Hne]. unfold py_or. apply nonempty_true in Hne as Hne'.
    rewrite Hne'. by apply normalize_domain_id. }
  rewrite Hdn in Hentries. intros d l c. rewrite Hentries.
  destruct (decide (d = domain /\ l = label /\ c = PyStr.upper lang)) as [(-> & -> & ->)|Hn].
  - split; [by eauto|]. split; [|intros Hn; by destruct Hn].
    intros -> t Ht. by rewrite Ht.
  - done.
Qed.

Lemma entries_kept_refl c0 overwrite scope : entries_kept c0 overwrite scope c0.
Proof. by intros d l c. Qed.

Lemma set_and_count_entries_kept c0 scope label lang text overwrite domain count :
  normalized domain -> scope domain label (PyStr.upper lang) ->
  keeps (entries_kept c0 overwrite scope)
        (set_and_count label lang text overwrite domain count).
Proof.
  intros Hdom Hscope cat Hcat d l c.
  destruct (set_and_count_entries label lang text overwrite domain count cat Hdom)
    as [_ Hstep].
  destruct (Hstep d l c) as (Hsome & Hsame & Hout). destruct (Hcat d l c) as (Hsome0 & Hsame0 & Hout0).
  split; [auto|]. split; [auto|].
  intros Hn. rewrite Hout; [auto|]. intros (-> & -> & ->). by apply Hn.
Qed.

Lemma root_normalized : normalized ROOT_DOMAIN.
Proof. by split. Qed.

(** X9.  No loader ever removes an entry, and with [overwrite=False] none
    changes the text of an entry that exists, whether the loader returns or
    raises half-way.  The legacy loader leaves every domain but [GLOBAL]
    untouched; the single-language loader leaves untouched every entry
    outside its target domain and every entry in another language. *)
Theorem loaders_keep_entries (cat : LanguageCatalog) (fs : filesystem) :
  (forall file_path overwrite,
     entries_kept cat overwrite (fun d _ _ => d = ROOT_DOMAIN)
       (load_from_file fs file_path overwrite cat).1) /\
  (forall file_path overwrite,
     entries_kept cat overwrite (fun _ _ _ => True)
       (load_domains_from_file fs file_path overwrite cat).1) /\
  (forall lang file_path overwrite domain,
     entries_kept cat overwrite
       (fun d _ c => d = _normalize_domain domain /\ c = PyStr.upper lang)
       (load_language_only_from_file fs lang file_path overwrite domain cat).1).
Proof.
  split; [|split].
  - intros file_path overwrite.
    apply load_from_file_keeps_gen; [|apply entries_kept_refl].
    intros label lang text count.
    by apply set_and_count_entries_kept; [apply root_normalized|].
  - intros file_path overwrite.
    apply load_domains_from_file_keeps_gen; [|apply entries_kept_refl].
    intros label lang text dom count.
    by apply set_and_count_entries_kept; [apply normalize_domain_normalized|].
  - intros lang file_path overwrite domain.
    apply load_language_only_from_file_keeps_gen; [|apply entries_kept_refl].
    intros label text count.
    apply set_and_count_entries_kept; [apply normalize_domain_normalized|].
    by rewrite upper_idemp.
Qed.

(** X10.  After [reload_from_file], whether it returned or raised, the
    catalog has entries in the [GLOBAL] domain only: what other domains held
    is gone, and a legacy file brings nothing back there. *)
Theorem reload_from_file_global_only (cat : LanguageCatalog) (fs : filesystem)
    (file_path d l c : string) :
  d <> ROOT_DOMAIN ->
  entry (reload_from_file fs file_path cat).1 d l c = None.
Proof.
  intros Hd. unfold reload_from_file.
  assert (entries_kept (with_data cat ∅) true (fun d _ _ => d = ROOT_DOMAIN)
            (load_from_file fs file_path true (with_data cat ∅)).1) as Hkept.
  { apply load_from_file_keeps_gen; [|apply entries_kept_refl].
    intros label lang text count.
    by apply set_and_count_entries_kept; [apply root_normalized|]. }
  destruct (Hkept d l c) as (_ & _ & Hout). by rewrite Hout.
Qed.

Lemma reload_from_file_global_only_witness :
  is_Some (entry Sample.catalog "GLOBAL.DATABASE.ORACLE" "ORA_LOCKED" "EN") /\
  entry (reload_from_file Sample.fs "legacy.json" Sample.catalog).1
        "GLOBAL.DATABASE.ORACLE" "ORA_LOCKED" "EN" = None.
Proof.
  split; [by vm_compute; eexists|].
  apply (reload_from_file_global_only Sample.catalog Sample.fs "legacy.json"
           "GLOBAL.DATABASE.ORACLE" "ORA_LOCKED" "EN").
  discriminate.
Defined.

Lemma for_each_count {A} (body : A -> nat -> LanguageCatalog -> LanguageCatalog * result nat)
    (w : A -> nat) items :
  (forall x count cat n, (body x count cat).2 = Ok n -> n = count + w x) ->
  forall count cat n,
    (for_each body items count cat).2 = Ok n -> n = count + sum_list (w <$> items).
Proof.
  intros Hbody. induction items as [|x rest IH]; intros count cat n; cbn [for_each].
  - intros [= <-]. simpl. lia.
  - specialize (Hbody x count cat).
    destruct (body x count cat) as [cat' [count'|e]]; [|done].
    intros Hrest%IH. pose proof (Hbody count' eq_refl) as Hstep.
    rewrite fmap_cons. change (sum_list (w x :: (w <$> rest))) with (w x + sum_list (w <$> rest)).
    lia.
Qed.

Lemma set_and_count_count label lang text overwrite domain count cat n :
  (set_and_count label lang text overwrite domain count cat).2 = Ok n -> n = count + 1.
Proof.
  unfold set_and_count. destruct (set_text _ _ _ _ _ _); simpl; [|done]. by intros [= <-].
Qed.

Lemma sum_list_ones {A} (l : list A) : sum_list ((fun _ => 1) <$> l) = length l.
Proof.
  induction l as [|x l IH]; [done|]. rewrite fmap_cons.
  change (sum_list (1 :: ((fun _ : A => 1) <$> l)))
    with (1 + sum_list ((fun _ : A => 1) <$> l)).
  by rewrite IH.
Qed.

Lemma legacy_object_count label overwrite domain mapping count cat n :
  (for_each (fun '(lang, text) => set_and_count label lang text overwrite domain)
            mapping count cat).2 = Ok n ->
  n = count + length mapping.
Proof.
  intros H. rewrite <- sum_list_ones.
  revert H. apply for_each_count. intros [lang text]. apply set_and_count_count.
Qed.

(** X11.  When a loader returns, the number it returns is the number of
    entries of the file: the (label, language) pairs or the records of a
    legacy file, the (domain, label, language) triples of a domain-aware
    file, the labels or records of a single-language file.  It depends
    neither on [overwrite] nor on what the store held. *)
Theorem loaders_return_file_size (cat : LanguageCatalog) (fs : filesystem)
    (file_path : string) (overwrite : bool) (n : nat) :
  ((load_from_file fs file_path overwrite cat).2 = Ok n ->
   exists v, fs file_path = Parsed v /\ n = legacy_size v) /\
  ((load_domains_from_file fs file_path overwrite cat).2 = Ok n ->
   exists v, fs file_path = Parsed v /\ n = domains_size v) /\
  (forall lang domain,
     (load_language_only_from_file fs lang file_path overwrite domain cat).2 = Ok n ->
     exists v, fs file_path = Parsed v /\ n = single_size v).
Proof.
  split; [|split].
  - unfold load_from_file, _load_json.
    destruct (fs file_path) as [| |v]; [done..|]. intros H. exists v. split; [done|].
    destruct v as [| | | |records|data]; try done; simpl legacy_size.
    + apply (for_each_count _ (fun _ => 1)) in H; [by rewrite sum_list_ones in H|].
      intros rec count c m. destruct rec as [| | | | |rec]; try done.
      destruct (is_str (dict_get "label" rec)); [|done].
      destruct (is_str (dict_get "lang" rec)); [|done].
      destruct (is_str (dict_get "text" rec)); [|done].
      apply set_and_count_count.
    + apply (for_each_count _
               (fun '(_, mapping) => match mapping with JObject m => length m | _ => 0 end))
        in H; [exact H|].
      intros [label mapping] count c m. destruct mapping as [| | | | |mapping]; try done.
      apply legacy_object_count.
  - unfold load_domains_from_file, _load_json.
    destruct (fs file_path) as [| |v]; [done..|]. intros H. exists v. split; [done|].
    destruct v as [| | | | |data]; try done; simpl domains_size.
    apply (for_each_count _ (fun '(_, labels) => legacy_size labels)) in H; [exact H|].
    intros [dom labels] count c m. destruct labels as [| | | | |labels]; try done.
    simpl legacy_size. apply for_each_count.
    intros [label lang_map] count' c' m'. destruct lang_map as [| | | | |lang_map]; try done.
    rewrite <- sum_list_ones. apply for_each_count.
    intros [lang text] count'' c'' m''. destruct text; try done.
    apply set_and_count_count.
  - intros lang domain. unfold load_language_only_from_file, _load_json.
    destruct (_normalize_lang cat lang) as [code|]; [|done].
    destruct (fs file_path) as [| |v]; [done..|]. intros H. exists v. split; [done|].
    destruct v as [| | | |records|data]; try done; simpl single_size;
      (apply (for_each_count _ (fun _ => 1)) in H; [by rewrite sum_list_ones in H|]).
    + intros rec count c m. destruct rec as [| | | | |rec]; try done.
      destruct (is_str (dict_get "label" rec)); [|done].
      destruct (is_str (dict_get "text" rec)); [|done].
      apply set_and_count_count.
    + intros [label text] count c m. destruct text; try done. apply set_and_count_count.
Qed.

Lemma loaders_return_file_size_witness :
  (load_domains_from_file Sample.fs "messages.json" false Sample.catalog).2 = Ok 6 /\
  domains_size Sample.messages = 6 /\
  (load_from_file Sample.fs "legacy.json" false Sample.catalog).2 = Ok 1.
Proof.
  assert ((load_domains_from_file Sample.fs "messages.json" false Sample.catalog).2 = Ok 6)
    as Hdom by (by vm_compute).
  assert ((load_from_file Sample.fs "legacy.json" false Sample.catalog).2 = Ok 1)
    as Hleg by (by vm_compute).
  split; [exact Hdom|]. split; [|exact Hleg].
  destruct (loaders_return_file_size Sample.catalog Sample.fs "messages.json" false 6)
    as (_ & Hsize & _).
  destruct (Hsize Hdom) as (v & Hv & ->). by injection Hv as <-.
Defined.

(** ** More on the chain *)

Lemma string_app_assoc (a b c : string) : (a +:+ b) +:+ c = a +:+ (b +:+ c).
Proof.
  induction a as [|x a IH]; [done|].
  change (String x a +:+ b) with (String x (a +:+ b)).
  change (String x (a +:+ b) +:+ c) with (String x ((a +:+ b) +:+ c)).
  change (String x a +:+ (b +:+ c)) with (String x (a +:+ (b +:+ c))).
  by rewrite IH.
Qed.

Lemma join_cons sep p q rest :
  PyStr.join sep (p :: q :: rest) = p +:+ sep +:+ PyStr.join sep (q :: rest).
Proof. done. Qed.

Lemma join_app sep l1 l2 :
  l1 <> [] -> l2 <> [] ->
  PyStr.join sep (l1 ++ l2) = PyStr.join sep l1 +:+ sep +:+ PyStr.join sep l2.
Proof.
  intros H1 H2. induction l1 as [|p l1 IH]; [done|].
  destruct l2 as [|q2 l2]; [done|].
  destruct l1 as [|q l1].
  - done.
  - change ((p :: q :: l1) ++ q2 :: l2)%list with (p :: q :: (l1 ++ q2 :: l2))%list.
    rewrite !join_cons.
    change (q :: (l1 ++ q2 :: l2))%list with ((q :: l1) ++ q2 :: l2)%list.
    rewrite IH by done. by rewrite !string_app_assoc.
Qed.

Lemma split_no_sep sep s : Forall (fun p => PyStr.count sep p = 0) (PyStr.split sep s).
Proof.
  induction s as [|c s IH]; simpl.
  - by repeat constructor.
  - destruct (decide (c = sep)) as [->|Hc]; [by constructor|].
    destruct (PyStr.split sep s) as [|h t].
    { constructor; [|constructor]. simpl. by rewrite decide_False. }
    inversion IH as [|?? Hh Ht]; subst. constructor; [|done].
    simpl. by rewrite decide_False.
Qed.

Lemma count_join parts :
  Forall (fun p => PyStr.count "." p = 0) parts -> parts <> [] ->
  PyStr.count "." (PyStr.join "." parts) = length parts - 1.
Proof.
  intros Hall Hne. induction parts as [|p parts IH]; [done|].
  inversion Hall as [|?? Hp Hrest]; subst.
  destruct parts as [|q parts]; [done|].
  rewrite join_cons, !count_app, Hp, IH by done. simpl. lia.
Qed.

(** A proper prefix of the segments is a domain above: the domain starts
    with it followed by a dot. *)
Lemma prefix_is_ancestor parts i :
  0 < i -> i < length parts ->
  PyStr.startswith (PyStr.join "." (take i parts) +:+ ".") (PyStr.join "." parts) = true.
Proof.
  intros Hlo Hhi. apply startswith_spec. exists (PyStr.join "." (drop i parts)).
  rewrite <- (take_drop i parts) at 1.
  rewrite join_app.
  - by rewrite string_app_assoc.
  - intros H%(f_equal length). rewrite length_take in H. simpl in H. lia.
  - intros H%(f_equal length). rewrite length_drop in H. simpl in H. lia.
Qed.

Lemma prefixes_down_elem parts x :
  x ∈ prefixes_down parts <->
  exists i, 0 < i <= length parts /\ x = PyStr.join "." (take i parts).
Proof.
  unfold prefixes_down, range_down. rewrite list_elem_of_fmap.
  split; intros (i & H1 & H2).
  - apply elem_of_reverse, elem_of_seq in H2. exists i. split; [lia|done].
  - exists i. split; [done|]. apply elem_of_reverse, elem_of_seq. lia.
Qed.

Lemma prefixes_down_NoDup s : NoDup (prefixes_down (PyStr.split "." s)).
Proof.
  unfold prefixes_down, range_down.
  apply NoDup_fmap_2_strong; [|rewrite reverse_Permutation; apply NoDup_seq].
  pose proof (split_no_sep "." s) as Hno.
  assert (forall i, i ∈ reverse (seq 1 (length (PyStr.split "." s))) ->
            PyStr.count "." (PyStr.join "." (take i (PyStr.split "." s))) = i - 1) as Hcount.
  { intros i [Hlo Hhi]%elem_of_reverse%elem_of_seq.
    rewrite count_join.
    - rewrite length_take. lia.
    - by apply Forall_take.
    - intros H%(f_equal length). rewrite length_take in H. simpl in H. lia. }
  intros i j Hi Hj Heq. apply (f_equal (PyStr.count ".")) in Heq.
  rewrite (Hcount i Hi), (Hcount j Hj) in Heq.
  apply elem_of_reverse, elem_of_seq in Hi. apply elem_of_reverse, elem_of_seq in Hj. lia.
Qed.

Lemma domain_chain_elements (d : string) :
  let dn := _normalize_domain (Some d) in
  head (_domain_chain d) = Some dn /\
  NoDup (_domain_chain d) /\
  forall x, x ∈ _domain_chain d ->
    x = dn \/ PyStr.startswith (x +:+ ".") dn = true \/ x = ROOT_DOMAIN.
Proof.
  intros dn. split; [by destruct (domain_chain_head d) as [rest ->]|].
  unfold _domain_chain. fold dn.
  destruct (decide (dn = ROOT_DOMAIN)) as [Hroot|Hroot].
  { split; [apply NoDup_singleton|]. intros x ->%list_elem_of_singleton. by right; right. }
  assert (forall x, x ∈ prefixes_down (PyStr.split "." dn) ->
            x = dn \/ PyStr.startswith (x +:+ ".") dn = true) as Hanc.
  { intros x (i & [Hlo Hhi] & ->)%prefixes_down_elem.
    destruct (decide (i = length (PyStr.split "." dn))) as [->|Hi].
    - left. rewrite take_ge by done.
      change "."%string with (String "."%char EmptyString). apply join_split.
    - right. rewrite <- (join_split "." dn) at 2.
      apply prefix_is_ancestor; lia. }
  destruct (decide (last (prefixes_down (PyStr.split "." dn)) = Some ROOT_DOMAIN))
    as [Hlast|Hlast].
  - split; [apply prefixes_down_NoDup|]. intros x Hx. destruct (Hanc x Hx); auto.
  - split.
    + apply NoDup_app. split; [apply prefixes_down_NoDup|]. split; [|apply NoDup_singleton].
      intros x Hx ->%list_elem_of_singleton. apply Hlast.
      pose proof (split_nonempty "." dn) as Hne.
      destruct (PyStr.split "." dn) as [|p rest] eqn:Hparts; [done|].
      rewrite prefixes_down_cons in Hx |- *. rewrite last_snoc.
      apply elem_of_app in Hx as [Hx|Hx%list_elem_of_singleton]; [|by rewrite Hx].
      apply list_elem_of_fmap in Hx as (i & Hi & Hin).
      exfalso. by apply (longer_prefix_not_root p rest i Hin).
    + intros x [Hx|Hx%list_elem_of_singleton]%elem_of_app; [|by right; right].
      destruct (Hanc x Hx); auto.
Qed.

(** X12.  The chain starts with the normalized domain, never holds the same
    domain twice, and each of its elements is either that domain, a domain
    above it (the domain starts with the element followed by a dot), or the
    root. *)
Theorem domain_chain_ancestors (d : string) :
  let dn := _normalize_domain (Some d) in
  head (_domain_chain d) = Some dn /\
  NoDup (_domain_chain d) /\
  forall x, x ∈ _domain_chain d ->
    x = dn \/ PyStr.startswith (x +:+ ".") dn = true \/ x = ROOT_DOMAIN.
Proof. intros dn. exact (domain_chain_elements d). Qed.

Lemma domain_chain_ancestors_witness :
  "GLOBAL.DATABASE" ∈ _domain_chain " GLOBAL.DATABASE.ORACLE " /\
  PyStr.startswith ("GLOBAL.DATABASE" +:+ ".") "GLOBAL.DATABASE.ORACLE" = true.
Proof.
  assert ("GLOBAL.DATABASE" ∈ _domain_chain " GLOBAL.DATABASE.ORACLE ") as Hin.
  { change (_domain_chain " GLOBAL.DATABASE.ORACLE ")
      with ["GLOBAL.DATABASE.ORACLE"; "GLOBAL.DATABASE"; "GLOBAL"]. right. by left. }
  split; [exact Hin|].
  destruct (domain_chain_ancestors " GLOBAL.DATABASE.ORACLE ") as (_ & _ & Hanc).
  destruct (Hanc "GLOBAL.DATABASE" Hin) as [Heq|[Hsw|Heq]]; [discriminate Heq|exact Hsw|
    discriminate Heq].
Defined.

(** X13.  The resolver's ancestors and the listing's descendants agree:
    when [x] is a normalized element of the chain of [d], other than a root
    appended to a domain that does not start with [GLOBAL], the labels
    stored under (the normalized) [d] are in the recursive listing of [x]. *)
Theorem chain_listing_consistent (cat : LanguageCatalog) (d x l : string)
    (labels_map : gmap string (gmap string string)) :
  let dn := _normalize_domain (Some d) in
  x ∈ _domain_chain d ->
  normalized x ->
  x <> ROOT_DOMAIN \/ first_segment dn = Some ROOT_DOMAIN ->
  _data cat !! dn = Some labels_map -> l ∈ dom labels_map ->
  l ∈ list_labels cat (Some x) true.
Proof.
  intros dn Hx Hnorm Hroot Hd Hl.
  apply list_labels_elem. exists dn, labels_map. split; [|done].
  unfold in_scope. rewrite (normalize_domain_id x Hnorm).
  destruct (domain_chain_elements d) as (_ & _ & Hanc).
  destruct (Hanc x Hx) as [ -> | [Hsw | -> ] ]; [by left|by right|].
  destruct Hroot as [?|Hfirst]; [done|].
  unfold first_segment in Hfirst. fold dn in Hfirst |- *.
  pose proof (join_split "." dn) as Hjoin.
  destruct (PyStr.split "." dn) as [|p rest]; [done|]. injection Hfirst as ->.
  destruct rest as [|q rest].
  - left. by rewrite <- Hjoin.
  - right. split; [done|]. apply startswith_spec.
    exists (PyStr.join "." (q :: rest)). rewrite <- Hjoin.
    change (String "."%char EmptyString) with "."%string.
    by rewrite join_cons, string_app_assoc.
Qed.

Lemma chain_listing_consistent_witness :
  "GLOBAL" ∈ _domain_chain "GLOBAL.DATABASE.ORACLE" /\
  "ORA_LOCKED" ∈ list_labels Sample.catalog (Some "GLOBAL") true.
Proof.
  assert ("GLOBAL" ∈ _domain_chain "GLOBAL.DATABASE.ORACLE") as Hin.
  { change (_domain_chain "GLOBAL.DATABASE.ORACLE")
      with ["GLOBAL.DATABASE.ORACLE"; "GLOBAL.DATABASE"; "GLOBAL"]. right. right. by left. }
  split; [exact Hin|].
  set (labels_map := default ∅ (_data Sample.catalog !! "GLOBAL.DATABASE.ORACLE")).
  assert (_data Sample.catalog !! "GLOBAL.DATABASE.ORACLE" = Some labels_map) as Hl.
  { assert (is_Some (_data Sample.catalog !! "GLOBAL.DATABASE.ORACLE")) as [y Hy]
      by (refine (bool_decide_unpack _ _); by vm_compute).
    unfold labels_map. by rewrite Hy. }
  assert ("ORA_LOCKED" ∈ dom labels_map) as Hdom
    by (refine (bool_decide_unpack _ _); by vm_compute).
  apply (chain_listing_consistent Sample.catalog "GLOBAL.DATABASE.ORACLE" "GLOBAL"
           "ORA_LOCKED" labels_map Hin root_normalized (or_intror eq_refl) Hl Hdom).
Defined.

(** ** [_has_label] *)

(** X14.  [_has_label] is [True] exactly when the label is not empty and
    some domain of the chain of the current context holds it in the catalog
    default language: no other language counts, and a label that does not
    resolve gives [False], not an error. *)
Theorem has_label_spec (cat : LanguageCatalog) (label : string) :
  _has_label cat label = true <->
  label <> EmptyString /\
  exists d, d ∈ _domain_chain (_context_domain cat) /\
            is_Some (entry cat d label (_default_lang cat)).
Proof.
  unfold _has_label.
  destruct (decide (label = EmptyString)) as [->|Hlabel].
  { split; [done|]. by intros [? _]. }
  rewrite (get_text_nonempty cat label None None None None (_default_lang cat) None
             Hlabel eq_refl eq_refl).
  cbv zeta. unfold py_or.
  assert (forall chain,
            negb (raises (match get_text_loop (_data cat) label (_default_lang cat) None
                                  (_default_lang cat) chain with
                          | Some text => Ok text
                          | None => default_or_not_found None label
                                      (_domain_chain (_normalize_domain
                                                        (Some (_context_domain cat))))
                          end)) = true <->
            exists d, d ∈ chain /\ is_Some (entry cat d label (_default_lang cat))) as Hloop.
  { intros chain.
    destruct (get_text_loop _ _ _ _ _ chain) as [t|] eqn:Hl; simpl.
    - split; [|done]. intros _.
      apply (loop_some cat label (_default_lang cat) None eq_refl) in Hl
        as (pre & d & post & -> & _ & Hd).
      exists d. split; [apply elem_of_app; right; by left|].
      unfold tried_langs in Hd. simpl in Hd.
      destruct (entry cat d label (_default_lang cat)); [by eauto|done].
    - split; [done|]. intros (d & Hd & [t Ht]).
      pose proof (proj1 (loop_none cat label (_default_lang cat) None eq_refl chain) Hl
                    d (_default_lang cat) Hd) as Hnone.
      rewrite Hnone in Ht; [done|]. by left. }
  rewrite Hloop. split; intros H; [split; [done|]|destruct H as [_ H]];
    destruct H as (d & Hd & He); exists d; (split; [|done]).
  - unfold _domain_chain in *. by rewrite normalize_domain_idemp in Hd.
  - unfold _domain_chain in *. by rewrite normalize_domain_idemp.
Qed.

Lemma has_label_spec_witness :
  _has_label Sample.catalog "DATA_NOT_FOUND" = true /\
  _has_label (set_context Sample.catalog (Some "GLOBALIZATION")) "ORA_LOCKED" = false.
Proof.
  split; [|by vm_compute].
  apply (proj2 (has_label_spec Sample.catalog "DATA_NOT_FOUND")).
  split; [discriminate|]. exists "GLOBAL". split; [by left|]. by vm_compute; eexists.
Defined.

(** ** Loading twice *)

Section Writes.
Implicit Types data : gmap string (gmap string (gmap string string)).

Lemma write_same_key d l c t1 t2 data :
  write (d, l, c, t1) (write (d, l, c, t2) data) = write (d, l, c, t1) data.
Proof.
  unfold write. rewrite lookup_insert_eq. simpl. rewrite lookup_insert_eq. simpl.
  by rewrite !insert_insert_eq.
Qed.

Lemma write_other_key d l c t d' l' c' t' data :
  (d, l, c) <> (d', l', c') ->
  write (d, l, c, t) (write (d', l', c', t') data) =
  write (d', l', c', t') (write (d, l, c, t) data).
Proof.
  intros Hne. unfold write.
  destruct (decide (d = d')) as [<-|Hd].
  - rewrite !lookup_insert_eq. simpl. rewrite !insert_insert_eq. f_equal.
    destruct (decide (l = l')) as [<-|Hl].
    + rewrite !lookup_insert_eq. simpl. rewrite !insert_insert_eq. f_equal.
      apply insert_insert_ne. congruence.
    + rewrite !lookup_insert_ne by done. by apply insert_insert_ne.
  - rewrite !lookup_insert_ne by done. by apply insert_insert_ne.
Qed.

Lemma apply_writes_cons w ws data :
  apply_writes (w :: ws) data = apply_writes ws (write w data).
Proof. done. Qed.

Lemma apply_writes_app ws1 ws2 data :
  apply_writes (ws1 ++ ws2) data = apply_writes ws2 (apply_writes ws1 data).
Proof. apply foldl_app. Qed.

(** A write followed by a run of writes is absorbed by the run when the run
    writes the same triple, and can be done after it otherwise. *)
Lemma apply_writes_after_write w ws data :
  apply_writes ws (write w data) =
  if decide (write_key w ∈ write_key <$> ws) then apply_writes ws data
  else write w (apply_writes ws data).
Proof.
  revert data. induction ws as [|w1 ws IH]; intros data.
  - rewrite decide_False; [done|]. simpl. apply not_elem_of_nil.
  - rewrite !apply_writes_cons.
    destruct w as [[[d l] c] t], w1 as [[[d1 l1] c1] t1].
    destruct (decide ((d1, l1, c1) = (d, l, c))) as [[= -> -> ->]|Hne].
    + rewrite write_same_key. rewrite decide_True; [done|]. simpl. by left.
    + rewrite write_other_key by done. rewrite IH.
      destruct (decide (write_key (d, l, c, t) ∈ write_key <$> ws)) as [Hin|Hout].
      * rewrite decide_True; [done|]. rewrite fmap_cons. by right.
      * rewrite decide_False; [done|]. rewrite fmap_cons.
        intros [Heq|?]%elem_of_cons; [|done]. simpl in Heq. congruence.
Qed.

Lemma apply_writes_idemp ws data :
  apply_writes ws (apply_writes ws data) = apply_writes ws data.
Proof.
  revert data. induction ws as [|w ws IH]; intros data; [done|].
  rewrite !apply_writes_cons.
  rewrite (apply_writes_after_write w ws data).
  destruct (decide (write_key w ∈ write_key <$> ws)) as [Hin|Hout].
  - rewrite apply_writes_after_write, decide_True by done. apply IH.
  - assert (write w (write w (apply_writes ws data)) = write w (apply_writes ws data))
      as -> by (destruct w as [[[d l] c] t]; apply write_same_key).
    rewrite apply_writes_after_write, decide_False by done. by rewrite IH.
Qed.
End Writes.

Lemma set_and_count_oblivious cat label lang text domain :
  oblivious cat (set_and_count label lang text true domain).
Proof.
  unfold oblivious, set_and_count, set_text.
  destruct (PyStr.nonempty label).
  - assert (forall data, _normalize_lang (with_data cat data) lang = _normalize_lang cat lang)
      as Hlang by done.
    destruct (_normalize_lang cat lang) as [code|e] eqn:Hcode.
    + destruct text as [| | |text| |];
        try (exists [], (Some ValueError_Text); intros count data; by rewrite Hlang).
      exists [(_normalize_domain (Some (py_or (Some domain) (_context_domain cat))),
               label, code, text)], None.
      intros count data. by rewrite Hlang.
    + exists [], (Some e). intros count data. by rewrite Hlang.
  - exists [], (Some ValueError_Label). by intros count data.
Qed.

Lemma raise_oblivious cat e :
  oblivious cat (fun _ cat' => (cat', Raise e)).
Proof. exists [], (Some e). by intros count data. Qed.

Lemma for_each_oblivious {A} cat
    (body : A -> nat -> LanguageCatalog -> LanguageCatalog * result nat) items :
  (forall x, oblivious cat (body x)) ->
  oblivious cat (for_each body items).
Proof.
  intros Hbody. induction items as [|x rest IH].
  - exists [], None. intros count data. simpl. by rewrite Nat.add_0_r.
  - destruct (Hbody x) as (ws1 & o1 & H1). destruct IH as (ws2 & o2 & H2).
    destruct o1 as [e|].
    + exists ws1, (Some e). intros count data. simpl. by rewrite H1.
    + exists (ws1 ++ ws2)%list, o2. intros count data. simpl. rewrite H1, H2.
      rewrite apply_writes_app, length_app. destruct o2; [done|].
      by rewrite Nat.add_assoc.
Qed.

Lemma oblivious_loader cat (f : nat -> LanguageCatalog -> LanguageCatalog * result nat) :
  oblivious cat f ->
  exists ws r, forall data, f 0 (with_data cat data) = (with_data cat (apply_writes ws data), r).
Proof. intros (ws & o & H). eexists ws, _. intros data. apply H. Qed.

Lemma load_from_file_oblivious cat fs file_path :
  exists ws r, forall data,
    load_from_file fs file_path true (with_data cat data) =
    (with_data cat (apply_writes ws data), r).
Proof.
  unfold load_from_file.
  destruct (_load_json fs file_path) as [[| | | |records|items]|e];
    try (by eexists [], _; intros data).
  - apply oblivious_loader, for_each_oblivious. intros rec.
    destruct rec as [| | | | |rec]; try apply raise_oblivious.
    destruct (is_str (dict_get "label" rec)); [|apply raise_oblivious].
    destruct (is_str (dict_get "lang" rec)); [|apply raise_oblivious].
    destruct (is_str (dict_get "text" rec)); [|apply raise_oblivious].
    apply set_and_count_oblivious.
  - apply oblivious_loader, for_each_oblivious. intros [label mapping].
    destruct mapping as [| | | | |mapping]; try apply raise_oblivious.
    apply for_each_oblivious. intros [lang text]. apply set_and_count_oblivious.
Qed.

Lemma load_domains_from_file_oblivious cat fs file_path :
  exists ws r, forall data,
    load_domains_from_file fs file_path true (with_data cat data) =
    (with_data cat (apply_writes ws data), r).
Proof.
  unfold load_domains_from_file.
  destruct (_load_json fs file_path) as [[| | | |records|items]|e];
    try (by eexists [], _; intros data).
  apply oblivious_loader, for_each_oblivious. intros [dom labels].
  destruct labels as [| | | | |labels]; try apply raise_oblivious.
  apply for_each_oblivious. intros [label lang_map].
  destruct lang_map as [| | | | |lang_map]; try apply raise_oblivious.
  apply for_each_oblivious. intros [lang text].
  destruct text; try apply raise_oblivious. apply set_and_count_oblivious.
Qed.

Lemma load_language_only_from_file_oblivious cat fs lang file_path domain :
  exists ws r, forall data,
    load_language_only_from_file fs lang file_path true domain (with_data cat data) =
    (with_data cat (apply_writes ws data), r).
Proof.
  unfold load_language_only_from_file.
  assert (forall data, _normalize_lang (with_data cat data) lang = _normalize_lang cat lang)
    as Hlang by done.
  destruct (_normalize_lang cat lang) as [code|e] eqn:Hcode;
    [|eexists [], _; intros data; by rewrite Hlang].
  destruct (_load_json fs file_path) as [[| | | |records|items]|e];
    try (eexists [], _; intros data; by rewrite Hlang).
  - destruct (oblivious_loader cat _ (for_each_oblivious cat
      (fun rec count cat =>
         match rec with
         | JObject rec =>
             match is_str (dict_get "label" rec), is_str (dict_get "text" rec) with
             | Some label, Some text =>
                 set_and_count label code (JString text) true (_normalize_domain domain)
                   count cat
             | _, _ =>
                 (cat, Raise (ValueError_Format
                                "Each record must have string fields: label, text."))
             end
         | _ => (cat, Raise (ValueError_Format
                               "List form expects objects with keys: label, text."))
         end) records ltac:(
        intros rec; destruct rec as [| | | | |rec]; try apply raise_oblivious;
        destruct (is_str (dict_get "label" rec)); [|apply raise_oblivious];
        destruct (is_str (dict_get "text" rec)); [|apply raise_oblivious];
        apply set_and_count_oblivious))) as (ws & r & H).
    exists ws, r. intros data. rewrite Hlang. apply H.
  - destruct (oblivious_loader cat _ (for_each_oblivious cat
      (fun '(label, text) count cat =>
         match text with
         | JString _ =>
             set_and_count label code text true (_normalize_domain domain) count cat
         | _ => (cat, Raise (ValueError_Format
                               "Single-language JSON must map str labels to str texts."))
         end) items ltac:(
        intros [label text]; destruct text; try apply raise_oblivious;
        apply set_and_count_oblivious))) as (ws & r & H).
    exists ws, r. intros data. rewrite Hlang. apply H.
Qed.

Lemma oblivious_twice cat (f : LanguageCatalog -> LanguageCatalog * result nat) :
  (exists ws r, forall data, f (with_data cat data) = (with_data cat (apply_writes ws data), r)) ->
  f (f cat).1 = f cat.
Proof.
  intros (ws & r & H).
  assert (f cat = (with_data cat (apply_writes ws (_data cat)), r)) as ->.
  { rewrite <- (H (_data cat)). by rewrite with_data_id. }
  simpl. rewrite H. by rewrite apply_writes_idemp.
Qed.

(** X15.  Loading a file twice with [overwrite=True] is loading it once:
    the second run of any of the three loaders, and of [reload_from_file],
    on the catalog the first run left returns the same count or raises the
    same exception and leaves the very same catalog. *)
Theorem load_twice (cat : LanguageCatalog) (fs : filesystem) (file_path : string) :
  load_from_file fs file_path true (load_from_file fs file_path true cat).1
    = load_from_file fs file_path true cat /\
  load_domains_from_file fs file_path true (load_domains_from_file fs file_path true cat).1
    = load_domains_from_file fs file_path true cat /\
  (forall lang domain,
     load_language_only_from_file fs lang file_path true domain
       (load_language_only_from_file fs lang file_path true domain cat).1
     = load_language_only_from_file fs lang file_path true domain cat) /\
  reload_from_file fs file_path (reload_from_file fs file_path cat).1
    = reload_from_file fs file_path cat.
Proof.
  split; [|split; [|split]].
  - apply oblivious_twice, load_from_file_oblivious.
  - apply oblivious_twice, load_domains_from_file_oblivious.
  - intros lang domain. apply oblivious_twice, load_language_only_from_file_oblivious.
  - unfold reload_from_file.
    destruct (load_from_file_oblivious cat fs file_path) as (ws & r & H).
    change (with_data cat ∅) with (with_data cat (∅ : gmap string _)).
    rewrite (H ∅). simpl. apply (H ∅).
Qed.

(** ** The service's accessors *)

(** X16.  Through the service, resolving or formatting without a domain
    after [set_language_context(d)] is resolving or formatting with the
    normalized [d] as explicit domain.  Before [init_language] every
    accessor, [text] and [fmt] included, raises the "not initialized"
    [RuntimeError] and the service stays uninitialized.  The additive loaders
    work on the instance in place: it keeps its default language, allow-list
    and context, and its store invariant. *)
Theorem service_accessors (fs : filesystem) (kwargs_t : Type)
    (str_format : string -> kwargs_t -> option string) :
  (forall st d label lang dflt fallback_lang kwargs,
     Service.text label lang None dflt fallback_lang (Service.set_language_context d st).1 =
     Service.text label lang (Some (_normalize_domain d)) dflt fallback_lang st /\
     Service.fmt kwargs_t str_format label lang None dflt fallback_lang kwargs
       (Service.set_language_context d st).1 =
     Service.fmt kwargs_t str_format label lang (Some (_normalize_domain d)) dflt
       fallback_lang kwargs st) /\
  (forall d lang file_path overwrite domain label l dflt fb kwargs,
     get_language None = Raise RuntimeError_NotInitialized /\
     Service.set_language_context d None = (None, Raise RuntimeError_NotInitialized) /\
     Service.set_default_language lang None = (None, Raise RuntimeError_NotInitialized) /\
     Service.add_language_file fs file_path overwrite None
       = (None, Raise RuntimeError_NotInitialized) /\
     Service.add_domain_file fs file_path overwrite None
       = (None, Raise RuntimeError_NotInitialized) /\
     Service.add_single_language_file fs lang file_path overwrite domain None
       = (None, Raise RuntimeError_NotInitialized) /\
     Service.text label l domain dflt fb None = Raise RuntimeError_NotInitialized /\
     Service.fmt kwargs_t str_format label l domain dflt fb kwargs None
       = Raise RuntimeError_NotInitialized) /\
  (forall cat lang file_path overwrite domain,
     (exists cat', (Service.add_language_file fs file_path overwrite (Some cat)).1 = Some cat'
                   /\ evolves cat cat') /\
     (exists cat', (Service.add_domain_file fs file_path overwrite (Some cat)).1 = Some cat'
                   /\ evolves cat cat') /\
     (exists cat', (Service.add_single_language_file fs lang file_path overwrite domain
                      (Some cat)).1 = Some cat' /\ evolves cat cat')).
Proof.
  assert (forall cat d label lang dflt fallback_lang,
            get_text (set_context cat d) label lang fallback_lang dflt None =
            get_text cat label lang fallback_lang dflt (Some (_normalize_domain d))) as Hctx.
  { intros cat d label lang dflt fallback_lang. unfold get_text. simpl.
    pose proof (normalize_domain_normalized d) as [_ Hne%nonempty_true]. by rewrite Hne. }
  split; [|split].
  - intros [cat|] d label lang dflt fallback_lang kwargs; [|done].
    unfold Service.text, Service.fmt, fmt, Service.set_language_context, Service.on_instance.
    cbn [get_language fst result_bind]. by rewrite Hctx.
  - done.
  - intros cat lang file_path overwrite domain.
    unfold Service.add_language_file, Service.add_domain_file,
      Service.add_single_language_file, Service.on_instance, add_file. simpl.
    pose proof (load_from_file_keeps cat fs file_path overwrite cat (evolves_refl cat)) as H1.
    pose proof (load_domains_from_file_keeps cat fs file_path overwrite cat (evolves_refl cat))
      as H2.
    pose proof (load_language_only_from_file_keeps cat fs lang file_path overwrite domain cat
                  (evolves_refl cat)) as H3.
    destruct (load_from_file fs file_path overwrite cat) as [c1 r1].
    destruct (load_domains_from_file fs file_path overwrite cat) as [c2 r2].
    destruct (load_language_only_from_file fs lang file_path overwrite domain cat) as [c3 r3].
    eauto 10.
Qed.

(** ** The configuration store *)

Section ConfigFacts.
Context (str_format : string -> list (string * string) -> option string)
        (path_str : string -> string) (svc : service).

Lemma raise_with_fail {A} E msg (a : A) : Config.raise_with E msg <> Config.Done a.
Proof. by destruct msg. Qed.

(** X17.  After a successful [set_query], [get_query] returns for that
    label the SQL just given, or with [overwrite=False] the SQL the label
    already had; the other labels and the CSV configurations are as before,
    and the stored SQL is never blank. *)
Theorem set_query_get_query (cfg cfg' : Config.CsvReporterConfig) (label s : string)
    (overwrite : bool) :
  Config.set_query svc cfg label (JString s) overwrite = Config.Done cfg' ->
  Config.get_query str_format svc cfg' label =
    Config.Done (if overwrite then s else default s (Config._queries cfg !! label)) /\
  (forall l, l <> label -> Config._queries cfg' !! l = Config._queries cfg !! l) /\
  Config._csv_configs cfg' = Config._csv_configs cfg /\
  PyStr.strip s <> EmptyString.
Proof.
  unfold Config.set_query, Config.get_query.
  destruct (PyStr.nonempty (PyStr.strip s)) eqn:Hs; simpl.
  - apply nonempty_true in Hs.
    destruct (negb overwrite && _) eqn:Hskip; intros [= <-]; simpl.
    + apply andb_true_iff in Hskip as [Hov [old Hold]%bool_decide_eq_true].
      destruct overwrite; [done|]. by rewrite Hold.
    + rewrite lookup_insert_eq. split; [|split; [|done]].
      * f_equal. destruct overwrite; [done|]. simpl in Hskip.
        apply bool_decide_eq_false in Hskip.
        destruct (Config._queries cfg !! label); [destruct Hskip; eauto|done].
      * intros l Hl. by rewrite lookup_insert_ne.
  - intros H. by apply raise_with_fail in H.
Qed.
(** X18.  [get_query] never returns for a label that has no query.  What it
    raises depends on the language service: its [KeyError] carries the text
    of [ERR_UNKNOWN_QUERY_LABEL], formatted with the label or left as it is
    when formatting fails; when the service is not initialized, or cannot
    resolve that text, the error of the language service comes out
    instead. *)
Theorem get_query_missing (cfg : Config.CsvReporterConfig) (label : string) :
  Config._queries cfg !! label = None ->
  (forall sql, Config.get_query str_format svc cfg label <> Config.Done sql) /\
  (svc = None ->
   Config.get_query str_format svc cfg label =
     Config.Fail (Config.LanguageError RuntimeError_NotInitialized)) /\
  (forall cat e,
     svc = Some cat ->
     get_text cat "ERR_UNKNOWN_QUERY_LABEL" None None None None = Raise e ->
     Config.get_query str_format svc cfg label = Config.Fail (Config.LanguageError e)) /\
  (forall cat template,
     svc = Some cat ->
     get_text cat "ERR_UNKNOWN_QUERY_LABEL" None None None None = Ok template ->
     Config.get_query str_format svc cfg label =
       Config.Fail (Config.CfgKeyError
                      (default template (str_format template [("q_label", label)])))).
Proof.
  intros Hmiss. unfold Config.get_query. rewrite Hmiss.
  split; [intros sql; apply raise_with_fail|]. split; [by intros ->|].
  unfold Config.lang_fmt, fmt. split.
  - intros cat e -> Hget. simpl. by rewrite Hget.
  - intros cat template -> Hget. simpl. rewrite Hget. simpl.
    by destruct (str_format template _).
Qed.

Lemma load_queries_loop_spec overwrite items count cfg cfg' n :
  Config.load_queries_loop str_format svc overwrite items count cfg = (cfg', Config.Done n) ->
  Config._csv_configs cfg' = Config._csv_configs cfg /\
  (overwrite = true -> n = count + length items) /\
  (overwrite = false ->
   size (Config._queries cfg') + count = size (Config._queries cfg) + n /\
   forall k v, Config._queries cfg !! k = Some v -> Config._queries cfg' !! k = Some v).
Proof.
  revert count cfg. induction items as [|[k v] rest IH]; intros count cfg; simpl.
  - intros [= <- <-]. split; [done|]. split; [intros _; lia|]. by intros _.
  - destruct v as [| | |sql| |];
      try (intros H; injection H as _ H; by destruct (Config.lang_fmt _ _ _ _)).
    destruct (negb (bool_decide (is_Some (Config._queries cfg !! k))) || overwrite) eqn:Hw.
    + intros (Hc & Htrue & Hfalse)%IH. simpl in *. split; [done|]. split.
      * intros Hov. rewrite (Htrue Hov). lia.
      * intros ->. rewrite orb_false_r in Hw. apply negb_true_iff, bool_decide_eq_false in Hw.
        assert (Config._queries cfg !! k = None) as Hnone.
        { destruct (Config._queries cfg !! k); [destruct Hw; eauto|done]. }
        destruct (Hfalse eq_refl) as [Hsize Hkeep].
        rewrite map_size_insert_None in Hsize by done. split; [lia|].
        intros k' v' Hk'. apply Hkeep. rewrite lookup_insert_ne; [done|]. congruence.
    + intros (Hc & Htrue & Hfalse)%IH. split; [done|].
      apply orb_false_iff in Hw as [_ ->]. split; [done|]. intros _.
      destruct (Hfalse eq_refl) as [Hsize Hkeep]. split; [lia|done].
Qed.

(** X19.  When [load_queries_from_file] returns, the CSV configurations are
    untouched and the count is the number of queries it wrote: with
    [overwrite=True] every entry of the file, with [overwrite=False] exactly
    the labels that were new, so that the store grew by the count returned
    and no existing query changed. *)
Theorem load_queries_count (fs : filesystem) (file_path : string) (overwrite : bool)
    (cfg cfg' : Config.CsvReporterConfig) (n : nat) :
  Config.load_queries_from_file str_format path_str svc fs file_path overwrite cfg
    = (cfg', Config.Done n) ->
  Config._csv_configs cfg' = Config._csv_configs cfg /\
  (overwrite = true -> exists data, fs file_path = Parsed (JObject data) /\ n = length data) /\
  (overwrite = false ->
   size (Config._queries cfg') = size (Config._queries cfg) + n /\
   forall k v, Config._queries cfg !! k = Some v -> Config._queries cfg' !! k = Some v).
Proof.
  unfold Config.load_queries_from_file, Config._load_json_dict.
  destruct (fs file_path) as [| |[| | | | |data]];
    try (by destruct (Config.lang_fmt _ _ _ _));
    try (by destruct (Config.lang_text _ _)); try done.
  intros (Hc & Htrue & Hfalse)%load_queries_loop_spec. split; [done|]. split.
  - intros Hov. exists data. split; [done|]. by rewrite (Htrue Hov).
  - intros Hov. destruct (Hfalse Hov) as [Hsize Hkeep]. split; [lia|done].
Qed.
End ConfigFacts.

Section ConfigNormalize.
Context (svc : service).
Implicit Types m cfg out : gmap string json.

Lemma setdefault_keep k v m k' x :
  m !! k' = Some x -> Config.setdefault k v m !! k' = Some x.
Proof.
  intros Hk'. unfold Config.setdefault. destruct (m !! k) eqn:Hk; [done|].
  rewrite lookup_insert_ne; [done|]. congruence.
Qed.

Lemma setdefault_present k v m : is_Some (Config.setdefault k v m !! k).
Proof.
  unfold Config.setdefault. destruct (m !! k) eqn:Hk; [by rewrite Hk|].
  rewrite lookup_insert_eq. eauto.
Qed.

Lemma setdefault_other k v m k' : k' <> k -> Config.setdefault k v m !! k' = m !! k'.
Proof.
  intros Hne. unfold Config.setdefault. destruct (m !! k); [done|].
  by rewrite lookup_insert_ne.
Qed.

Lemma setdefault_id k v m : is_Some (m !! k) -> Config.setdefault k v m = m.
Proof. intros [x Hx]. unfold Config.setdefault. by rewrite Hx. Qed.

Lemma with_defaults_keep cfg k x :
  cfg !! k = Some x -> Config.with_defaults cfg !! k = Some x.
Proof. intros H. unfold Config.with_defaults. by repeat apply setdefault_keep. Qed.

Lemma with_defaults_present cfg k :
  k ∈ csv_default_keys -> is_Some (Config.with_defaults cfg !! k).
Proof.
  assert (forall k' v m, is_Some (m !! k) -> is_Some (Config.setdefault k' v m !! k)) as Hkeep.
  { intros k' v m [x Hx]. exists x. by apply setdefault_keep. }
  unfold csv_default_keys, Config.with_defaults. intros Hk.
  repeat (apply elem_of_cons in Hk as [->|Hk];
          [repeat first [apply setdefault_present | apply Hkeep]|]).
  by apply elem_of_nil in Hk.
Qed.

Lemma with_defaults_other cfg k :
  k ∉ csv_default_keys -> Config.with_defaults cfg !! k = cfg !! k.
Proof.
  intros Hk. unfold Config.with_defaults.
  rewrite !setdefault_other; [done|..]; intros ->; apply Hk; unfold csv_default_keys;
    set_solver.
Qed.

Lemma with_defaults_idemp cfg :
  Config.with_defaults (Config.with_defaults cfg) = Config.with_defaults cfg.
Proof.
  set (out := Config.with_defaults cfg).
  assert (forall k, k ∈ csv_default_keys -> is_Some (out !! k)) as Hpresent
    by (intros k; apply with_defaults_present).
  unfold Config.with_defaults at 1.
  rewrite (setdefault_id "delimiter"), (setdefault_id "quotechar"),
    (setdefault_id "quoting"), (setdefault_id "decimal"), (setdefault_id "encoding"),
    (setdefault_id "header"), (setdefault_id "missing"), (setdefault_id "geometry_format");
    [done|..]; apply Hpresent; unfold csv_default_keys; set_solver.
Qed.

(** X20.  When [_normalize_csv_config] returns, the result keeps every key
    of the configuration it was given with its value, has the eight standard
    keys, holds a one-character delimiter and quote character, one of the
    four quoting names and [.] or [,] as decimal separator; keys it knows
    nothing about pass through, and normalizing the result again returns it
    unchanged. *)
Theorem normalize_csv_config_spec (cfg out : gmap string json) :
  Config._normalize_csv_config svc cfg = Config.Done out ->
  (forall k x, cfg !! k = Some x -> out !! k = Some x) /\
  (forall k, k ∈ csv_default_keys -> is_Some (out !! k)) /\
  (forall k, k ∉ csv_default_keys -> out !! k = cfg !! k) /\
  (exists d q, out !! "delimiter" = Some (JString d) /\ String.length d = 1 /\
               out !! "quotechar" = Some (JString q) /\ String.length q = 1) /\
  (exists s, out !! "quoting" = Some (JString s) /\ s ∈ Config.quoting_names) /\
  (exists s, out !! "decimal" = Some (JString s) /\ (s = "." \/ s = ",")) /\
  Config._normalize_csv_config svc out = Config.Done out.
Proof.
  unfold Config._normalize_csv_config at 1. cbv zeta.
  set (o := Config.with_defaults cfg).
  destruct (Config.one_char o "delimiter") eqn:Hd; simpl;
    [|intros H; by apply raise_with_fail in H].
  destruct (Config.one_char o "quotechar") eqn:Hq; simpl;
    [|intros H; by apply raise_with_fail in H].
  destruct (Config.member_of o "quoting" Config.quoting_names) as [[|]|] eqn:Hquoting;
    [|intros H; by apply raise_with_fail in H|done].
  destruct (Config.member_of o "decimal" ["."; ","]) as [[|]|] eqn:Hdec;
    [|intros H; by apply raise_with_fail in H|done].
  intros [= <-].
  split; [apply with_defaults_keep|]. split; [apply with_defaults_present|].
  split; [apply with_defaults_other|]. split; [|split; [|split]].
  - unfold Config.one_char in Hd, Hq.
    destruct (o !! "delimiter") as [[| | |d| |]|]; try done.
    destruct (o !! "quotechar") as [[| | |q| |]|]; try done.
    exists d, q. by rewrite (proj1 (Nat.eqb_eq _ _) Hd), (proj1 (Nat.eqb_eq _ _) Hq).
  - unfold Config.member_of in Hquoting.
    destruct (o !! "quoting") as [[| | |s| |]|]; try done.
    injection Hquoting as Hs%bool_decide_eq_true. by exists s.
  - unfold Config.member_of in Hdec.
    destruct (o !! "decimal") as [[| | |s| |]|]; try done.
    injection Hdec as Hs%bool_decide_eq_true. exists s. split; [done|].
    apply elem_of_cons in Hs as [->|Hs]; [by left|].
    apply list_elem_of_singleton in Hs as ->. by right.
  - unfold Config._normalize_csv_config. cbv zeta.
    assert (Config.with_defaults o = o) as -> by apply with_defaults_idemp.
    rewrite Hd, Hq. simpl. by rewrite Hquoting, Hdec.
Qed.
End ConfigNormalize.

Section ConfigInvariant.
Context (str_format : string -> list (string * string) -> option string)
        (path_str : string -> string) (svc : service).

Lemma normalize_csv_config_valid (c out : gmap string json) :
  Config._normalize_csv_config svc c = Config.Done out -> csv_valid out.
Proof.
  unfold Config._normalize_csv_config. cbv zeta.
  destruct (Config.one_char _ "delimiter") eqn:Hd; simpl;
    [|intros H; by apply raise_with_fail in H].
  destruct (Config.one_char _ "quotechar") eqn:Hq; simpl;
    [|intros H; by apply raise_with_fail in H].
  destruct (Config.member_of _ "quoting" Config.quoting_names) as [[|]|] eqn:Hquoting;
    [|intros H; by apply raise_with_fail in H|done].
  destruct (Config.member_of _ "decimal" ["."; ","]) as [[|]|] eqn:Hdec;
    [|intros H; by apply raise_with_fail in H|done].
  intros [= <-]. split; [|done].
  apply Forall_forall. intros k Hk. by apply with_defaults_present.
Qed.

Lemma csv_store_valid_insert cfg q label out :
  csv_store_valid cfg -> csv_valid out ->
  csv_store_valid (Config.mkConfig q (<[label := out]> (Config._csv_configs cfg))).
Proof. intros Hcfg Hout. by apply map_Forall_insert_2. Qed.

Lemma load_csv_configs_loop_valid overwrite items count cfg :
  csv_store_valid cfg ->
  csv_store_valid (Config.load_csv_configs_loop str_format svc overwrite items count cfg).1 /\
  Config._queries (Config.load_csv_configs_loop str_format svc overwrite items count cfg).1
    = Config._queries cfg.
Proof.
  revert count cfg. induction items as [|[k v] rest IH]; intros count cfg Hcfg; [done|].
  cbn [Config.load_csv_configs_loop].
  destruct v as [| | | | |c]; try done.
  destruct (negb _ || overwrite); [|by apply IH].
  destruct (Config._normalize_csv_config svc (Config.dict_of c)) as [out|e] eqn:Hn; [|done].
  apply normalize_csv_config_valid in Hn.
  destruct (IH (count + 1)
              (Config.mkConfig (Config._queries cfg) (<[k := out]> (Config._csv_configs cfg))))
    as [H1 H2]; [by apply csv_store_valid_insert|]. by split.
Qed.

Lemma load_queries_loop_csv overwrite items count cfg :
  Config._csv_configs (Config.load_queries_loop str_format svc overwrite items count cfg).1
    = Config._csv_configs cfg.
Proof.
  revert count cfg. induction items as [|[k v] rest IH]; intros count cfg; [done|].
  cbn [Config.load_queries_loop].
  destruct v as [| | |sql| |]; try done.
  destruct (negb _ || overwrite); by rewrite IH.
Qed.

(** X21.  Every CSV configuration the store holds is valid, and stays so:
    if all stored configurations are valid, they still are after
    [set_csv_config] and [set_query] return and after the two file loaders
    return or raise part-way; so what [get_csv_config] returns is valid.
    The CSV loader never touches the queries, the query loader never touches
    the CSV configurations. *)
Theorem csv_store_invariant (cfg : Config.CsvReporterConfig) :
  csv_store_valid cfg ->
  (forall label c overwrite cfg',
     Config.set_csv_config svc cfg label c overwrite = Config.Done cfg' ->
     csv_store_valid cfg' /\ Config._queries cfg' = Config._queries cfg) /\
  (forall label sql overwrite cfg',
     Config.set_query svc cfg label sql overwrite = Config.Done cfg' ->
     Config._csv_configs cfg' = Config._csv_configs cfg) /\
  (forall fs file_path overwrite,
     let cfg' := (Config.load_csv_configs_from_file str_format path_str svc fs file_path
                    overwrite cfg).1 in
     csv_store_valid cfg' /\ Config._queries cfg' = Config._queries cfg) /\
  (forall fs file_path overwrite,
     Config._csv_configs (Config.load_queries_from_file str_format path_str svc fs file_path
                            overwrite cfg).1 = Config._csv_configs cfg) /\
  (forall label c, Config.get_csv_config str_format svc cfg label = Config.Done c ->
                   csv_valid c).
Proof.
  intros Hcfg. split; [|split; [|split; [|split]]].
  - intros label c overwrite cfg'. unfold Config.set_csv_config.
    destruct c as [| | | | |items]; try (intros H; by apply raise_with_fail in H).
    destruct (negb overwrite && _); [by intros [= <-]|].
    destruct (Config._normalize_csv_config svc (Config.dict_of items)) as [out|e] eqn:Hn;
      [|done].
    intros [= <-]. split; [|done].
    apply csv_store_valid_insert; [done|]. by apply normalize_csv_config_valid in Hn.
  - intros label sql overwrite cfg'. unfold Config.set_query.
    destruct sql as [| | |s| |]; try (intros H; by apply raise_with_fail in H).
    destruct (negb (PyStr.nonempty _)); [intros H; by apply raise_with_fail in H|].
    destruct (negb overwrite && _); by intros [= <-].
  - intros fs file_path overwrite. cbv zeta. unfold Config.load_csv_configs_from_file.
    destruct (Config._load_json_dict _ _ _ _ _) as [data|e]; [|done].
    by apply load_csv_configs_loop_valid.
  - intros fs file_path overwrite. unfold Config.load_queries_from_file.
    destruct (Config._load_json_dict _ _ _ _ _) as [data|e]; [|done].
    apply load_queries_loop_csv.
  - intros label c. unfold Config.get_csv_config.
    destruct (Config._csv_configs cfg !! label) as [c'|] eqn:Hc;
      [|intros H; by apply raise_with_fail in H].
    intros [= <-]. by apply (Hcfg label).
Qed.
End ConfigInvariant.

Lemma set_query_get_query_witness :
  Config.set_query None ConfigSample.one_query "Q1" (JString "SELECT 1 FROM DUAL") false
    = Config.Done ConfigSample.one_query /\
  Config.get_query plain_format None ConfigSample.one_query "Q1"
    = Config.Done "SELECT 0 FROM DUAL".
Proof.
  assert (Config.set_query None ConfigSample.one_query "Q1" (JString "SELECT 1 FROM DUAL") false
          = Config.Done ConfigSample.one_query) as H by reflexivity.
  split; [exact H|].
  exact (proj1 (set_query_get_query plain_format None _ _ _ _ _ H)).
Defined.

Lemma get_query_missing_witness :
  Config._queries ConfigSample.one_query !! "Q2" = None /\
  Config.get_query plain_format None ConfigSample.one_query "Q2"
    = Config.Fail (Config.LanguageError RuntimeError_NotInitialized).
Proof.
  assert (Config._queries ConfigSample.one_query !! "Q2" = None) as H by reflexivity.
  split; [exact H|].
  exact (proj1 (proj2 (get_query_missing plain_format None _ _ H)) eq_refl).
Defined.

Lemma load_queries_count_witness :
  let cfg' := Config.mkConfig
                (<["Q2" := "SELECT 2 FROM DUAL"]> (<["Q1" := "SELECT 0 FROM DUAL"]> ∅)) ∅ in
  Config.load_queries_from_file plain_format (fun p => p) None ConfigSample.fs "queries.json"
    false ConfigSample.one_query = (cfg', Config.Done 1) /\
  size (Config._queries cfg') = size (Config._queries ConfigSample.one_query) + 1.
Proof.
  cbv zeta.
  assert (Config.load_queries_from_file plain_format (fun p => p) None ConfigSample.fs
            "queries.json" false ConfigSample.one_query
          = (Config.mkConfig
               (<["Q2" := "SELECT 2 FROM DUAL"]> (<["Q1" := "SELECT 0 FROM DUAL"]> ∅)) ∅,
             Config.Done 1)) as H by (by vm_compute).
  split; [exact H|].
  exact (proj1 (proj2 (proj2 (load_queries_count plain_format (fun p => p) None _ _ _ _ _ _ H))
                 eq_refl)).
Defined.

Lemma normalize_csv_config_spec_witness :
  let out := Config.with_defaults (<["delimiter" := JString ","]> ∅) in
  Config._normalize_csv_config None (<["delimiter" := JString ","]> ∅) = Config.Done out /\
  Config._normalize_csv_config None out = Config.Done out.
Proof.
  cbv zeta.
  assert (Config._normalize_csv_config None (<["delimiter" := JString ","]> ∅)
          = Config.Done (Config.with_defaults (<["delimiter" := JString ","]> ∅))) as H
    by reflexivity.
  split; [exact H|].
  exact (proj2 (proj2 (proj2 (proj2 (proj2 (proj2
           (normalize_csv_config_spec None _ _ H))))))).
Defined.

Lemma csv_store_invariant_witness :
  csv_store_valid Config.empty /\
  csv_store_valid (Config.load_csv_configs_from_file plain_format (fun p => p) None
                     ConfigSample.fs "csv_configs.json" true Config.empty).1.
Proof.
  assert (csv_store_valid Config.empty) as H by apply map_Forall_empty.
  split; [exact H|].
  exact (proj1 (proj1 (proj2 (proj2 (csv_store_invariant plain_format (fun p => p) None _ H)))
                 ConfigSample.fs "csv_configs.json" true)).
Defined.

Section ConfigFromFiles.
Context (str_format : string -> list (string * string) -> option string)
        (path_str : string -> string) (svc : service).

Lemma load_queries_loop_fresh overwrite items count cfg :
  NoDup items.*1 ->
  (forall k, k ∈ items.*1 -> Config._queries cfg !! k = None) ->
  Config.load_queries_loop str_format svc overwrite items count cfg
  = Config.load_queries_loop str_format svc true items count cfg.
Proof.
  revert count cfg. induction items as [|[k v] rest IH]; intros count cfg Hnd Hfresh; [done|].
  cbn [Config.load_queries_loop]. destruct v as [| | |sql| |]; try done.
  apply NoDup_cons in Hnd as [Hk Hnd].
  rewrite (Hfresh k) by (by left). rewrite orb_true_r.
  assert (bool_decide (is_Some (@None string)) = false) as ->
    by (apply bool_decide_eq_false; by intros [? ?]).
  simpl. apply IH; [done|]. intros k' Hk'. simpl.
  rewrite lookup_insert_ne; [apply Hfresh; by right|]. intros ->. by apply Hk.
Qed.

Lemma load_csv_configs_loop_fresh overwrite items count cfg :
  NoDup items.*1 ->
  (forall k, k ∈ items.*1 -> Config._csv_configs cfg !! k = None) ->
  Config.load_csv_configs_loop str_format svc overwrite items count cfg
  = Config.load_csv_configs_loop str_format svc true items count cfg.
Proof.
  revert count cfg. induction items as [|[k v] rest IH]; intros count cfg Hnd Hfresh; [done|].
  cbn [Config.load_csv_configs_loop]. destruct v as [| | | | |c]; try done.
  apply NoDup_cons in Hnd as [Hk Hnd].
  rewrite (Hfresh k) by (by left). rewrite orb_true_r.
  assert (bool_decide (is_Some (@None (gmap string json))) = false) as ->
    by (apply bool_decide_eq_false; by intros [? ?]).
  cbn [negb orb]. destruct (Config._normalize_csv_config svc (Config.dict_of c)) as [out|e];
    [|done].
  apply IH; [done|]. intros k' Hk'. cbn [Config._csv_configs].
  rewrite lookup_insert_ne; [apply Hfresh; by right|]. intros ->. by apply Hk.
Qed.

Lemma key_of_item {A} (k : string) (v : A) (items : list (string * A)) :
  (k, v) ∈ items -> k ∈ items.*1.
Proof. intros H. apply list_elem_of_fmap. by exists (k, v). Qed.

Lemma load_queries_loop_lookup items count cfg cfg' n :
  Config.load_queries_loop str_format svc true items count cfg = (cfg', Config.Done n) ->
  NoDup items.*1 ->
  forall k sql,
    Config._queries cfg' !! k = Some sql <->
    (k, JString sql) ∈ items \/ ((k ∉ items.*1) /\ Config._queries cfg !! k = Some sql).
Proof.
  revert count cfg. induction items as [|[k0 v] rest IH]; intros count cfg.
  - intros [= <- <-] _ k sql. split; [intros H; right; split; [apply not_elem_of_nil|done]|].
    intros [H|[_ H]]; [by apply elem_of_nil in H|done].
  - cbn [Config.load_queries_loop].
    destruct v as [| | |s0| |];
      try (intros H; injection H as _ H; by destruct (Config.lang_fmt _ _ _ _)).
    rewrite orb_true_r. intros Hloop [Hk0 Hnd]%NoDup_cons k sql.
    rewrite (IH _ _ Hloop Hnd k sql). simpl. rewrite elem_of_cons, not_elem_of_cons.
    destruct (decide (k = k0)) as [->|Hne].
    + rewrite lookup_insert_eq. split.
      * intros [H|[_ [= ->]]]; [by apply key_of_item in H|]. by left; left.
      * intros [[[= ->]|H]|[[H _] _]]; [|by apply key_of_item in H|done]. by right.
    + rewrite lookup_insert_ne by done. split.
      * intros [H|[H1 H2]]; [by left; right|by right].
      * intros [[[= -> _]|H]|[[_ H1] H2]]; [done|by left|by right].
Qed.

Lemma load_csv_configs_loop_lookup items count cfg cfg' n :
  Config.load_csv_configs_loop str_format svc true items count cfg = (cfg', Config.Done n) ->
  NoDup items.*1 ->
  forall k out,
    Config._csv_configs cfg' !! k = Some out <->
    (exists c, (k, JObject c) ∈ items /\
               Config._normalize_csv_config svc (Config.dict_of c) = Config.Done out) \/
    ((k ∉ items.*1) /\ Config._csv_configs cfg !! k = Some out).
Proof.
  revert count cfg. induction items as [|[k0 v] rest IH]; intros count cfg.
  - intros [= <- <-] _ k out. split; [intros H; right; split; [apply not_elem_of_nil|done]|].
    intros [(c & H & _)|[_ H]]; [by apply elem_of_nil in H|done].
  - cbn [Config.load_csv_configs_loop].
    destruct v as [| | | | |c0];
      try (intros H; injection H as _ H; by destruct (Config.lang_fmt _ _ _ _)).
    rewrite orb_true_r.
    destruct (Config._normalize_csv_config svc (Config.dict_of c0)) as [out0|e] eqn:Hn;
      [|done].
    intros Hloop [Hk0 Hnd]%NoDup_cons k out.
    rewrite (IH _ _ Hloop Hnd k out). simpl. rewrite not_elem_of_cons.
    destruct (decide (k = k0)) as [->|Hne].
    + rewrite lookup_insert_eq. split.
      * intros [(c & H & _)|[_ [= ->]]]; [by apply key_of_item in H|].
        left. exists c0. split; [by left|done].
      * intros [(c & [[= ->]|H]%elem_of_cons & Hc)|[[H _] _]];
          [|by apply key_of_item in H|done].
        right. split; [done|]. congruence.
    + rewrite lookup_insert_ne by done. split.
      * intros [(c & H & Hc)|[H1 H2]]; [|by right].
        left. exists c. split; [by right|done].
      * intros [(c & [[= -> _]|H]%elem_of_cons & Hc)|[[_ H1] H2]]; [done| |by right].
        left. by exists c.
Qed.

(** X22.  [from_files] on files whose objects have pairwise distinct keys
    (as every parsed object has): [overwrite] makes no difference, whether
    it returns or raises; and when it returns, the instance holds exactly the
    queries of the first file, each label with its SQL, and for each label of
    the second file the normalized form of its configuration, and nothing
    else. *)
Theorem from_files_spec (fs : filesystem) (queries_path csv_configs_path : string)
    (overwrite : bool) :
  (forall data, fs queries_path = Parsed (JObject data) -> NoDup data.*1) ->
  (forall data, fs csv_configs_path = Parsed (JObject data) -> NoDup data.*1) ->
  Config.from_files str_format path_str svc fs queries_path csv_configs_path overwrite
  = Config.from_files str_format path_str svc fs queries_path csv_configs_path true /\
  forall inst,
    Config.from_files str_format path_str svc fs queries_path csv_configs_path overwrite
    = Config.Done inst ->
    exists qs cs,
      fs queries_path = Parsed (JObject qs) /\
      fs csv_configs_path = Parsed (JObject cs) /\
      (forall k sql, Config._queries inst !! k = Some sql <-> (k, JString sql) ∈ qs) /\
      (forall k out,
         Config._csv_configs inst !! k = Some out <->
         exists c, (k, JObject c) ∈ cs /\
                   Config._normalize_csv_config svc (Config.dict_of c) = Config.Done out).
Proof.
  intros Hq Hc.
  assert (Config.from_files str_format path_str svc fs queries_path csv_configs_path overwrite
          = Config.from_files str_format path_str svc fs queries_path csv_configs_path true)
    as Heq.
  { unfold Config.from_files, Config.load_queries_from_file,
      Config.load_csv_configs_from_file, Config._load_json_dict.
    destruct (fs queries_path) as [| |[| | | | |qs]] eqn:Hqs;
      try (by destruct (Config.lang_fmt _ _ _ _)); try (by destruct (Config.lang_text _ _));
      try done.
    cbv beta iota. rewrite (load_queries_loop_fresh overwrite) by (by auto).
    pose proof (load_queries_loop_csv str_format svc true qs 0 Config.empty) as Hcsv.
    destruct (Config.load_queries_loop str_format svc true qs 0 Config.empty)
      as [inst [n|e]]; [|done].
    destruct (fs csv_configs_path) as [| |[| | | | |cs]] eqn:Hcs;
      try (by destruct (Config.lang_fmt _ _ _ _)); try (by destruct (Config.lang_text _ _));
      try done.
    cbv beta iota. rewrite (load_csv_configs_loop_fresh overwrite); [done|by auto|].
    intros k _. simpl in Hcsv. by rewrite Hcsv. }
  split; [done|]. rewrite Heq. clear Heq. intros inst.
  unfold Config.from_files, Config.load_queries_from_file,
    Config.load_csv_configs_from_file, Config._load_json_dict.
  destruct (fs queries_path) as [| |[| | | | |qs]] eqn:Hqs;
    try (by destruct (Config.lang_fmt _ _ _ _)); try (by destruct (Config.lang_text _ _));
    try done.
  cbv beta iota.
  pose proof (load_queries_loop_csv str_format svc true qs 0 Config.empty) as Hcsv.
  destruct (Config.load_queries_loop str_format svc true qs 0 Config.empty)
    as [inst1 [n1|e1]] eqn:Hl1; [|done].
  pose proof (load_queries_loop_lookup _ _ _ _ _ Hl1 (Hq _ eq_refl)) as Hlook1.
  destruct (fs csv_configs_path) as [| |[| | | | |cs]] eqn:Hcs;
    try (by destruct (Config.lang_fmt _ _ _ _)); try (by destruct (Config.lang_text _ _));
    try done.
  cbv beta iota.
  pose proof (load_csv_configs_loop_valid str_format svc true cs 0 inst1) as Hq2.
  destruct (Config.load_csv_configs_loop str_format svc true cs 0 inst1)
    as [inst2 [n2|e2]] eqn:Hl2; [|done].
  pose proof (load_csv_configs_loop_lookup _ _ _ _ _ Hl2 (Hc _ eq_refl)) as Hlook2.
  intros [= <-]. exists qs, cs. split; [done|]. split; [done|].
  simpl in Hcsv. split.
  - intros k sql.
    assert (Config._queries inst2 = Config._queries inst1) as ->.
    { apply Hq2. unfold csv_store_valid. rewrite Hcsv. apply map_Forall_empty. }
    rewrite Hlook1. split; [|by left].
    intros [H|[_ H]]; [done|]. simpl in H. by rewrite lookup_empty in H.
  - intros k out. rewrite Hlook2, Hcsv. split; [|by left].
    intros [H|[_ H]]; [done|by rewrite lookup_empty in H].
Qed.
End ConfigFromFiles.

Lemma from_files_spec_witness :
  (forall data, ConfigSample.fs "queries.json" = Parsed (JObject data) -> NoDup data.*1) /\
  (forall data, ConfigSample.fs "csv_configs.json" = Parsed (JObject data) -> NoDup data.*1) /\
  Config.from_files plain_format (fun p => p) None ConfigSample.fs "queries.json"
    "csv_configs.json" false
  = Config.from_files plain_format (fun p => p) None ConfigSample.fs "queries.json"
      "csv_configs.json" true.
Proof.
  assert (forall data, ConfigSample.fs "queries.json" = Parsed (JObject data) ->
                       NoDup data.*1) as Hq.
  { intros data [= <-]. apply (bool_decide_unpack _). by vm_compute. }
  assert (forall data, ConfigSample.fs "csv_configs.json" = Parsed (JObject data) ->
                       NoDup data.*1) as Hc.
  { intros data [= <-]. apply (bool_decide_unpack _). by vm_compute. }
  split; [exact Hq|]. split; [exact Hc|].
  exact (proj1 (from_files_spec plain_format (fun p => p) None ConfigSample.fs "queries.json"
                  "csv_configs.json" false Hq Hc)).
Defined.


(** ** What a reload stores *)

Section ReloadStores.
Implicit Types es pre : list (string * string * json).
















End ReloadStores.


